(** * bua: interactive element extraction and screenshot annotation

  A shallow embedding of [dom/enhanced.go] and [screenshot/annotate.go].

  Go values are modelled as follows.
  - [float64] is Rocq's primitive binary64 [float]; [+ - * /] and the
    comparisons are the IEEE 754 operations of [PrimFloat].
  - [int] is [Z]; slice lengths and loop counters that range over a slice
    are [nat].  Where the annotation code computes with [int] the 64-bit
    wrap-around is written out.
  - [string] is [string]; a slice is a [list]; [map[int]T] is [gmap Z T].
  - A [*EnhancedElement] is modelled by the record it points to.  Every
    element is allocated once by the parser, is mutated only before it is
    added to the map, and the slice [Elements] holds the address of the
    [Element] embedded in it, so the record stands for both views. *)

From Stdlib Require Import ZArith List Bool Lia Floats Ascii DecimalString.
From stdpp Require Import base option list gmap strings sorting.

Local Open Scope Z_scope.

(** ** float64 *)

Module Float64.

(** Go's comparison operators on [float64]. *)
Definition lt (a b : float) : bool := PrimFloat.ltb a b.
Definition le (a b : float) : bool := PrimFloat.leb a b.
Definition gt (a b : float) : bool := PrimFloat.ltb b a.
Definition ge (a b : float) : bool := PrimFloat.leb b a.

(** The built-in [max] and [min] on two [float64]: a NaN argument gives
    NaN, and negative zero is below positive zero. *)
Definition max (x y : float) : float :=
  if PrimFloat.is_nan x || PrimFloat.is_nan y then PrimFloat.nan
  else if PrimFloat.ltb x y then y
  else if PrimFloat.ltb y x then x
  else if PrimFloat.get_sign x then y else x.

Definition min (x y : float) : float :=
  if PrimFloat.is_nan x || PrimFloat.is_nan y then PrimFloat.nan
  else if PrimFloat.ltb x y then x
  else if PrimFloat.ltb y x then y
  else if PrimFloat.get_sign x then x else y.

(** The constants [0.9] and [0.99] rounded to binary64. *)
Definition c0_9 : float := 0x1.ccccccccccccdp-1%float.
Definition c0_99 : float := 0x1.fae147ae147aep-1%float.

(** The conversion [int(f)]: the fraction is discarded.  Go leaves the
    result open when the value does not fit; the smallest [int] is what the
    amd64 conversion instruction delivers, for NaN too. *)
Definition minInt : Z := - 2 ^ 63.

Definition to_int (f : float) : Z :=
  match Prim2SF f with
  | S754_zero _ => 0
  | S754_finite s m e =>
      let mag := if 0 <=? e then Z.pos m * 2 ^ e else Z.pos m / 2 ^ (- e) in
      let v := if s then - mag else mag in
      if (minInt <=? v) && (v <? 2 ^ 63) then v else minInt
  | _ => minInt
  end.

(** The conversion [float64(n)] of an [int], rounded to nearest even. *)
Definition of_int (n : Z) : float :=
  if n =? minInt then (-0x1p63)%float
  else if n <? 0 then PrimFloat.opp (PrimFloat.of_uint63 (Uint63.of_Z (- n)))
  else PrimFloat.of_uint63 (Uint63.of_Z n).

(** [math.Ceil]. *)
Definition ceil (f : float) : float :=
  match Prim2SF f with
  | S754_finite s m e =>
      if 0 <=? e then f
      else
        let t := of_int (to_int f) in
        if PrimFloat.ltb t f then PrimFloat.add t PrimFloat.one
        else if s && PrimFloat.is_zero t then PrimFloat.neg_zero
        else t
  | _ => f
  end.

End Float64.

(** ** int *)

Module Int.

(** Reduction of an integer to the 64-bit two's complement range. *)
Definition wrap (z : Z) : Z := (z + 2 ^ 63) mod 2 ^ 64 - 2 ^ 63.

Definition add (a b : Z) : Z := wrap (a + b).
Definition sub (a b : Z) : Z := wrap (a - b).
Definition mul (a b : Z) : Z := wrap (a * b).
(** [a / b] truncates toward zero. *)
Definition div (a b : Z) : Z := wrap (Z.quot a b).

(** [fmt.Sprintf("%d", n)]. *)
Definition itoa (n : Z) : string := NilZero.string_of_int (Z.to_int n).

End Int.

(** ** The data model of package [dom] *)

Module Dom.

(** Modelled from the spec: the type [BoundingBox] is declared in another
    file of the package; its four [float64] fields are the ones the code
    reads. *)
Record BoundingBox : Type := mkBoundingBox {
  X : float;
  Y : float;
  Width : float;
  Height : float
}.

(** [var bbox *BoundingBox] left unset gives the zero box. *)
Definition zeroBox : BoundingBox :=
  mkBoundingBox PrimFloat.zero PrimFloat.zero PrimFloat.zero PrimFloat.zero.

(** [b.Width <= 0 || b.Height <= 0], the guard of both geometric passes. *)
Definition emptyBounds (b : BoundingBox) : bool :=
  Float64.le (Width b) PrimFloat.zero || Float64.le (Height b) PrimFloat.zero.

(** Modelled from the spec: the type [Element] is declared in another
    file of the package.  The fields are those of the data model that the code
    reads or writes; [Elem_BackendNodeID] is the field [BackendNodeID] of
    [Element] itself, which the field of the same name in
    [EnhancedElement] shadows. *)
Record Element : Type := mkElement {
  TagName : string;
  Role : string;
  Name : string;
  Text : string;
  Type_ : string;
  Href : string;
  Placeholder : string;
  AriaLabel : string;
  IsVisible : bool;
  IsEnabled : bool;
  IsInteractive : bool;
  IsFocusable : bool;
  Bounds : BoundingBox;
  Selector : string;
  Index : Z;
  Elem_BackendNodeID : Z
}.

Record EnhancedElement : Type := mkEnhancedElement {
  base : Element;
  BackendNodeID : Z;
  ParentIndex : Z;
  Depth : Z;
  PaintOrder : Z;
  IsNew : bool;
  IsScrollable : bool;
  ScrollWidth : Z;
  ScrollHeight : Z;
  ChildCount : Z;
  IsShadowRoot : bool;
  AXFocusable : bool;
  AXEditable : bool;
  AXExpanded : option bool;
  AXChecked : option bool;
  AXSelected : option bool;
  AXRequired : bool;
  AXDisabled : bool;
  AXDescription : string;
  ComputedCursor : string;
  ZIndex : Z;
  IsOccluded : bool;
  IsContained : bool
}.

(** Field assignments through a pointer. *)
Definition with_base (f : Element -> Element) (e : EnhancedElement) : EnhancedElement :=
  mkEnhancedElement (f (base e)) (BackendNodeID e) (ParentIndex e) (Depth e)
    (PaintOrder e) (IsNew e) (IsScrollable e) (ScrollWidth e) (ScrollHeight e)
    (ChildCount e) (IsShadowRoot e) (AXFocusable e) (AXEditable e) (AXExpanded e)
    (AXChecked e) (AXSelected e) (AXRequired e) (AXDisabled e) (AXDescription e)
    (ComputedCursor e) (ZIndex e) (IsOccluded e) (IsContained e).

Definition set_IsOccluded (v : bool) (e : EnhancedElement) : EnhancedElement :=
  mkEnhancedElement (base e) (BackendNodeID e) (ParentIndex e) (Depth e)
    (PaintOrder e) (IsNew e) (IsScrollable e) (ScrollWidth e) (ScrollHeight e)
    (ChildCount e) (IsShadowRoot e) (AXFocusable e) (AXEditable e) (AXExpanded e)
    (AXChecked e) (AXSelected e) (AXRequired e) (AXDisabled e) (AXDescription e)
    (ComputedCursor e) (ZIndex e) v (IsContained e).

Definition set_IsContained (v : bool) (e : EnhancedElement) : EnhancedElement :=
  mkEnhancedElement (base e) (BackendNodeID e) (ParentIndex e) (Depth e)
    (PaintOrder e) (IsNew e) (IsScrollable e) (ScrollWidth e) (ScrollHeight e)
    (ChildCount e) (IsShadowRoot e) (AXFocusable e) (AXEditable e) (AXExpanded e)
    (AXChecked e) (AXSelected e) (AXRequired e) (AXDisabled e) (AXDescription e)
    (ComputedCursor e) (ZIndex e) (IsOccluded e) v.

Definition set_IsNew (v : bool) (e : EnhancedElement) : EnhancedElement :=
  mkEnhancedElement (base e) (BackendNodeID e) (ParentIndex e) (Depth e)
    (PaintOrder e) v (IsScrollable e) (ScrollWidth e) (ScrollHeight e)
    (ChildCount e) (IsShadowRoot e) (AXFocusable e) (AXEditable e) (AXExpanded e)
    (AXChecked e) (AXSelected e) (AXRequired e) (AXDisabled e) (AXDescription e)
    (ComputedCursor e) (ZIndex e) (IsOccluded e) (IsContained e).

Definition set_Index (v : Z) (el : Element) : Element :=
  mkElement (TagName el) (Role el) (Name el) (Text el) (Type_ el) (Href el)
    (Placeholder el) (AriaLabel el) (IsVisible el) (IsEnabled el)
    (IsInteractive el) (IsFocusable el) (Bounds el) (Selector el) v
    (Elem_BackendNodeID el).

(** [el.BoundingBox], promoted from the embedded [Element]. *)
Definition bbox (e : EnhancedElement) : BoundingBox := Bounds (base e).

(** [Width * Height] of a box. *)
Definition area (b : BoundingBox) : float := PrimFloat.mul (Width b) (Height b).

(** ** Geometry *)

(** The corners of the axis-aligned intersection, as both tests compute
    them. *)
Definition ix1 (a b : BoundingBox) : float := Float64.max (X a) (X b).
Definition iy1 (a b : BoundingBox) : float := Float64.max (Y a) (Y b).
Definition ix2 (a b : BoundingBox) : float :=
  Float64.min (PrimFloat.add (X a) (Width a)) (PrimFloat.add (X b) (Width b)).
Definition iy2 (a b : BoundingBox) : float :=
  Float64.min (PrimFloat.add (Y a) (Height a)) (PrimFloat.add (Y b) (Height b)).

(** [x2 <= x1 || y2 <= y1]: the boxes do not overlap. *)
Definition noOverlap (a b : BoundingBox) : bool :=
  Float64.le (ix2 a b) (ix1 a b) || Float64.le (iy2 a b) (iy1 a b).

(** [(x2 - x1) * (y2 - y1)]. *)
Definition overlapProduct (a b : BoundingBox) : float :=
  PrimFloat.mul (PrimFloat.sub (ix2 a b) (ix1 a b)) (PrimFloat.sub (iy2 a b) (iy1 a b)).

Definition isContainedWithin (inner outer : BoundingBox) (threshold : float) : bool :=
  if noOverlap inner outer then false
  else
    let intersectionArea := overlapProduct inner outer in
    let innerArea := area inner in
    if Float64.le innerArea PrimFloat.zero then false
    else Float64.ge (PrimFloat.div intersectionArea innerArea) threshold.

Definition isSignificantlyOccluded (target occluder : BoundingBox) : bool :=
  if noOverlap target occluder then false
  else
    let intersectionArea := overlapProduct target occluder in
    let targetArea := area target in
    Float64.ge (PrimFloat.div intersectionArea targetArea) Float64.c0_9.

(** The area of the axis-aligned intersection of two boxes: zero when they
    do not overlap.  This is the quantity the specification speaks of. *)
Definition intersectionArea (a b : BoundingBox) : float :=
  if noOverlap a b then PrimFloat.zero else overlapProduct a b.

(** [intersection / area(e)]. *)
Definition coverage (e other : BoundingBox) : float :=
  PrimFloat.div (intersectionArea e other) (area e).

(** ** The occlusion pass *)

(** The inner loop of [markOccludedElements]: scan [elements[0..i)] from
    the front, skip boxes with empty bounds, stop at the first one that
    covers [el].  The result is the position at which the loop breaks. *)
Fixpoint occluderScan (el : EnhancedElement) (highers : list EnhancedElement)
    (j : nat) : option nat :=
  match highers with
  | [] => None
  | higher :: rest =>
      if emptyBounds (bbox higher) then occluderScan el rest (S j)
      else if isSignificantlyOccluded (bbox el) (bbox higher) then Some j
      else occluderScan el rest (S j)
  end.

(** One iteration of the outer loop on [el = elements[i]], where [done]
    is [elements[0..i)] as the earlier iterations left it. *)
Definition occludeOne (done : list EnhancedElement) (el : EnhancedElement)
    : EnhancedElement :=
  if emptyBounds (bbox el) then el
  else match occluderScan el done 0 with
       | Some _ => set_IsOccluded true el
       | None => el
       end.

Fixpoint markOccludedFrom (done rest : list EnhancedElement) : list EnhancedElement :=
  match rest with
  | [] => done
  | el :: rest' => markOccludedFrom (done ++ [occludeOne done el]) rest'
  end.

Definition markOccludedElements (elements : list EnhancedElement)
    : list EnhancedElement :=
  markOccludedFrom [] elements.

(** ** The containment pass *)

(** [defaultInteractiveConfig.ContainmentThreshold]. *)
Definition ContainmentThreshold : float := Float64.c0_99.

(** The test the inner loop of [markContainedElements] applies to
    [potential = elements[j]] for [el = elements[i]]. *)
Definition containedBy (i : nat) (el : EnhancedElement) (j : nat)
    (potential : EnhancedElement) : bool :=
  if Nat.eqb i j || negb (IsInteractive (base potential)) then false
  else if emptyBounds (bbox potential) then false
  else if isContainedWithin (bbox el) (bbox potential) ContainmentThreshold then
    let elArea := area (bbox el) in
    let parentArea := area (bbox potential) in
    Float64.lt elArea parentArea
  else false.

(** The inner loop, with its [break]. *)
Fixpoint parentScan (i : nat) (el : EnhancedElement)
    (potentials : list EnhancedElement) (j : nat) : bool :=
  match potentials with
  | [] => false
  | potential :: rest =>
      if containedBy i el j potential then true
      else parentScan i el rest (S j)
  end.

(** One iteration of the outer loop: [elements[i]] is updated in place. *)
Definition containStep (elements : list EnhancedElement) (i : nat)
    : list EnhancedElement :=
  match elements !! i with
  | None => elements
  | Some el =>
      if emptyBounds (bbox el) then elements
      else if parentScan i el elements 0
           then <[i := set_IsContained true el]> elements
           else elements
  end.

Definition markContainedElements (elements : list EnhancedElement)
    : list EnhancedElement :=
  foldl containStep elements (seq 0 (length elements)).


(** ** The accessibility tree *)

(** A value of type [any] as far as the type assertions of the code tell
    values apart. *)
Inductive GoAny : Type :=
| AnyBool (b : bool)
| AnyString (s : string)
| AnyOther.

(** Modelled from the spec: the accessibility node types are declared
    in another file of the package.  A value, a property and a node carry the
    fields the code reads; a nil pointer is [None]. *)
Record AXValue : Type := mkAXValue { Value : GoAny }.

Record AXProperty : Type := mkAXProperty {
  prop_Name : string;
  prop_Value : option AXValue
}.

Record CDPAXNode : Type := mkCDPAXNode {
  BackendDOMNodeID : Z;
  ax_Role : option AXValue;
  ax_Name : option AXValue;
  ax_Description : option AXValue;
  Properties : list AXProperty
}.

(** [v.(bool)] and [v.(string)]. *)
Definition asBool (v : GoAny) : option bool :=
  match v with AnyBool b => Some b | _ => None end.

Definition asString (v : GoAny) : option string :=
  match v with AnyString s => Some s | _ => None end.

(** The lookup built from the accessibility response: nodes with a
    positive backend id, a later node replacing an earlier one. *)
Definition buildAXLookup (nodes : list CDPAXNode) : gmap Z CDPAXNode :=
  foldl (fun m node =>
           if 0 <? BackendDOMNodeID node then <[BackendDOMNodeID node := node]> m else m)
        ∅ nodes.

(** ** The interactivity classifier *)

Definition interactiveTags : list string :=
  ["a"; "button"; "input"; "select"; "textarea"; "details"; "summary";
   "option"; "optgroup"]%string.

Definition interactiveRoles : list string :=
  ["button"; "link"; "textbox"; "checkbox"; "radio"; "combobox"; "listbox";
   "menuitem"; "menuitemcheckbox"; "menuitemradio"; "option"; "tab";
   "switch"; "slider"; "spinbutton"; "searchbox"; "gridcell"; "treeitem"]%string.

(** [set[key]] on a [map[string]bool] whose entries are all [true]. *)
Definition inSet (key : string) (set : list string) : bool :=
  existsb (String.eqb key) set.

Definition shouldProcessTag (tagName : string) : bool :=
  if inSet tagName interactiveTags then true
  else inSet tagName
         ["div"; "span"; "li"; "tr"; "td"; "img"; "svg"; "label"; "nav";
          "header"; "footer"; "article"; "section"]%string.

(** Tier 4: some property named [focusable] or [editable] holds the
    boolean [true]. *)
Definition axAssertsInteractive (axNode : CDPAXNode) : bool :=
  existsb (fun prop =>
             match prop_Value prop with
             | None => false
             | Some v =>
                 if String.eqb (prop_Name prop) "focusable"
                    || String.eqb (prop_Name prop) "editable"
                 then match asBool (Value v) with Some true => true | _ => false end
                 else false
             end)
          (Properties axNode).

Definition isElementInteractive (tagName role : string) (hasOnclick : bool)
    (tabindex : string) (axNode : option CDPAXNode) : bool :=
  if inSet tagName interactiveTags then true
  else if inSet role interactiveRoles then true
  else if hasOnclick then true
  else if negb (String.eqb tabindex "") && negb (String.eqb tabindex "-1") then true
  else match axNode with
       | Some n => axAssertsInteractive n
       | None => false
       end.

Definition isElementInteractiveWithCursor (tagName role : string) (hasOnclick : bool)
    (tabindex cursor : string) (axNode : option CDPAXNode) : bool :=
  if isElementInteractive tagName role hasOnclick tabindex axNode then true
  else if String.eqb cursor "pointer" then true
  else false.

(** [strings.Contains]. *)
Fixpoint contains (s sub : string) : bool :=
  if String.prefix sub s then true
  else match s with
       | EmptyString => false
       | String _ rest => contains rest sub
       end.

Definition isElementScrollable (overflow : string)
    (scrollWidth scrollHeight clientWidth clientHeight : Z) : bool :=
  let isScrollable :=
    String.eqb overflow "auto" || String.eqb overflow "scroll"
    || contains overflow "auto" || contains overflow "scroll" in
  let hasOverflow := (clientWidth <? scrollWidth) || (clientHeight <? scrollHeight) in
  isScrollable && hasOverflow.

(** ** Merging accessibility data *)

Definition set_Name (v : string) (el : Element) : Element :=
  mkElement (TagName el) (Role el) v (Text el) (Type_ el) (Href el)
    (Placeholder el) (AriaLabel el) (IsVisible el) (IsEnabled el)
    (IsInteractive el) (IsFocusable el) (Bounds el) (Selector el) (Index el)
    (Elem_BackendNodeID el).

Definition set_Role (v : string) (el : Element) : Element :=
  mkElement (TagName el) v (Name el) (Text el) (Type_ el) (Href el)
    (Placeholder el) (AriaLabel el) (IsVisible el) (IsEnabled el)
    (IsInteractive el) (IsFocusable el) (Bounds el) (Selector el) (Index el)
    (Elem_BackendNodeID el).

Definition set_IsEnabled (v : bool) (el : Element) : Element :=
  mkElement (TagName el) (Role el) (Name el) (Text el) (Type_ el) (Href el)
    (Placeholder el) (AriaLabel el) (IsVisible el) v
    (IsInteractive el) (IsFocusable el) (Bounds el) (Selector el) (Index el)
    (Elem_BackendNodeID el).

Definition set_IsFocusable (v : bool) (el : Element) : Element :=
  mkElement (TagName el) (Role el) (Name el) (Text el) (Type_ el) (Href el)
    (Placeholder el) (AriaLabel el) (IsVisible el) (IsEnabled el)
    (IsInteractive el) v (Bounds el) (Selector el) (Index el)
    (Elem_BackendNodeID el).

Definition set_Bounds (v : BoundingBox) (el : Element) : Element :=
  mkElement (TagName el) (Role el) (Name el) (Text el) (Type_ el) (Href el)
    (Placeholder el) (AriaLabel el) (IsVisible el) (IsEnabled el)
    (IsInteractive el) (IsFocusable el) v (Selector el) (Index el)
    (Elem_BackendNodeID el).

Definition set_Selector (v : string) (el : Element) : Element :=
  mkElement (TagName el) (Role el) (Name el) (Text el) (Type_ el) (Href el)
    (Placeholder el) (AriaLabel el) (IsVisible el) (IsEnabled el)
    (IsInteractive el) (IsFocusable el) (Bounds el) v (Index el)
    (Elem_BackendNodeID el).

Definition set_Elem_BackendNodeID (v : Z) (el : Element) : Element :=
  mkElement (TagName el) (Role el) (Name el) (Text el) (Type_ el) (Href el)
    (Placeholder el) (AriaLabel el) (IsVisible el) (IsEnabled el)
    (IsInteractive el) (IsFocusable el) (Bounds el) (Selector el) (Index el) v.

(** The accessibility block of an element, replaced as a whole. *)
Definition set_AX (foc edi : bool) (ex ch se : option bool) (req dis : bool)
    (desc : string) (e : EnhancedElement) : EnhancedElement :=
  mkEnhancedElement (base e) (BackendNodeID e) (ParentIndex e) (Depth e)
    (PaintOrder e) (IsNew e) (IsScrollable e) (ScrollWidth e) (ScrollHeight e)
    (ChildCount e) (IsShadowRoot e) foc edi ex ch se req dis desc
    (ComputedCursor e) (ZIndex e) (IsOccluded e) (IsContained e).

Definition set_AXDescription (v : string) (e : EnhancedElement) :=
  set_AX (AXFocusable e) (AXEditable e) (AXExpanded e) (AXChecked e) (AXSelected e)
    (AXRequired e) (AXDisabled e) v e.
Definition set_AXFocusable (v : bool) (e : EnhancedElement) :=
  set_AX v (AXEditable e) (AXExpanded e) (AXChecked e) (AXSelected e)
    (AXRequired e) (AXDisabled e) (AXDescription e) e.
Definition set_AXEditable (v : bool) (e : EnhancedElement) :=
  set_AX (AXFocusable e) v (AXExpanded e) (AXChecked e) (AXSelected e)
    (AXRequired e) (AXDisabled e) (AXDescription e) e.
Definition set_AXExpanded (v : option bool) (e : EnhancedElement) :=
  set_AX (AXFocusable e) (AXEditable e) v (AXChecked e) (AXSelected e)
    (AXRequired e) (AXDisabled e) (AXDescription e) e.
Definition set_AXChecked (v : option bool) (e : EnhancedElement) :=
  set_AX (AXFocusable e) (AXEditable e) (AXExpanded e) v (AXSelected e)
    (AXRequired e) (AXDisabled e) (AXDescription e) e.
Definition set_AXSelected (v : option bool) (e : EnhancedElement) :=
  set_AX (AXFocusable e) (AXEditable e) (AXExpanded e) (AXChecked e) v
    (AXRequired e) (AXDisabled e) (AXDescription e) e.
Definition set_AXRequired (v : bool) (e : EnhancedElement) :=
  set_AX (AXFocusable e) (AXEditable e) (AXExpanded e) (AXChecked e) (AXSelected e)
    v (AXDisabled e) (AXDescription e) e.
Definition set_AXDisabled (v : bool) (e : EnhancedElement) :=
  set_AX (AXFocusable e) (AXEditable e) (AXExpanded e) (AXChecked e) (AXSelected e)
    (AXRequired e) v (AXDescription e) e.

(** The body of the loop over [axNode.Properties]. *)
Definition mergeAXProperty (el : EnhancedElement) (prop : AXProperty) : EnhancedElement :=
  match prop_Value prop with
  | None => el
  | Some v =>
      match asBool (Value v) with
      | None => el
      | Some val =>
          if String.eqb (prop_Name prop) "focusable" then
            with_base (set_IsFocusable val) (set_AXFocusable val el)
          else if String.eqb (prop_Name prop) "editable" then set_AXEditable val el
          else if String.eqb (prop_Name prop) "expanded" then set_AXExpanded (Some val) el
          else if String.eqb (prop_Name prop) "checked" then set_AXChecked (Some val) el
          else if String.eqb (prop_Name prop) "selected" then set_AXSelected (Some val) el
          else if String.eqb (prop_Name prop) "required" then set_AXRequired val el
          else if String.eqb (prop_Name prop) "disabled" then
            let el := set_AXDisabled val el in
            if val then with_base (set_IsEnabled false) el else el
          else el
      end
  end.

Definition mergeAXInfo (el : EnhancedElement) (axNode : CDPAXNode) : EnhancedElement :=
  let el :=
    match ax_Name axNode with
    | Some v =>
        match asString (Value v) with
        | Some name => if String.eqb (Name (base el)) "" then with_base (set_Name name) el else el
        | None => el
        end
    | None => el
    end in
  let el :=
    match ax_Role axNode with
    | Some v =>
        match asString (Value v) with
        | Some role => if String.eqb (Role (base el)) "" then with_base (set_Role role) el else el
        | None => el
        end
    | None => el
    end in
  let el :=
    match ax_Description axNode with
    | Some v =>
        match asString (Value v) with
        | Some desc => set_AXDescription desc el
        | None => el
        end
    | None => el
    end in
  foldl mergeAXProperty el (Properties axNode).

(** ** Functions of the standard library and of the package that the
    code calls and these files do not define. *)

Class GoEnv : Type := mkGoEnv {
  (** [strings.ToLower]. *)
  strings_ToLower : string -> string;
  (** [sort.Slice(elements, less)]: the sorted slice. *)
  sort_Slice : (EnhancedElement -> EnhancedElement -> bool) ->
               list EnhancedElement -> list EnhancedElement;
  (** [truncate(s, n)] of package [dom]. *)
  truncate : string -> Z -> string;
  (** The verb [%q] of [fmt] applied to a string. *)
  quote : string -> string
}.

(** ** The snapshot parser *)

(** The decoded wire payload of one document. *)
Record SnapshotNodes : Type := mkSnapshotNodes {
  n_ParentIndex : list Z;
  n_NodeType : list Z;
  n_NodeName : list Z;
  n_NodeValue : list Z;
  n_BackendNodeID : list Z;
  n_Attributes : list (list Z);
  n_TextValue : list Z;
  n_InputValue : list Z;
  n_CurrentSourceURL : list Z;
  n_IsClickable : list bool;
  n_PseudoType : list Z;
  n_ContentDocumentIndex : list Z
}.

Record SnapshotLayout : Type := mkSnapshotLayout {
  l_NodeIndex : list Z;
  l_Bounds : list (list float);
  l_PaintOrders : list Z;
  l_OffsetRects : list (list float);
  l_ScrollRects : list (list float);
  l_ClientRects : list (list float);
  l_Styles : list (list Z)
}.

Record SnapshotDocument : Type := mkSnapshotDocument {
  DocumentURL : string;
  BaseURL : string;
  Nodes : SnapshotNodes;
  Layout : SnapshotLayout;
  Strings : list string
}.

Record SnapshotResponse : Type := mkSnapshotResponse {
  Documents : list SnapshotDocument
}.

(** [layoutLookup]: node index to layout index, a later record replacing
    an earlier one for the same node. *)
Fixpoint buildLayoutLookup (nodeIndex : list Z) (i : nat) (m : gmap Z nat) : gmap Z nat :=
  match nodeIndex with
  | [] => m
  | nodeIdx :: rest => buildLayoutLookup rest (S i) (<[nodeIdx := i]> m)
  end.

(** The closure [getString]. *)
Definition getString (stringsArr : list string) (idx : Z) : string :=
  if (0 <=? idx) && (idx <? Z.of_nat (length stringsArr))
  then default ""%string (stringsArr !! Z.to_nat idx)
  else ""%string.

(** The loop of the closure [getAttr] over the flat list of name and value
    indices, two at a time; a trailing name without a value is passed
    over. *)
Fixpoint scanAttrs (stringsArr : list string) (attrs : list Z) (attrName : string)
    : string :=
  match attrs with
  | nameIdx :: valueIdx :: rest =>
      if (0 <=? nameIdx) && (nameIdx <? Z.of_nat (length stringsArr))
         && String.eqb (default ""%string (stringsArr !! Z.to_nat nameIdx)) attrName
      then
        if (0 <=? valueIdx) && (valueIdx <? Z.of_nat (length stringsArr))
        then default ""%string (stringsArr !! Z.to_nat valueIdx)
        else scanAttrs stringsArr rest attrName
      else scanAttrs stringsArr rest attrName
  | _ => ""%string
  end.

Definition getAttr (doc : SnapshotDocument) (nodeIdx : nat) (attrName : string) : string :=
  match n_Attributes (Nodes doc) !! nodeIdx with
  | None => ""%string
  | Some attrs => scanAttrs (Strings doc) attrs attrName
  end.

(** The assignment to [isEnabled] in the parser. *)
Definition isEnabledOf (doc : SnapshotDocument) (i : nat) : bool :=
  String.eqb (getAttr doc i "disabled") ""
  && negb (String.eqb (getAttr doc i "aria-disabled") "true").

(** What the parser reads from the layout record of a node. *)
Record LayoutInfo : Type := mkLayoutInfo {
  li_bbox : option BoundingBox;
  li_paintOrder : Z;
  li_isVisible : bool;
  li_cursor : string;
  li_overflow : string;
  li_scrollWidth : Z;
  li_scrollHeight : Z;
  li_clientWidth : Z;
  li_clientHeight : Z
}.

Definition noLayout : LayoutInfo :=
  mkLayoutInfo None 0 false "" "" 0 0 0 0.

Definition readLayout (doc : SnapshotDocument) (layoutIdx : nat) : LayoutInfo :=
  let layout := Layout doc in
  let gs := getString (Strings doc) in
  let '(bbox, isVisible) :=
    match l_Bounds layout !! layoutIdx with
    | Some (x :: y :: w :: h :: _) =>
        (Some (mkBoundingBox x y w h),
         Float64.gt w PrimFloat.zero && Float64.gt h PrimFloat.zero)
    | _ => (None, false)
    end in
  let paintOrder := default 0 (l_PaintOrders layout !! layoutIdx) in
  let styles := default [] (l_Styles layout !! layoutIdx) in
  let isVisible :=
    match styles !! 0%nat with
    | Some s => if String.eqb (gs s) "none" then false else isVisible
    | None => isVisible
    end in
  let isVisible :=
    match styles !! 1%nat with
    | Some s => if String.eqb (gs s) "hidden" then false else isVisible
    | None => isVisible
    end in
  let isVisible :=
    match styles !! 2%nat with
    | Some s => if String.eqb (gs s) "0" then false else isVisible
    | None => isVisible
    end in
  let cursor := match styles !! 3%nat with Some s => gs s | None => ""%string end in
  let overflow := match styles !! 5%nat with Some s => gs s | None => ""%string end in
  let '(scrollWidth, scrollHeight) :=
    match l_ScrollRects layout !! layoutIdx with
    | Some (_ :: _ :: w :: h :: _) => (Float64.to_int w, Float64.to_int h)
    | _ => (0, 0)
    end in
  let '(clientWidth, clientHeight) :=
    match l_ClientRects layout !! layoutIdx with
    | Some (_ :: _ :: w :: h :: _) => (Float64.to_int w, Float64.to_int h)
    | _ => (0, 0)
    end in
  mkLayoutInfo bbox paintOrder isVisible cursor overflow
    scrollWidth scrollHeight clientWidth clientHeight.

Section Parser.
Context `{GoEnv}.

(** The body of the loop over the nodes; [None] where the loop continues
    without appending. *)
Definition parseNode (doc : SnapshotDocument) (layoutLookup : gmap Z nat)
    (axLookup : gmap Z CDPAXNode) (i : nat) : option EnhancedElement :=
  let nodes := Nodes doc in
  let gs := getString (Strings doc) in
  match n_NodeType nodes !! i with
  | None => None
  | Some nodeType =>
      if negb (nodeType =? 1) then None
      else
        let tagName :=
          match n_NodeName nodes !! i with
          | Some idx => strings_ToLower (gs idx)
          | None => ""%string
          end in
        if negb (shouldProcessTag tagName) then None
        else
          let backendNodeID := default 0 (n_BackendNodeID nodes !! i) in
          let li :=
            match layoutLookup !! Z.of_nat i with
            | Some layoutIdx => readLayout doc layoutIdx
            | None => noLayout
            end in
          let role := getAttr doc i "role" in
          let ariaLabel := getAttr doc i "aria-label" in
          let placeholder := getAttr doc i "placeholder" in
          let href := getAttr doc i "href" in
          let inputType := getAttr doc i "type" in
          let name := getAttr doc i "name" in
          let id := getAttr doc i "id" in
          let text :=
            match n_TextValue nodes !! i with
            | Some tv => if 0 <=? tv then gs tv else ""%string
            | None => ""%string
            end in
          let text :=
            if String.eqb text "" then
              match n_InputValue nodes !! i with
              | Some iv => if 0 <=? iv then gs iv else text
              | None => text
              end
            else text in
          let isInteractive :=
            isElementInteractiveWithCursor tagName role
              (negb (String.eqb (getAttr doc i "onclick") ""))
              (getAttr doc i "tabindex") (li_cursor li) (axLookup !! backendNodeID) in
          let scrollable :=
            isElementScrollable (li_overflow li) (li_scrollWidth li) (li_scrollHeight li)
              (li_clientWidth li) (li_clientHeight li) in
          let isEnabled := isEnabledOf doc i in
          let el :=
            mkEnhancedElement
              (mkElement tagName role name (truncate text 200) inputType href
                 placeholder ariaLabel (li_isVisible li) isEnabled isInteractive
                 false zeroBox "" 0 0)
              backendNodeID 0 0 (li_paintOrder li) false scrollable
              (li_scrollWidth li) (li_scrollHeight li) 0 false
              false false None None None false false ""
              (li_cursor li) 0 false false in
          let el :=
            match axLookup !! backendNodeID with
            | Some axNode => mergeAXInfo el axNode
            | None => el
            end in
          let el :=
            if negb (String.eqb id "") then
              with_base (set_Selector ("#" +:+ id)) el
            else if negb (String.eqb name "") then
              with_base (set_Selector (tagName +:+ "[name=" +:+ quote name +:+ "]")) el
            else el in
          let el :=
            match li_bbox li with
            | Some b => with_base (set_Bounds b) el
            | None => el
            end in
          Some el
  end.

(** The elements in node order, before sorting. *)
Definition parseNodes (doc : SnapshotDocument) (axLookup : gmap Z CDPAXNode)
    : list EnhancedElement :=
  let layoutLookup := buildLayoutLookup (l_NodeIndex (Layout doc)) 0 ∅ in
  omap (parseNode doc layoutLookup axLookup) (seq 0 (length (n_NodeType (Nodes doc)))).

(** The comparison handed to [sort.Slice]. *)
Definition paintOrderLess (a b : EnhancedElement) : bool :=
  PaintOrder b <? PaintOrder a.

(** [parseSnapshotResponse] on the decoded payload; [None] is the decoding
    error and the error for a payload without documents. *)
Definition parseSnapshotResponse (decoded : option SnapshotResponse)
    (axLookup : gmap Z CDPAXNode) : option (list EnhancedElement) :=
  match decoded with
  | None => None
  | Some response =>
      match Documents response with
      | [] => None
      | doc :: _ =>
          let elements := parseNodes doc axLookup in
          let elements := sort_Slice paintOrderLess elements in
          let elements := markOccludedElements elements in
          let elements := markContainedElements elements in
          Some elements
      end
  end.

End Parser.

(** ** The element map *)

(** Modelled from the spec: the type [ElementMap] is declared in another
    file of the package; the script-based extraction returns one.  Its fields
    are the ones the code reads. *)
Record ElementMap : Type := mkElementMap {
  em_PageURL : string;
  em_PageTitle : string;
  em_Elements : list Element
}.

(** [EnhancedElementMap] with the fields of the embedded [ElementMap]
    promoted.  [Elements] lists the enhanced elements whose embedded
    [Element] the slice of the code points to. *)
Record EnhancedElementMap : Type := mkEnhancedElementMap {
  PageURL : string;
  PageTitle : string;
  Elements : list EnhancedElement;
  indexMap : gmap Z EnhancedElement;
  BackendNodeMap : gmap Z EnhancedElement;
  PreviousNodeIDs : gmap Z bool;
  TotalElements : Z;
  FilteredByPaint : Z;
  FilteredByContain : Z;
  FilteredByHidden : Z
}.

Definition NewEnhancedElementMap : EnhancedElementMap :=
  mkEnhancedElementMap "" "" [] ∅ ∅ ∅ 0 0 0 0.

Definition AddEnhanced (m : EnhancedElementMap) (el : EnhancedElement)
    : EnhancedElementMap :=
  mkEnhancedElementMap (PageURL m) (PageTitle m)
    (Elements m ++ [el])
    (<[Index (base el) := el]> (indexMap m))
    (if 0 <? BackendNodeID el then <[BackendNodeID el := el]> (BackendNodeMap m)
     else BackendNodeMap m)
    (PreviousNodeIDs m) (TotalElements m) (FilteredByPaint m)
    (FilteredByContain m) (FilteredByHidden m).

Definition ByBackendNodeID (m : EnhancedElementMap) (nodeID : Z)
    : option EnhancedElement :=
  BackendNodeMap m !! nodeID.

Definition set_Page (url title : string) (m : EnhancedElementMap) : EnhancedElementMap :=
  mkEnhancedElementMap url title (Elements m) (indexMap m) (BackendNodeMap m)
    (PreviousNodeIDs m) (TotalElements m) (FilteredByPaint m)
    (FilteredByContain m) (FilteredByHidden m).

Definition set_PreviousNodeIDs (v : gmap Z bool) (m : EnhancedElementMap)
    : EnhancedElementMap :=
  mkEnhancedElementMap (PageURL m) (PageTitle m) (Elements m) (indexMap m)
    (BackendNodeMap m) v (TotalElements m) (FilteredByPaint m)
    (FilteredByContain m) (FilteredByHidden m).

Definition set_TotalElements (v : Z) (m : EnhancedElementMap) : EnhancedElementMap :=
  mkEnhancedElementMap (PageURL m) (PageTitle m) (Elements m) (indexMap m)
    (BackendNodeMap m) (PreviousNodeIDs m) v (FilteredByPaint m)
    (FilteredByContain m) (FilteredByHidden m).

Definition incr_FilteredByHidden (m : EnhancedElementMap) : EnhancedElementMap :=
  mkEnhancedElementMap (PageURL m) (PageTitle m) (Elements m) (indexMap m)
    (BackendNodeMap m) (PreviousNodeIDs m) (TotalElements m) (FilteredByPaint m)
    (FilteredByContain m) (FilteredByHidden m + 1).

Definition incr_FilteredByPaint (m : EnhancedElementMap) : EnhancedElementMap :=
  mkEnhancedElementMap (PageURL m) (PageTitle m) (Elements m) (indexMap m)
    (BackendNodeMap m) (PreviousNodeIDs m) (TotalElements m) (FilteredByPaint m + 1)
    (FilteredByContain m) (FilteredByHidden m).

Definition incr_FilteredByContain (m : EnhancedElementMap) : EnhancedElementMap :=
  mkEnhancedElementMap (PageURL m) (PageTitle m) (Elements m) (indexMap m)
    (BackendNodeMap m) (PreviousNodeIDs m) (TotalElements m) (FilteredByPaint m)
    (FilteredByContain m + 1) (FilteredByHidden m).

(** ** Extraction *)

(** What a protocol call delivers: an error, or data that decodes or does
    not. *)
Inductive CallResult (A : Type) : Type :=
| CallError
| CallData (decoded : option A).
Arguments CallError {A}.
Arguments CallData {A} decoded.

(** The page as far as one extraction observes it: the answers of the two
    protocol calls, which run side by side and do not depend on each
    other, the page information, and the result of the script-based
    extraction [ExtractElementMap], which is defined in another file of
    the package. *)
Record Page : Type := mkPage {
  page_Info : option (string * string);
  page_Snapshot : CallResult SnapshotResponse;
  page_AXTree : CallResult (list CDPAXNode);
  page_ExtractElementMap : option ElementMap
}.

(** The state of the loop that filters and indexes the parsed elements. *)
Definition filterStep (hasPrevious : bool) (st : EnhancedElementMap * Z)
    (el : EnhancedElement) : EnhancedElementMap * Z :=
  let '(elementMap, index) := st in
  if negb (IsInteractive (base el)) || negb (IsVisible (base el)) then
    (incr_FilteredByHidden elementMap, index)
  else if IsOccluded el then
    (incr_FilteredByPaint elementMap, index)
  else if IsContained el then
    (incr_FilteredByContain elementMap, index)
  else
    let el := with_base (set_Index index) el in
    let wasPrevious :=
      match PreviousNodeIDs elementMap !! BackendNodeID el with
      | Some _ => true
      | None => false
      end in
    let el := if negb wasPrevious && hasPrevious then set_IsNew true el else el in
    (AddEnhanced elementMap el, index + 1).

Definition filterAndIndex (hasPrevious : bool) (elementMap : EnhancedElementMap)
    (elements : list EnhancedElement) : EnhancedElementMap :=
  let '(elementMap, _) := foldl (filterStep hasPrevious) (elementMap, 0) elements in
  set_TotalElements (Z.of_nat (length elements)) elementMap.

(** The wrapper of a plain element on the fallback path. *)
Definition wrapElement (el : Element) : EnhancedElement :=
  mkEnhancedElement el (Elem_BackendNodeID el) 0 0 0 false false 0 0 0 false
    false false None None None false false "" "" 0 false false.

Definition extractEnhancedElementMapJS (page : Page) (axLookup : gmap Z CDPAXNode)
    (elementMap : EnhancedElementMap) : option EnhancedElementMap :=
  match page_ExtractElementMap page with
  | None => None
  | Some basicMap =>
      let elementMap := set_Page (em_PageURL basicMap) (em_PageTitle basicMap) elementMap in
      Some (foldl (fun m el => AddEnhanced m (wrapElement el)) elementMap
                  (em_Elements basicMap))
  end.

Section Extraction.
Context `{GoEnv}.

(** [ExtractEnhancedElementMap]; [None] is the error return. *)
Definition ExtractEnhancedElementMap (page : Page)
    (previousMap : option EnhancedElementMap) : option EnhancedElementMap :=
  let elementMap := NewEnhancedElementMap in
  let elementMap :=
    match page_Info page with
    | Some (url, title) => set_Page url title elementMap
    | None => elementMap
    end in
  let elementMap :=
    match previousMap with
    | Some prev =>
        set_PreviousNodeIDs ((fun _ => true) <$> BackendNodeMap prev) elementMap
    | None => elementMap
    end in
  let axLookup :=
    match page_AXTree page with
    | CallData (Some nodes) => buildAXLookup nodes
    | _ => ∅
    end in
  match page_Snapshot page with
  | CallError => extractEnhancedElementMapJS page axLookup elementMap
  | CallData decoded =>
      match parseSnapshotResponse decoded axLookup with
      | None => extractEnhancedElementMapJS page axLookup elementMap
      | Some elements =>
          Some (filterAndIndex (bool_decide (is_Some previousMap)) elementMap elements)
      end
  end.

(** ** The token serializer *)

(** The line feed. *)
Definition nl : string := String (Ascii.ascii_of_nat 10) EmptyString.

(** The line written for one visible element. *)
Definition tokenLine (m : EnhancedElementMap) (baseEl : Element) : string :=
  let enhanced := BackendNodeMap m !! Elem_BackendNodeID baseEl in
  let prefix :=
    match enhanced with
    | Some e => if IsNew e then "*"%string else ""%string
    | None => ""%string
    end in
  (prefix +:+ "[" +:+ Int.itoa (Index baseEl) +:+ "] " +:+ TagName baseEl)
  +:+ (if negb (String.eqb (Role baseEl) "")
          && negb (String.eqb (Role baseEl) (TagName baseEl))
       then " role=" +:+ Role baseEl else "")
  +:+ (if negb (String.eqb (Name baseEl) "")
       then " name=" +:+ quote (truncate (Name baseEl) 50)
       else if negb (String.eqb (Text baseEl) "")
       then " " +:+ quote (truncate (Text baseEl) 50)
       else if negb (String.eqb (AriaLabel baseEl) "")
       then " aria=" +:+ quote (truncate (AriaLabel baseEl) 50)
       else if negb (String.eqb (Placeholder baseEl) "")
       then " placeholder=" +:+ quote (truncate (Placeholder baseEl) 50)
       else "")
  +:+ (if negb (String.eqb (Type_ baseEl) "")
       then " type=" +:+ Type_ baseEl else "")
  +:+ (if negb (String.eqb (Href baseEl) "")
       then " href=" +:+ quote (truncate (Href baseEl) 80) else "")
  +:+ (match enhanced with
       | Some e => if IsScrollable e then " |SCROLL|"%string else ""%string
       | None => ""%string
       end)
  +:+ (if negb (IsEnabled baseEl) then " [disabled]" else "")
  +:+ nl.

(** The loop over [m.Elements] with its [continue] and [break]; [count] is
    the number of lines written so far. *)
Fixpoint tokenLoop (m : EnhancedElementMap) (maxElements : Z)
    (els : list EnhancedElement) (count : Z) : string :=
  match els with
  | [] => ""%string
  | e :: rest =>
      let baseEl := base e in
      if negb (IsVisible baseEl) then tokenLoop m maxElements rest count
      else if (0 <? maxElements) && (maxElements <=? count) then ""%string
      else tokenLine m baseEl +:+ tokenLoop m maxElements rest (count + 1)
  end.

(** The loop that counts the visible elements. *)
Definition visibleCount (m : EnhancedElementMap) : Z :=
  foldl (fun count e => if IsVisible (base e) then count + 1 else count) 0 (Elements m).

(** The third line of the output. *)
Definition tokenHeader (m : EnhancedElementMap) (maxElements : Z) : string :=
  if (0 <? maxElements) && (maxElements <? visibleCount m) then
    "Elements (" +:+ Int.itoa maxElements +:+ " of " +:+ Int.itoa (visibleCount m)
    +:+ " shown):" +:+ nl
  else
    "Elements (" +:+ Int.itoa (visibleCount m) +:+ "):" +:+ nl.

Definition ToTokenStringEnhanced (m : EnhancedElementMap) (maxElements : Z) : string :=
  ("Page: " +:+ PageTitle m +:+ nl)
  +:+ ("URL: " +:+ PageURL m +:+ nl)
  +:+ tokenHeader m maxElements
  +:+ tokenLoop m maxElements (Elements m) 0.

End Extraction.

End Dom.

(** ** Package [screenshot] *)

Module Screenshot.

(** [color.RGBA]. *)
Record Color : Type := mkColor { cR : Z; cG : Z; cB : Z; cA : Z }.

Record AnnotationConfig : Type := mkAnnotationConfig {
  BorderWidth : Z;
  FontSize : Z;
  ShowLabels : bool;
  ShowLabelsOnlyForUnlabeled : bool;
  LinkColor : Color;
  ButtonColor : Color;
  InputColor : Color;
  DefaultColor : Color;
  LabelBgColor : Color;
  LabelTextColor : Color
}.

Definition DefaultAnnotationConfig : AnnotationConfig :=
  mkAnnotationConfig 2 12 true false
    (mkColor 76 175 80 255) (mkColor 33 150 243 255) (mkColor 255 152 0 255)
    (mkColor 156 39 176 255) (mkColor 0 0 0 200) (mkColor 255 255 255 255).

(** The assignment [cfg.ShowLabelsOnlyForUnlabeled = b]. *)
Definition set_ShowLabelsOnlyForUnlabeled (b : bool) (cfg : AnnotationConfig)
    : AnnotationConfig :=
  mkAnnotationConfig (BorderWidth cfg) (FontSize cfg) (ShowLabels cfg) b
    (LinkColor cfg) (ButtonColor cfg) (InputColor cfg) (DefaultColor cfg)
    (LabelBgColor cfg) (LabelTextColor cfg).

(** Modelled from the spec: the interfaces [BoundingBoxInfo],
    [ElementInfo] and [ElementMapInterface] are declared in another file
    of the package.  A value of an interface is given by what its methods
    return. *)
Record BoundingBoxInfo : Type := mkBoundingBoxInfo {
  GetX : float;
  GetY : float;
  GetWidth : float;
  GetHeight : float;
  GetIsEmpty : bool
}.

Record ElementInfo : Type := mkElementInfo {
  GetTagName : string;
  GetRole : string;
  GetText : string;
  GetIndex : Z;
  GetIsVisible : bool;
  GetBoundingBox : BoundingBoxInfo
}.

Record ElementMapInterface : Type := mkElementMapInterface {
  Len : Z;
  GetElements : list ElementInfo
}.

(** [image.Rectangle] and an [image.RGBA] with its pixels. *)
Record Rectangle : Type := mkRectangle {
  MinX : Z;
  MinY : Z;
  MaxX : Z;
  MaxY : Z
}.

Record Image : Type := mkImage {
  Rect : Rectangle;
  Pix : gmap (Z * Z) Color
}.

(** [Point{x, y}.In(r)]. *)
Definition inRect (r : Rectangle) (x y : Z) : bool :=
  (MinX r <=? x) && (x <? MaxX r) && (MinY r <=? y) && (y <? MaxY r).

(** One call [img.Set(x, y, c)]. *)
Record SetCall : Type := mkSetCall { sx : Z; sy : Z; sc : Color }.

(** The method [Set] of [image.RGBA]: a point outside the rectangle is
    left alone. *)
Definition img_Set (img : Image) (call : SetCall) : Image :=
  if inRect (Rect img) (sx call) (sy call)
  then mkImage (Rect img) (<[(sx call, sy call) := sc call]> (Pix img))
  else img.

(** The drawing functions read the rectangle of the image and write
    pixels; each is given by the calls of [Set] it makes, in order. *)
Definition draw (img : Image) (calls : list SetCall) : Image :=
  foldl img_Set img calls.

(** [for i := start; cond(i); i++ { body(i) }] and its counterpart with
    [i--], run for at most [fuel] iterations. *)
Fixpoint forUp {A : Type} (fuel : nat) (cond : Z -> bool) (i : Z)
    (body : Z -> list A) : list A :=
  match fuel with
  | O => []
  | S fuel' => if cond i then body i ++ forUp fuel' cond (i + 1) body else []
  end.

Fixpoint forDown {A : Type} (fuel : nat) (cond : Z -> bool) (i : Z)
    (body : Z -> list A) : list A :=
  match fuel with
  | O => []
  | S fuel' => if cond i then body i ++ forDown fuel' cond (i - 1) body else []
  end.

Definition clamp (val min max : Z) : Z :=
  if val <? min then min
  else if max <? val then max
  else val.

Definition getElementColorFromInfo (el : ElementInfo) (cfg : AnnotationConfig) : Color :=
  let tag := GetTagName el in
  if String.eqb tag "a" then LinkColor cfg
  else if String.eqb tag "button" then ButtonColor cfg
  else if String.eqb tag "input" || String.eqb tag "textarea" || String.eqb tag "select"
  then InputColor cfg
  else
    let role := GetRole el in
    if String.eqb role "button" || String.eqb role "menuitem" || String.eqb role "tab"
    then ButtonColor cfg
    else if String.eqb role "link" then LinkColor cfg
    else if String.eqb role "textbox" || String.eqb role "combobox"
            || String.eqb role "searchbox"
    then InputColor cfg
    else DefaultColor cfg.

(** The corners of the border after clamping. *)
Definition boxCorners (bounds : Rectangle) (bbox : BoundingBoxInfo) : Z * Z * Z * Z :=
  let x0 := Float64.to_int (GetX bbox) in
  let y0 := Float64.to_int (GetY bbox) in
  let x1 := Float64.to_int (PrimFloat.add (GetX bbox) (GetWidth bbox)) in
  let y1 := Float64.to_int (PrimFloat.add (GetY bbox) (GetHeight bbox)) in
  (clamp x0 (MinX bounds) (Int.sub (MaxX bounds) 1),
   clamp y0 (MinY bounds) (Int.sub (MaxY bounds) 1),
   clamp x1 (MinX bounds) (Int.sub (MaxX bounds) 1),
   clamp y1 (MinY bounds) (Int.sub (MaxY bounds) 1)).

(** The loops over a row [x0..x1] and over a column [y0..y1]. *)
Definition rowCalls (x0 x1 y : Z) (c : Color) : list SetCall :=
  forUp (Z.to_nat (x1 - x0 + 1)) (fun x => x <=? x1) x0 (fun x => [mkSetCall x y c]).

Definition columnCalls (y0 y1 x : Z) (c : Color) : list SetCall :=
  forUp (Z.to_nat (y1 - y0 + 1)) (fun y => y <=? y1) y0 (fun y => [mkSetCall x y c]).

Definition drawBoundingBoxFromInfo (bounds : Rectangle) (bbox : BoundingBoxInfo)
    (c : Color) (borderWidth : Z) : list SetCall :=
  let '(x0, y0, x1, y1) := boxCorners bounds bbox in
  let rows := Z.to_nat (y1 - y0 + 1) in
  let cols := Z.to_nat (x1 - x0 + 1) in
  (* top border *)
  forUp rows (fun y => (y <? Int.add y0 borderWidth) && (y <=? y1)) y0
    (fun y => rowCalls x0 x1 y c)
  (* bottom border *)
  ++ forDown rows (fun y => (Int.sub y1 borderWidth <? y) && (y0 <=? y)) y1
    (fun y => rowCalls x0 x1 y c)
  (* left border *)
  ++ forUp cols (fun x => (x <? Int.add x0 borderWidth) && (x <=? x1)) x0
    (fun x => columnCalls y0 y1 x c)
  (* right border *)
  ++ forDown cols (fun x => (Int.sub x1 borderWidth <? x) && (x0 <=? x)) x1
    (fun x => columnCalls y0 y1 x c).

(** The 5x7 bitmaps of the digits 0 to 9. *)
Definition patterns : list (list string) :=
  [ ["01110"; "10001"; "10001"; "10001"; "10001"; "10001"; "01110"];
    ["00100"; "01100"; "00100"; "00100"; "00100"; "00100"; "01110"];
    ["01110"; "10001"; "00001"; "00110"; "01000"; "10000"; "11111"];
    ["01110"; "10001"; "00001"; "00110"; "00001"; "10001"; "01110"];
    ["00010"; "00110"; "01010"; "10010"; "11111"; "00010"; "00010"];
    ["11111"; "10000"; "11110"; "00001"; "00001"; "10001"; "01110"];
    ["01110"; "10000"; "10000"; "11110"; "10001"; "10001"; "01110"];
    ["11111"; "00001"; "00010"; "00100"; "01000"; "01000"; "01000"];
    ["01110"; "10001"; "10001"; "01110"; "10001"; "10001"; "01110"];
    ["01110"; "10001"; "10001"; "01111"; "00001"; "00001"; "01110"] ]%string.

(** [for i, v := range l], the bodies' calls in order. *)
Fixpoint rangeCalls {A B : Type} (l : list A) (i : Z) (body : Z -> A -> list B)
    : list B :=
  match l with
  | [] => []
  | v :: rest => body i v ++ rangeCalls rest (i + 1) body
  end.

(** The block painted for one lit cell of a bitmap. *)
Definition cellCalls (bounds : Rectangle) (px py : Z) (scaleX scaleY : float)
    (c : Color) : list SetCall :=
  let h := Float64.to_int (Float64.ceil scaleY) in
  let w := Float64.to_int (Float64.ceil scaleX) in
  forUp (Z.to_nat h) (fun dy => dy <? h) 0 (fun dy =>
    forUp (Z.to_nat w) (fun dx => dx <? w) 0 (fun dx =>
      let drawX := Int.add px dx in
      let drawY := Int.add py dy in
      if (MinX bounds <=? drawX) && (drawX <? MaxX bounds)
         && (MinY bounds <=? drawY) && (drawY <? MaxY bounds)
      then [mkSetCall drawX drawY c]
      else [])).

Definition drawDigit (bounds : Rectangle) (digit x y width height : Z) (c : Color)
    : list SetCall :=
  if (digit <? 0) || (9 <? digit) then []
  else
    let pattern := default [] (patterns !! Z.to_nat digit) in
    let scaleX := PrimFloat.div (Float64.of_int width) 5%float in
    let scaleY := PrimFloat.div (Float64.of_int height) 7%float in
    rangeCalls pattern 0 (fun row line =>
      rangeCalls (String.list_ascii_of_string line) 0 (fun col ch =>
        if Ascii.eqb ch "1"%char then
          let px := Int.add x (Float64.to_int (PrimFloat.mul (Float64.of_int col) scaleX)) in
          let py := Int.add y (Float64.to_int (PrimFloat.mul (Float64.of_int row) scaleY)) in
          cellCalls bounds px py scaleX scaleY c
        else [])).

(** The position and size of the label box. *)
Definition labelBox (bounds : Rectangle) (index : Z) (bbox : BoundingBoxInfo)
    (cfg : AnnotationConfig) : Z * Z * Z * Z :=
  let label := Int.itoa index in
  let charWidth := Int.div (Int.mul (FontSize cfg) 7) 12 in
  let charHeight := FontSize cfg in
  let padding := 2 in
  let labelWidth :=
    Int.add (Int.mul (Z.of_nat (String.length label)) charWidth) (padding * 2) in
  let labelHeight := Int.add charHeight (padding * 2) in
  let labelX :=
    Int.sub (Float64.to_int (PrimFloat.add (GetX bbox) (PrimFloat.div (GetWidth bbox) 2%float)))
            (Int.div labelWidth 2) in
  let labelY := Int.sub (Int.sub (Float64.to_int (GetY bbox)) labelHeight) 2 in
  let labelY :=
    if labelY <? MinY bounds then Int.add (Float64.to_int (GetY bbox)) 2 else labelY in
  let labelX := if labelX <? MinX bounds then MinX bounds else labelX in
  let labelX :=
    if MaxX bounds <? Int.add labelX labelWidth then Int.sub (MaxX bounds) labelWidth
    else labelX in
  (labelX, labelY, labelWidth, labelHeight).

(** The loop that paints the label background. *)
Definition labelBackground (bounds : Rectangle) (labelX labelY labelWidth labelHeight : Z)
    (c : Color) : list SetCall :=
  forUp (Z.to_nat (MaxY bounds - labelY))
    (fun y => (y <? Int.add labelY labelHeight) && (y <? MaxY bounds)) labelY
    (fun y =>
       forUp (Z.to_nat (MaxX bounds - labelX))
         (fun x => (x <? Int.add labelX labelWidth) && (x <? MaxX bounds)) labelX
         (fun x =>
            if (MinX bounds <=? x) && (MinY bounds <=? y) then [mkSetCall x y c]
            else [])).

(** The loop over the characters of the label; [textX] advances by one
    character width per character. *)
Fixpoint labelChars (bounds : Rectangle) (chars : list Ascii.ascii)
    (textX textY charWidth charHeight : Z) (c : Color) : list SetCall :=
  match chars with
  | [] => []
  | char :: rest =>
      let code := Z.of_nat (Ascii.nat_of_ascii char) in
      (if (48 <=? code) && (code <=? 57)
       then drawDigit bounds (code - 48) textX textY charWidth charHeight c
       else [])
      ++ labelChars bounds rest (Int.add textX charWidth) textY charWidth charHeight c
  end.

Definition drawIndexLabelFromInfo (bounds : Rectangle) (index : Z)
    (bbox : BoundingBoxInfo) (cfg : AnnotationConfig) : list SetCall :=
  let label := Int.itoa index in
  let charWidth := Int.div (Int.mul (FontSize cfg) 7) 12 in
  let charHeight := FontSize cfg in
  let padding := 2 in
  let '(labelX, labelY, labelWidth, labelHeight) := labelBox bounds index bbox cfg in
  labelBackground bounds labelX labelY labelWidth labelHeight (LabelBgColor cfg)
  ++ labelChars bounds (String.list_ascii_of_string label)
       (Int.add labelX padding) (Int.add labelY padding) charWidth charHeight
       (LabelTextColor cfg).

(** The calls of [Set] made for one element of the map. *)
Definition annotateElement (bounds : Rectangle) (cfg : AnnotationConfig)
    (el : ElementInfo) : list SetCall :=
  let bbox := GetBoundingBox el in
  if negb (GetIsVisible el) || GetIsEmpty bbox then []
  else
    let boxColor := getElementColorFromInfo el cfg in
    drawBoundingBoxFromInfo bounds bbox boxColor (BorderWidth cfg)
    ++ (if ShowLabels cfg then
          if ShowLabelsOnlyForUnlabeled cfg && negb (String.eqb (GetText el) "")
          then []
          else drawIndexLabelFromInfo bounds (GetIndex el) bbox cfg
        else []).

(** All calls of [Set] of one annotation. *)
Definition annotationCalls (bounds : Rectangle) (cfg : AnnotationConfig)
    (els : list ElementInfo) : list SetCall :=
  flat_map (annotateElement bounds cfg) els.

(** The image codecs of the standard library. *)
Class ImageCodec : Type := mkImageCodec {
  (** [image.Decode]: the image and the name of its format. *)
  image_Decode : list Byte.byte -> option (Image * string);
  png_Encode : Image -> option (list Byte.byte);
  (** [jpeg.Encode] with the given quality. *)
  jpeg_Encode : Image -> Z -> option (list Byte.byte)
}.

(** The two results of [Annotate]: the bytes, or an error. *)
Inductive AnnotateResult : Type :=
| Ok (data : list Byte.byte)
| DecodeError
| EncodeError.

Section Annotate.
Context `{ImageCodec}.

(** [Annotate]; a nil interface value is [None]. *)
Definition Annotate (imgData : list Byte.byte) (elementMap : option ElementMapInterface)
    (cfg : AnnotationConfig) : AnnotateResult :=
  match elementMap with
  | None => Ok imgData
  | Some elementMap =>
      if Len elementMap =? 0 then Ok imgData
      else
        match image_Decode imgData with
        | None => DecodeError
        | Some (img, format) =>
            let bounds := Rect img in
            let rgba := draw img (annotationCalls bounds cfg (GetElements elementMap)) in
            let encoded :=
              if String.eqb format "png" then png_Encode rgba
              else jpeg_Encode rgba 85 in
            match encoded with
            | Some buf => Ok buf
            | None => EncodeError
            end
        end
  end.

Definition AnnotateForLLM (imgData : list Byte.byte)
    (elementMap : option ElementMapInterface) : AnnotateResult :=
  let cfg := DefaultAnnotationConfig in
  let cfg := set_ShowLabelsOnlyForUnlabeled false cfg in
  Annotate imgData elementMap cfg.

Definition AnnotateBrowserUseStyle (imgData : list Byte.byte)
    (elementMap : option ElementMapInterface) : AnnotateResult :=
  let cfg := DefaultAnnotationConfig in
  let cfg := set_ShowLabelsOnlyForUnlabeled true cfg in
  Annotate imgData elementMap cfg.

End Annotate.

End Screenshot.

(** * Notions used in the statements, a reference environment, sample data *)

Module DomSpec.
Import Dom.

(** [h] has bounds and covers [e] to nine tenths: the test the occlusion
    pass applies to a pair. *)
Definition covers (e h : EnhancedElement) : bool :=
  negb (emptyBounds (bbox h)) && isSignificantlyOccluded (bbox e) (bbox h).

(** The list is in descending paint order, ties allowed. *)
Definition sortedDesc (l : list EnhancedElement) : Prop :=
  forall (j i : nat) (a b : EnhancedElement),
    (j < i)%nat -> l !! j = Some a -> l !! i = Some b -> PaintOrder b <= PaintOrder a.

(** What the containment pass has made of position [i] after its first
    [k] iterations. *)
Definition containedAfter (l : list EnhancedElement) (k i : nat) (e : EnhancedElement)
    : EnhancedElement :=
  if bool_decide (i < k)%nat && negb (emptyBounds (bbox e)) && parentScan i e l 0
  then set_IsContained true e else e.

(** The elements the filter loop lets through. *)
Definition keeps (el : EnhancedElement) : bool :=
  IsInteractive (base el) && IsVisible (base el)
  && negb (IsOccluded el) && negb (IsContained el).

(** The element as the filter loop adds it: indexed, and marked new when a
    previous map was given and does not know its backend id. *)
Definition finalize (previousIDs : gmap Z bool) (hasPrevious : bool) (index : Z)
    (el : EnhancedElement) : EnhancedElement :=
  let el := with_base (set_Index index) el in
  let wasPrevious :=
    match previousIDs !! BackendNodeID el with
    | Some _ => true
    | None => false
    end in
  if negb wasPrevious && hasPrevious then set_IsNew true el else el.

(** The last element of a list that carries the backend id [id]. *)
Definition lastWithID (id : Z) (l : list EnhancedElement) : option EnhancedElement :=
  last (filter (fun e => BackendNodeID e = id) l).

(** The lookup table by backend id follows the list of elements: an id
    is mapped to the last element that carries it. *)
Definition tracks (m : EnhancedElementMap) : Prop :=
  forall id : Z,
    BackendNodeMap m !! id = if 0 <? id then lastWithID id (Elements m) else None.

(** The sum that the statistics are to match. *)
Definition accounted (m : EnhancedElementMap) : Z :=
  Z.of_nat (length (Elements m)) + FilteredByHidden m + FilteredByPaint m
  + FilteredByContain m.

(** The snapshot path: the snapshot call answered, the payload decoded and
    has a document. *)
Definition snapshotParsed (page : Page) (doc : SnapshotDocument) : Prop :=
  exists response rest,
    page_Snapshot page = CallData (Some response) /\ Documents response = doc :: rest.

(** The accessibility lookup an extraction builds for a page. *)
Definition axLookupOf (page : Page) : gmap Z CDPAXNode :=
  match page_AXTree page with
  | CallData (Some nodes) => buildAXLookup nodes
  | _ => ∅
  end.

(** The map an extraction starts from: the page information and the
    backend ids of the previous map. *)
Definition startMap (page : Page) (previousMap : option EnhancedElementMap)
    : EnhancedElementMap :=
  let elementMap := NewEnhancedElementMap in
  let elementMap :=
    match page_Info page with
    | Some (url, title) => set_Page url title elementMap
    | None => elementMap
    end in
  match previousMap with
  | Some prev => set_PreviousNodeIDs ((fun _ => true) <$> BackendNodeMap prev) elementMap
  | None => elementMap
  end.

(** The candidates the parser produces for a document. *)
Definition parsedElements `{GoEnv} (doc : SnapshotDocument) (axLookup : gmap Z CDPAXNode)
    : list EnhancedElement :=
  markContainedElements
    (markOccludedElements (sort_Slice paintOrderLess (parseNodes doc axLookup))).

(** The visible elements of a map, in order. *)
Definition visibleElements (m : EnhancedElementMap) : list EnhancedElement :=
  filter (fun e => IsVisible (base e) = true) (Elements m).

(** The strings of a list one after the other. *)
Definition concatLines (lines : list string) : string :=
  foldr String.append EmptyString lines.

(** The header that counts the lines shown against the visible elements,
    and the header that gives the visible elements only. *)
Definition shownHeader (shown visible : Z) : string :=
  "Elements (" +:+ Int.itoa shown +:+ " of " +:+ Int.itoa visible +:+ " shown):" +:+ nl.

Definition plainHeader (visible : Z) : string :=
  "Elements (" +:+ Int.itoa visible +:+ "):" +:+ nl.

(** The attribute list of a node names [attrName]. *)
Definition carriesAttr (doc : SnapshotDocument) (nodeIdx : nat) (attrName : string) : Prop :=
  exists attrs (k : nat) nameIdx,
    n_Attributes (Nodes doc) !! nodeIdx = Some attrs
    /\ attrs !! (2 * k)%nat = Some nameIdx
    /\ (S (2 * k) < length attrs)%nat
    /\ 0 <= nameIdx
    /\ Strings doc !! Z.to_nat nameIdx = Some attrName.

(** ** A reference environment *)

(** Lower case for the letters A to Z. *)
Definition lowerAscii (c : ascii) : ascii :=
  let n := nat_of_ascii c in
  if (65 <=? n)%nat && (n <=? 90)%nat then ascii_of_nat (n + 32) else c.

Fixpoint toLower (s : string) : string :=
  match s with
  | EmptyString => EmptyString
  | String c rest => String (lowerAscii c) (toLower rest)
  end.

(** Insertion sort, which is what [sort.Slice] runs on a short slice. *)
Fixpoint insertSorted (less : EnhancedElement -> EnhancedElement -> bool)
    (x : EnhancedElement) (l : list EnhancedElement) : list EnhancedElement :=
  match l with
  | [] => [x]
  | y :: rest => if less x y then x :: y :: rest else y :: insertSorted less x rest
  end.

Definition insertionSort (less : EnhancedElement -> EnhancedElement -> bool)
    (l : list EnhancedElement) : list EnhancedElement :=
  foldl (fun acc x => insertSorted less x acc) [] l.

(** Shortening to [n] bytes, the last three of them dots. *)
Definition shorten (s : string) (n : Z) : string :=
  if Z.of_nat (String.length s) <=? n then s
  else String.substring 0 (Z.to_nat (n - 3)) s +:+ "...".

(** A string between double quotes. *)
Definition doubleQuote : string := String (ascii_of_nat 34) EmptyString.
Definition quoted (s : string) : string := doubleQuote +:+ s +:+ doubleQuote.

#[export] Instance refEnv : GoEnv := mkGoEnv toLower insertionSort shorten quoted.

(** ** Sample data *)

(** An element with the given tag, flags, box, backend id and paint
    order, everything else at its zero value. *)
Definition plainElement (tag : string) (visible interactive : bool) (b : BoundingBox)
    (backendNodeID paintOrder : Z) : EnhancedElement :=
  mkEnhancedElement
    (mkElement tag "" "" "" "" "" "" "" visible true interactive false b "" 0 0)
    backendNodeID 0 0 paintOrder false false 0 0 0 false
    false false None None None false false "" "" 0 false false.

(** A button with an icon inside. *)
Definition exButton : EnhancedElement :=
  plainElement "button" true true (mkBoundingBox 0 0 100 40) 1 2.
Definition exSvg : EnhancedElement :=
  plainElement "svg" true false (mkBoundingBox 8 8 24 24) 2 1.

(** A large button, and a link inside it whose width and height are
    positive but so small that their product is zero in [float64], while
    the sums [X + Width] and [Y + Height] round up and leave an
    intersection that is not zero. *)
Definition exBig : EnhancedElement :=
  plainElement "button" true true (mkBoundingBox 0 0 100 100) 3 2.
Definition exTiny : EnhancedElement :=
  plainElement "a" true true
    (mkBoundingBox 0x1p-485 0x1p-485 0x1.4p-538 0x1.4p-538) 4 1.

(** Two links on the same box with the same paint order. *)
Definition exTieFirst : EnhancedElement :=
  plainElement "a" true true (mkBoundingBox 10 20 80 24) 7 5.
Definition exTieSecond : EnhancedElement :=
  plainElement "a" true true (mkBoundingBox 10 20 80 24) 8 5.

(** A document whose two links share box and paint order; the parser
    turns its nodes into the two elements above. *)
Definition exTieDoc : SnapshotDocument :=
  mkSnapshotDocument "" ""
    (mkSnapshotNodes [-1; -1] [1; 1] [0; 0] [] [7; 8] [[]; []] [] [] [] [] [] [])
    (mkSnapshotLayout [0; 1] [[10; 20; 80; 24]%float; [10; 20; 80; 24]%float] [5; 5]
       [] [] [] [])
    ["A"]%string.

(** A document with the single node [<button disabled>]: the attribute is
    there and its value is the empty string. *)
Definition exDisabledDoc : SnapshotDocument :=
  mkSnapshotDocument "" ""
    (mkSnapshotNodes [-1] [1] [0] [] [11] [[1; 2]] [] [] [] [] [] [])
    (mkSnapshotLayout [0] [[0; 0; 60; 20]%float] [1] [] [] [] [])
    ["BUTTON"; "disabled"; ""]%string.

(** A document with two links, apart from each other, that carry the same
    backend id. *)
Definition exTwinDoc : SnapshotDocument :=
  mkSnapshotDocument "" ""
    (mkSnapshotNodes [-1; -1] [1; 1] [0; 0] [] [5; 5] [[]; []] [] [] [] [] [] [])
    (mkSnapshotLayout [0; 1] [[0; 0; 10; 10]%float; [100; 100; 10; 10]%float] [2; 1]
       [] [] [] [])
    ["A"]%string.

Definition exTwinPage : Page :=
  mkPage None (CallData (Some (mkSnapshotResponse [exTwinDoc]))) CallError None.

(** A page whose snapshot call fails and whose script-based extraction
    finds one link. *)
Definition exLink : Element :=
  mkElement "a" "" "" "Next" "" "/x" "" "" true true true false
    (mkBoundingBox 10 20 80 24) "" 0 103.

Definition exFallbackPage : Page :=
  mkPage None CallError CallError (Some (mkElementMap "" "" [exLink])).

(** The map extracted from the page with the two links when an empty
    previous map is given, and its two elements. *)
Definition exTwinMap : EnhancedElementMap :=
  default NewEnhancedElementMap
    (ExtractEnhancedElementMap exTwinPage (Some NewEnhancedElementMap)).
Definition exTwinFirst : EnhancedElement :=
  default exButton (Elements exTwinMap !! 0%nat).
Definition exTwinSecond : EnhancedElement :=
  default exButton (Elements exTwinMap !! 1%nat).

(** A page whose snapshot holds the one-button document. *)
Definition exDisabledPage : Page :=
  mkPage None (CallData (Some (mkSnapshotResponse [exDisabledDoc]))) CallError None.

End DomSpec.

Module ScreenshotSpec.
Import Screenshot.

(** The rectangle has a pixel and its corners are [int] values, the
    smallest [int] left out so that a counter can step below a corner. *)
Definition properRect (r : Rectangle) : Prop :=
  Float64.minInt < MinX r /\ MinX r < MaxX r /\ MaxX r < 2 ^ 63
  /\ Float64.minInt < MinY r /\ MinY r < MaxY r /\ MaxY r < 2 ^ 63.

(** The call addresses a pixel of the rectangle. *)
Definition inside (r : Rectangle) (call : SetCall) : Prop :=
  MinX r <= sx call < MaxX r /\ MinY r <= sy call < MaxY r.

(** A codec that knows no format. *)
#[export] Instance nullCodec : ImageCodec :=
  mkImageCodec (fun _ => None) (fun _ => None) (fun _ _ => None).

(** A 200 by 200 image and an element whose box reaches beyond it. *)
Definition exRect : Rectangle := mkRectangle 0 0 200 200.

Definition exWide : ElementInfo :=
  mkElementInfo "a" "" "" 7 true (mkBoundingBoxInfo 150 (-5) 80 40 false).

Definition exEmptyMap : ElementMapInterface := mkElementMapInterface 0 [].

End ScreenshotSpec.

(** * Further notions and sample data *)

Module MoreSpec.
Import Dom DomSpec.

(** The accessibility node holds a property of the given name whose value
    is the boolean [true]. *)
Definition axHoldsTrue (axNode : CDPAXNode) (name : string) : Prop :=
  exists prop v,
    prop ∈ Properties axNode /\ prop_Name prop = name
    /\ prop_Value prop = Some v /\ Value v = AnyBool true.

(** The property is named [disabled] and holds the boolean [true]. *)
Definition disablesBy (prop : AXProperty) : bool :=
  match prop_Value prop with
  | Some v =>
      String.eqb (prop_Name prop) "disabled"
      && match asBool (Value v) with Some true => true | _ => false end
  | None => false
  end.

(** The fields of an element that merging accessibility data leaves
    alone. *)
Definition sameOutsideAX (a b : EnhancedElement) : Prop :=
  TagName (base a) = TagName (base b) /\ Text (base a) = Text (base b)
  /\ Type_ (base a) = Type_ (base b) /\ Href (base a) = Href (base b)
  /\ Placeholder (base a) = Placeholder (base b)
  /\ AriaLabel (base a) = AriaLabel (base b)
  /\ IsVisible (base a) = IsVisible (base b)
  /\ IsInteractive (base a) = IsInteractive (base b)
  /\ Bounds (base a) = Bounds (base b) /\ Selector (base a) = Selector (base b)
  /\ Index (base a) = Index (base b)
  /\ Elem_BackendNodeID (base a) = Elem_BackendNodeID (base b)
  /\ BackendNodeID a = BackendNodeID b /\ PaintOrder a = PaintOrder b
  /\ IsNew a = IsNew b /\ IsScrollable a = IsScrollable b
  /\ ScrollWidth a = ScrollWidth b /\ ScrollHeight a = ScrollHeight b
  /\ ComputedCursor a = ComputedCursor b
  /\ IsOccluded a = IsOccluded b /\ IsContained a = IsContained b.

(** What holds of every candidate the parser builds: its tag is one the
    parser processes, the backend id of the embedded [Element] is unset,
    and a visible candidate has a box of positive width and height. *)
Definition candidateFacts (e : EnhancedElement) : Prop :=
  shouldProcessTag (TagName (base e)) = true
  /\ Elem_BackendNodeID (base e) = 0
  /\ (IsVisible (base e) = true ->
      Float64.gt (Width (bbox e)) PrimFloat.zero = true
      /\ Float64.gt (Height (bbox e)) PrimFloat.zero = true).

(** The lookup table by index follows the list of elements: the indices
    0 to [idx - 1] are mapped to the elements at these positions, and no
    other index is mapped. *)
Definition indexed (m : EnhancedElementMap) (idx : Z) : Prop :=
  idx = Z.of_nat (length (Elements m))
  /\ forall z : Z,
       indexMap m !! z
       = if (0 <=? z) && (z <? idx) then Elements m !! Z.to_nat z else None.

(** The attribute list read as pairs of a name and a value. *)
Fixpoint decodePairs (stringsArr : list string) (attrs : list Z)
    : list (string * string) :=
  match attrs with
  | nameIdx :: valueIdx :: rest =>
      (getString stringsArr nameIdx, getString stringsArr valueIdx)
      :: decodePairs stringsArr rest
  | _ => []
  end.

(** The value of the first pair with the given name; the empty string when
    there is none. *)
Fixpoint firstValue (pairs : list (string * string)) (name : string) : string :=
  match pairs with
  | [] => ""%string
  | (n, v) :: rest => if String.eqb n name then v else firstValue rest name
  end.

(** Every index of the attribute list points into the string table. *)
Definition validIndices (stringsArr : list string) (attrs : list Z) : Prop :=
  Forall (fun idx => 0 <= idx < Z.of_nat (length stringsArr)) attrs.

(** The list is in descending paint order (as [sortedDesc], by
    structure). *)
Definition descending (l : list EnhancedElement) : Prop :=
  StronglySorted (fun a b => PaintOrder b <= PaintOrder a) l.

(** An accessibility node that reports the element as disabled and
    focusable. *)
Definition exAXDisabled : CDPAXNode :=
  mkCDPAXNode 11 None (Some (mkAXValue (AnyString "Send"))) None
    [mkAXProperty "focusable" (Some (mkAXValue (AnyBool true)));
     mkAXProperty "disabled" (Some (mkAXValue (AnyBool true)))].

(** A page that shows the button and whose script-based extraction is not
    needed, and a page on which both ways of extracting fail. *)
Definition exButtonPage : Page :=
  mkPage (Some ("https://example.test/"%string, "Example"%string))
    (CallData (Some (mkSnapshotResponse [exDisabledDoc])))
    (CallData (Some [exAXDisabled])) None.

Definition exDeadPage : Page := mkPage None CallError CallError None.

(** The page with the two links extracted a second time, the first
    result given as the previous map. *)
Definition exTwinAgain : EnhancedElementMap :=
  default NewEnhancedElementMap (ExtractEnhancedElementMap exTwinPage (Some exTwinMap)).
Definition exTwinAgainFirst : EnhancedElement :=
  default exButton (Elements exTwinAgain !! 0%nat).

(** The element wraps a plain element and carries nothing of its own
    but the backend id. *)
Definition bareWrapper (e : EnhancedElement) : Prop :=
  BackendNodeID e = Elem_BackendNodeID (base e)
  /\ IsNew e = false /\ IsScrollable e = false
  /\ IsOccluded e = false /\ IsContained e = false
  /\ PaintOrder e = 0 /\ ComputedCursor e = ""%string.

End MoreSpec.

Module MoreScreenshotSpec.
Import Screenshot ScreenshotSpec.

(** The call lies in the box with the given corners, less than
    [borderWidth] away from one of its four edges. *)
Definition onFrame (x0 y0 x1 y1 borderWidth : Z) (call : SetCall) : Prop :=
  x0 <= sx call <= x1 /\ y0 <= sy call <= y1
  /\ (sy call < y0 + borderWidth \/ y1 - borderWidth < sy call
      \/ sx call < x0 + borderWidth \/ x1 - borderWidth < sx call).

(** The rectangle is proper and a border of the given width can be
    counted off from each of its edges within the range of [int]. *)
Definition roomFor (r : Rectangle) (borderWidth : Z) : Prop :=
  properRect r /\ 0 <= borderWidth
  /\ MaxX r + borderWidth < 2 ^ 63 /\ MaxY r + borderWidth < 2 ^ 63
  /\ Float64.minInt <= MinX r - borderWidth
  /\ Float64.minInt <= MinY r - borderWidth.

(** The element is skipped by the annotation loop. *)
Definition hidden (el : ElementInfo) : Prop :=
  GetIsVisible el = false \/ GetIsEmpty (GetBoundingBox el) = true.

(** The encoding the annotation chooses for a decoded format. *)
Definition encodeAs `{ImageCodec} (format : string) (img : Image) : AnnotateResult :=
  match (if String.eqb format "png" then png_Encode img else jpeg_Encode img 85) with
  | Some buf => Ok buf
  | None => EncodeError
  end.

(** A codec for images of one white or one black pixel, written as a
    single byte; it calls its format png. *)
Definition exWhite : Color := mkColor 255 255 255 255.

Definition exPixel (c : Color) : Image :=
  mkImage (mkRectangle 0 0 1 1) {[ (0, 0) := c ]}.

Definition pixelCodec : ImageCodec :=
  mkImageCodec
    (fun data => match data with
                 | [b] => Some (exPixel (if Byte.eqb b Byte.x00 then mkColor 0 0 0 255
                                         else exWhite), "png"%string)
                 | _ => None
                 end)
    (fun img => match Pix img !! (0, 0) with
                | Some c => Some [if cR c =? 0 then Byte.x00 else Byte.xff]
                | None => None
                end)
    (fun _ _ => None).

(** A map of one element that is not visible, and a map of one visible
    link without text. *)
Definition exHiddenMap : ElementMapInterface :=
  mkElementMapInterface 1
    [mkElementInfo "a" "" "" 0 false (mkBoundingBoxInfo 0 0 1 1 false)].

Definition exBareLink : ElementInfo :=
  mkElementInfo "a" "" "" 0 true (mkBoundingBoxInfo 0 0 1 1 false).

Definition exBareMap : ElementMapInterface := mkElementMapInterface 1 [exBareLink].

End MoreScreenshotSpec.

(** * The geometric passes *)

Module Geometry.
Import Dom DomSpec.

(** ** Facts about binary64 comparisons and division *)

Lemma float_lt_not_eq (a b : float) :
  Float64.lt a b = true -> PrimFloat.eqb a b = false.
Proof.
  unfold Float64.lt. rewrite FloatAxioms.ltb_spec, FloatAxioms.eqb_spec. unfold SFltb, SFeqb.
  destruct (SFcompare (Prim2SF a) (Prim2SF b)) as [[]|]; congruence.
Qed.

Lemma float_gt_not_le (a : float) :
  Float64.gt a PrimFloat.zero = true -> Float64.le a PrimFloat.zero = false.
Proof.
  unfold Float64.gt, Float64.le. rewrite FloatAxioms.ltb_spec, FloatAxioms.leb_spec.
  change (Prim2SF PrimFloat.zero) with (S754_zero false).
  unfold SFltb, SFleb.
  destruct (Prim2SF a) as [s|s| |s m e]; simpl; try congruence; destruct s; simpl; congruence.
Qed.

Lemma zero_div_below (a : float) :
  Float64.ge (PrimFloat.div PrimFloat.zero a) Float64.c0_99 = false.
Proof.
  unfold Float64.ge. rewrite FloatAxioms.leb_spec, FloatAxioms.div_spec.
  change (Prim2SF PrimFloat.zero) with (S754_zero false).
  assert (Hc : exists m e, Prim2SF Float64.c0_99 = S754_finite false m e)
    by (vm_compute; eauto).
  destruct Hc as (mc & ec & ->).
  unfold SF64div, SFleb.
  destruct (Prim2SF a) as [s|s| |s m e]; simpl; reflexivity.
Qed.

(** The containment test agrees with the coverage ratio. *)
Lemma isContainedWithin_coverage (inner outer : BoundingBox) :
  Float64.gt (area inner) PrimFloat.zero = true ->
  isContainedWithin inner outer Float64.c0_99
  = Float64.ge (coverage inner outer) Float64.c0_99.
Proof.
  intros Hpos. unfold isContainedWithin, coverage, intersectionArea.
  destruct (noOverlap inner outer).
  - symmetry. apply zero_div_below.
  - rewrite (float_gt_not_le _ Hpos). reflexivity.
Qed.

Lemma containedBy_base (i j : nat) (el el' p p' : EnhancedElement) :
  base el = base el' -> base p = base p' ->
  containedBy i el j p = containedBy i el' j p'.
Proof. intros He Hp. unfold containedBy, bbox. rewrite He, Hp. reflexivity. Qed.

Lemma parentScan_base (i : nat) (el el' : EnhancedElement) (l l' : list EnhancedElement) (j : nat) :
  base el = base el' -> base <$> l = base <$> l' ->
  parentScan i el l j = parentScan i el' l' j.
Proof.
  intros He. revert l' j. induction l as [|p l IH]; intros [|p' l'] j Hl; simplify_eq/=; auto.
  rewrite (containedBy_base i j el el' p p') by assumption.
  destruct (containedBy i el' j p'); auto.
Qed.

Lemma parentScan_true (i : nat) (el : EnhancedElement) (l : list EnhancedElement) (j0 : nat) :
  parentScan i el l j0 = true <->
  exists j p, l !! j = Some p /\ containedBy i el (j0 + j) p = true.
Proof.
  revert j0. induction l as [|p l IH]; intros j0; simpl.
  - split; [discriminate | intros (j & q & Hq & _); discriminate].
  - destruct (containedBy i el j0 p) eqn:Hc.
    + split; [intros _ | reflexivity]. exists 0%nat, p. rewrite Nat.add_0_r. auto.
    + rewrite IH. split.
      * intros (j & q & Hq & Hcq). exists (S j), q. split; [exact Hq |].
        rewrite <- Nat.add_succ_comm. exact Hcq.
      * intros ([|j] & q & Hq & Hcq); simpl in Hq.
        -- simplify_eq. rewrite Nat.add_0_r in Hcq. congruence.
        -- exists j, q. split; [exact Hq |]. rewrite Nat.add_succ_comm. exact Hcq.
Qed.

Lemma containedAfter_base l k i e : base (containedAfter l k i e) = base e.
Proof. unfold containedAfter. destruct (_ && _); reflexivity. Qed.

Lemma markContained_steps (l : list EnhancedElement) (k : nat) :
  foldl containStep l (seq 0 k) = imap (containedAfter l k) l.
Proof.
  induction k as [|k IH].
  - simpl. apply list_eq. intros i. rewrite list_lookup_imap.
    destruct (l !! i); simpl; [| reflexivity].
    unfold containedAfter. rewrite bool_decide_eq_false_2 by lia. reflexivity.
  - rewrite seq_S, foldl_app, IH. simpl. unfold containStep.
    rewrite list_lookup_imap.
    destruct (l !! k) as [e|] eqn:Hk; simpl.
    + assert (Hself : containedAfter l k k e = e).
      { unfold containedAfter. rewrite bool_decide_eq_false_2 by lia. reflexivity. }
      rewrite Hself.
      assert (Hscan : parentScan k e (imap (containedAfter l k) l) 0 = parentScan k e l 0).
      { apply parentScan_base; [reflexivity |].
        apply list_eq. intros i. rewrite !list_lookup_fmap, list_lookup_imap.
        destruct (l !! i); simpl; [| reflexivity]. f_equal. apply containedAfter_base. }
      rewrite Hscan.
      apply list_eq. intros i.
      destruct (emptyBounds (bbox e)) eqn:Hempty;
        [| destruct (parentScan k e l 0) eqn:Hp].
      * rewrite !list_lookup_imap. destruct (l !! i) as [x|] eqn:Hi; simpl; [| reflexivity].
        f_equal. unfold containedAfter.
        destruct (decide (i = k)) as [->|Hne].
        -- simplify_eq. rewrite Hempty. rewrite !andb_false_r. reflexivity.
        -- rewrite (bool_decide_ext (i < S k)%nat (i < k)%nat) by lia. reflexivity.
      * destruct (decide (i = k)) as [->|Hne].
        -- rewrite list_lookup_insert_eq
             by (rewrite length_imap; eapply lookup_lt_Some; eauto).
           rewrite list_lookup_imap, Hk. simpl. f_equal. unfold containedAfter.
           rewrite bool_decide_eq_true_2 by lia. rewrite Hempty, Hp. reflexivity.
        -- rewrite list_lookup_insert_ne by congruence.
           rewrite !list_lookup_imap. destruct (l !! i) as [x|]; simpl; [| reflexivity].
           f_equal. unfold containedAfter.
           rewrite (bool_decide_ext (i < S k)%nat (i < k)%nat) by lia. reflexivity.
      * rewrite !list_lookup_imap. destruct (l !! i) as [x|] eqn:Hi; simpl; [| reflexivity].
        f_equal. unfold containedAfter.
        destruct (decide (i = k)) as [->|Hne].
        -- simplify_eq. rewrite Hp. rewrite !andb_false_r. reflexivity.
        -- rewrite (bool_decide_ext (i < S k)%nat (i < k)%nat) by lia. reflexivity.
    + apply imap_ext. intros i x Hi. unfold containedAfter.
      apply lookup_lt_Some in Hi. apply lookup_ge_None in Hk.
      rewrite !bool_decide_eq_true_2 by lia. reflexivity.
Qed.

Lemma markContained_imap (l : list EnhancedElement) :
  markContainedElements l = imap (containedAfter l (length l)) l.
Proof. apply markContained_steps. Qed.

Lemma markContained_lookup (l : list EnhancedElement) (i : nat) (e : EnhancedElement) :
  l !! i = Some e ->
  markContainedElements l !! i
  = Some (if negb (emptyBounds (bbox e)) && parentScan i e l 0
          then set_IsContained true e else e).
Proof.
  intros Hi. unfold markContainedElements. rewrite markContained_steps.
  rewrite list_lookup_imap, Hi. simpl. unfold containedAfter.
  rewrite bool_decide_eq_true_2 by (eapply lookup_lt_Some; eauto).
  reflexivity.
Qed.

Lemma containedBy_true (i j : nat) (e p : EnhancedElement) :
  containedBy i e j p = true <->
  j <> i /\ IsInteractive (base p) = true /\ emptyBounds (bbox p) = false
  /\ isContainedWithin (bbox e) (bbox p) ContainmentThreshold = true
  /\ Float64.lt (area (bbox e)) (area (bbox p)) = true.
Proof.
  unfold containedBy.
  destruct (Nat.eqb_spec i j) as [->|Hne]; simpl.
  - split; [discriminate | intros (Hj & _); congruence].
  - destruct (IsInteractive (base p)); simpl;
      [| split; [discriminate | intros (_ & Hf & _); discriminate]].
    destruct (emptyBounds (bbox p));
      [split; [discriminate | intros (_ & _ & Hf & _); discriminate] |].
    destruct (isContainedWithin (bbox e) (bbox p) ContainmentThreshold);
      [| split; [discriminate | intros (_ & _ & _ & Hf & _); discriminate]].
    split; [intros Hlt; repeat split; auto | intros (_ & _ & _ & _ & Hlt); exact Hlt].
Qed.

(** C3, amended: in the containment pass an element [e] that enters
    unmarked, has non-empty bounds and an area greater than zero in
    [float64] (the product of width and height has not underflowed) ends
    up marked [IsContained] exactly when some other position [j] of the
    list holds an
    interactive element [p] with non-empty bounds such that the
    intersection area divided by the area of [e] is at least 0.99 and the
    area of [e] is strictly below the area of [p]; a parent of equal area
    never passes the test. *)
Theorem containment_pass_iff (l : list EnhancedElement) (i : nat) (e : EnhancedElement) :
  l !! i = Some e ->
  emptyBounds (bbox e) = false ->
  Float64.gt (area (bbox e)) PrimFloat.zero = true ->
  IsContained e = false ->
  ((exists e', markContainedElements l !! i = Some e' /\ IsContained e' = true) <->
   (exists (j : nat) (p : EnhancedElement),
      j <> i /\ l !! j = Some p /\ IsInteractive (base p) = true
      /\ emptyBounds (bbox p) = false
      /\ Float64.ge (coverage (bbox e) (bbox p)) Float64.c0_99 = true
      /\ Float64.lt (area (bbox e)) (area (bbox p)) = true))
  /\ (forall (j : nat) (p : EnhancedElement),
        l !! j = Some p -> containedBy i e j p = true ->
        PrimFloat.eqb (area (bbox e)) (area (bbox p)) = false).
Proof.
  intros Hi Hne Hpos Hfresh. split.
  - rewrite (markContained_lookup l i e Hi), Hne. simpl.
    destruct (parentScan i e l 0) eqn:Hscan.
    + split.
      * intros _. apply parentScan_true in Hscan as (j & p & Hj & Hc).
        simpl in Hc. apply containedBy_true in Hc as (Hji & Hint & Hp & Hin & Hlt).
        exists j, p. repeat split; auto.
        unfold ContainmentThreshold in Hin.
        rewrite isContainedWithin_coverage in Hin by exact Hpos. exact Hin.
      * intros _. eexists. split; [reflexivity | reflexivity].
    + split.
      * intros (e' & He' & Hc). simplify_eq. congruence.
      * intros (j & p & Hji & Hj & Hint & Hp & Hcov & Hlt). exfalso.
        assert (Hs : parentScan i e l 0 = true); [| congruence].
        apply parentScan_true. exists j, p. split; [exact Hj |]. simpl.
        apply containedBy_true. repeat split; auto.
        unfold ContainmentThreshold.
        rewrite isContainedWithin_coverage by exact Hpos. exact Hcov.
  - intros j p _ Hc. apply containedBy_true in Hc as (_ & _ & _ & _ & Hlt).
    apply float_lt_not_eq. exact Hlt.
Qed.

Lemma containment_pass_iff_witness :
  [exButton; exSvg] !! 1%nat = Some exSvg
  /\ emptyBounds (bbox exSvg) = false
  /\ Float64.gt (area (bbox exSvg)) PrimFloat.zero = true
  /\ IsContained exSvg = false
  /\ exists e', markContainedElements [exButton; exSvg] !! 1%nat = Some e'
                /\ IsContained e' = true.
Proof.
  repeat (split; [reflexivity |]).
  apply (containment_pass_iff [exButton; exSvg] 1%nat exSvg);
    [reflexivity | reflexivity | reflexivity | reflexivity |].
  exists 0%nat, exButton. repeat split; try reflexivity. discriminate.
Defined.

(** C3, as stated, fails for an element whose area is zero in
    [float64] although its width and height are positive: the link lies
    in an interactive button with bounds, the intersection divided by its
    area is at least 0.99 (the quotient is infinite), and its area is
    strictly below the button's, yet [isContainedWithin] answers false at
    its guard [innerArea <= 0] and the pass leaves the link unmarked. *)
Lemma containment_misses_underflowed_area :
  [exBig; exTiny] !! 1%nat = Some exTiny
  /\ emptyBounds (bbox exTiny) = false
  /\ Float64.gt (Width (bbox exTiny)) PrimFloat.zero = true
  /\ Float64.gt (Height (bbox exTiny)) PrimFloat.zero = true
  /\ IsContained exTiny = false
  /\ (exists (j : nat) (p : EnhancedElement),
        j <> 1%nat /\ [exBig; exTiny] !! j = Some p /\ IsInteractive (base p) = true
        /\ emptyBounds (bbox p) = false
        /\ Float64.ge (coverage (bbox exTiny) (bbox p)) Float64.c0_99 = true
        /\ Float64.lt (area (bbox exTiny)) (area (bbox p)) = true)
  /\ PrimFloat.eqb (area (bbox exTiny)) PrimFloat.zero = true
  /\ isContainedWithin (bbox exTiny) (bbox exBig) ContainmentThreshold = false
  /\ markContainedElements [exBig; exTiny] = [exBig; exTiny]
  /\ ~ (exists e', markContainedElements [exBig; exTiny] !! 1%nat = Some e'
                   /\ IsContained e' = true).
Proof.
  assert (Hpass : markContainedElements [exBig; exTiny] = [exBig; exTiny])
    by (vm_compute; reflexivity).
  repeat (split; [vm_compute; reflexivity |]).
  split.
  { exists 0%nat, exBig. split; [discriminate |].
    repeat (split; [vm_compute; reflexivity |]). vm_compute. reflexivity. }
  split; [vm_compute; reflexivity |].
  split; [vm_compute; reflexivity |].
  split; [exact Hpass |].
  rewrite Hpass. intros (e' & He' & Hc). simpl in He'. injection He' as <-.
  vm_compute in Hc. discriminate.
Qed.

Lemma occluderScan_bbox (el el' : EnhancedElement) (hs hs' : list EnhancedElement) (j : nat) :
  bbox el = bbox el' -> bbox <$> hs = bbox <$> hs' ->
  occluderScan el hs j = occluderScan el' hs' j.
Proof.
  intros He. revert hs' j. induction hs as [|h hs IH]; intros [|h' hs'] j Hl; simplify_eq/=; auto.
  rewrite He. replace (bbox h') with (bbox h) by assumption.
  destruct (emptyBounds (bbox h)); auto.
  destruct (isSignificantlyOccluded (bbox el') (bbox h)); auto.
Qed.

(** The scan stops at the first position whose element covers [el]. *)
Lemma occluderScan_Some (el : EnhancedElement) (hs : list EnhancedElement) (j0 k : nat) :
  occluderScan el hs j0 = Some k <->
  exists j h, k = (j0 + j)%nat /\ hs !! j = Some h /\ covers el h = true
              /\ forall j' h', (j' < j)%nat -> hs !! j' = Some h' -> covers el h' = false.
Proof.
  revert j0. induction hs as [|h hs IH]; intros j0; simpl.
  - split; [discriminate | intros (j & x & _ & Hx & _); discriminate].
  - assert (Hstep : occluderScan el hs (S j0) = Some k <->
                    exists j x, k = (j0 + S j)%nat /\ hs !! j = Some x /\ covers el x = true
                      /\ forall j' h', (j' < j)%nat -> hs !! j' = Some h' -> covers el h' = false).
    { rewrite IH. split; intros (j & x & Hk & Hr); exists j, x; (split; [lia | exact Hr]). }
    destruct (covers el h) eqn:Hc; unfold covers in Hc.
    + apply andb_true_iff in Hc as [He Hs]. apply negb_true_iff in He. rewrite He, Hs.
      split.
      * intros [= <-]. exists 0%nat, h. repeat split; [lia | | intros; lia].
        unfold covers. rewrite He, Hs. reflexivity.
      * intros ([|j] & x & Hk & Hx & Hcx & Hfirst); [f_equal; lia |].
        exfalso. specialize (Hfirst 0%nat h ltac:(lia) eq_refl).
        unfold covers in Hfirst. rewrite He, Hs in Hfirst. discriminate.
    + assert (Hgo : (if emptyBounds (bbox h) then occluderScan el hs (S j0)
                     else if isSignificantlyOccluded (bbox el) (bbox h) then Some j0
                     else occluderScan el hs (S j0)) = occluderScan el hs (S j0)).
      { destruct (emptyBounds (bbox h)); [reflexivity |]. simpl in Hc. rewrite Hc. reflexivity. }
      rewrite Hgo, Hstep. split.
      * intros (j & x & Hk & Hx & Hcx & Hfirst). exists (S j), x. repeat split; auto.
        intros [|j'] h' Hlt Hh'; simpl in Hh'.
        -- simplify_eq. unfold covers. exact Hc.
        -- apply (Hfirst j'); [lia | exact Hh'].
      * intros ([|j] & x & Hk & Hx & Hcx & Hfirst); simpl in Hx.
        -- simplify_eq. unfold covers in Hcx. congruence.
        -- exists j, x. repeat split; auto.
           intros j' h' Hlt Hh'. apply (Hfirst (S j')); [lia | exact Hh'].
Qed.

Lemma occluderScan_None (el : EnhancedElement) (hs : list EnhancedElement) (j0 : nat) :
  occluderScan el hs j0 = None ->
  forall j h, hs !! j = Some h -> covers el h = false.
Proof.
  revert j0. induction hs as [|x hs IH]; intros j0 Hscan j h Hj; [discriminate |].
  simpl in Hscan. unfold covers.
  destruct j as [|j]; simpl in Hj.
  - simplify_eq. destruct (emptyBounds (bbox h)); [reflexivity |].
    destruct (isSignificantlyOccluded (bbox el) (bbox h)); [discriminate | reflexivity].
  - apply (IH (S j0)) with (j := j); [| exact Hj].
    destruct (emptyBounds (bbox x)); [exact Hscan |].
    destruct (isSignificantlyOccluded (bbox el) (bbox x)); [discriminate | exact Hscan].
Qed.

Lemma occludeOne_bbox done el : bbox (occludeOne done el) = bbox el.
Proof.
  unfold occludeOne. destruct (emptyBounds (bbox el)); [reflexivity |].
  destruct (occluderScan el done 0); reflexivity.
Qed.

Lemma occludeOne_ext done done' el :
  bbox <$> done = bbox <$> done' -> occludeOne done el = occludeOne done' el.
Proof.
  intros Hd. unfold occludeOne.
  rewrite (occluderScan_bbox el el done done' 0 eq_refl Hd). reflexivity.
Qed.

Lemma markOccludedFrom_spec (done0 done rest : list EnhancedElement) :
  bbox <$> done = bbox <$> done0 ->
  markOccludedFrom done rest
  = done ++ imap (fun k el => occludeOne (done0 ++ take k rest) el) rest.
Proof.
  revert done0 done. induction rest as [|el rest IH]; intros done0 done Hd; simpl.
  - rewrite app_nil_r. reflexivity.
  - rewrite (IH (done0 ++ [el])).
    + rewrite <- app_assoc. simpl. f_equal. f_equal.
      * rewrite app_nil_r. apply occludeOne_ext. exact Hd.
      * apply imap_ext. intros k x _. simpl. rewrite <- app_assoc. reflexivity.
    + rewrite !fmap_app. simpl. rewrite occludeOne_bbox, Hd. reflexivity.
Qed.

Lemma markOccluded_imap (l : list EnhancedElement) :
  markOccludedElements l = imap (fun k el => occludeOne (take k l) el) l.
Proof.
  unfold markOccludedElements. rewrite (markOccludedFrom_spec [] [] l eq_refl). reflexivity.
Qed.

Lemma markOccluded_lookup (l : list EnhancedElement) (i : nat) (e : EnhancedElement) :
  l !! i = Some e ->
  markOccludedElements l !! i = Some (occludeOne (take i l) e).
Proof.
  intros Hi. unfold markOccludedElements.
  rewrite (markOccludedFrom_spec [] [] l eq_refl). simpl.
  rewrite list_lookup_imap, Hi. reflexivity.
Qed.

(** The occlusion pass by position: the element at [i] is marked exactly
    when an element before it in the list covers it. *)
Lemma markOccluded_by_position (l : list EnhancedElement) (i : nat) (e : EnhancedElement) :
  l !! i = Some e ->
  emptyBounds (bbox e) = false ->
  IsOccluded e = false ->
  (exists e', markOccludedElements l !! i = Some e' /\ IsOccluded e' = true) <->
  (exists j h, (j < i)%nat /\ l !! j = Some h /\ covers e h = true).
Proof.
  intros Hi Hne Hfresh. rewrite (markOccluded_lookup l i e Hi).
  unfold occludeOne. rewrite Hne.
  destruct (occluderScan e (take i l) 0) as [k|] eqn:Hscan.
  - split; [intros _ | intros _; eexists; split; reflexivity].
    apply occluderScan_Some in Hscan as (j & h & _ & Hj & Hc & _).
    exists j, h. apply lookup_take_Some in Hj as [Hj Hlt]. auto.
  - split; [intros (e' & [= <-] & Ho); congruence |].
    intros (j & h & Hlt & Hj & Hc). exfalso.
    assert (Htk : take i l !! j = Some h) by (apply lookup_take_Some; auto).
    pose proof (occluderScan_None e (take i l) 0 Hscan j h Htk).
    congruence.
Qed.

(** In a list in descending paint order, an element that is covered by one
    of strictly higher paint order is marked: such an element stands
    earlier in the list. *)
Lemma markOccluded_strictly_higher (l : list EnhancedElement) (i j : nat)
    (e h : EnhancedElement) :
  sortedDesc l ->
  l !! i = Some e -> emptyBounds (bbox e) = false -> IsOccluded e = false ->
  l !! j = Some h -> PaintOrder e < PaintOrder h -> covers e h = true ->
  exists e', markOccludedElements l !! i = Some e' /\ IsOccluded e' = true.
Proof.
  intros Hsorted Hi Hne Hfresh Hj Hpo Hc.
  apply (markOccluded_by_position l i e Hi Hne Hfresh).
  exists j, h. repeat split; auto.
  destruct (decide (j < i)%nat) as [Hlt|Hge]; [exact Hlt | exfalso].
  destruct (decide (j = i)) as [->|Hneq].
  - simplify_eq. lia.
  - pose proof (Hsorted i j e h ltac:(lia) Hi Hj). lia.
Qed.

(** The element that marks [e] stands before it; in descending paint
    order its paint order is at least that of [e], and it may be equal. *)
Lemma markOccluded_occluder_not_lower (l : list EnhancedElement) (i : nat)
    (e e' : EnhancedElement) :
  sortedDesc l ->
  l !! i = Some e -> emptyBounds (bbox e) = false -> IsOccluded e = false ->
  markOccludedElements l !! i = Some e' -> IsOccluded e' = true ->
  exists j h, (j < i)%nat /\ l !! j = Some h /\ covers e h = true
              /\ PaintOrder e <= PaintOrder h.
Proof.
  intros Hsorted Hi Hne Hfresh Hm Ho.
  destruct (proj1 (markOccluded_by_position l i e Hi Hne Hfresh)) as (j & h & Hlt & Hj & Hc);
    [eauto |].
  exists j, h. repeat split; auto. exact (Hsorted j i h e Hlt Hj Hi).
Qed.

(** C2, at the input on which the code departs from it: two candidates on
    the same box with the same paint order form a list in descending paint
    order; no candidate has a strictly higher paint order than the second,
    and yet the pass marks the second as occluded, by the first.  The
    parser reaches this list from a snapshot with two such nodes. *)
Theorem occlusion_marks_on_equal_paint_order :
  sortedDesc [exTieFirst; exTieSecond]
  /\ (forall h, h ∈ [exTieFirst; exTieSecond] -> ~ PaintOrder exTieSecond < PaintOrder h)
  /\ occluderScan exTieSecond [exTieFirst] 0 = Some 0%nat
  /\ markOccludedElements [exTieFirst; exTieSecond]
     = [exTieFirst; set_IsOccluded true exTieSecond]
  /\ parseSnapshotResponse (Some (mkSnapshotResponse [exTieDoc])) ∅
     = Some [exTieFirst; set_IsOccluded true exTieSecond].
Proof.
  split; [| split; [| split; [| split]]]; [| | | | vm_compute; reflexivity].
  - intros j i a b Hlt Hj Hi.
    destruct j as [|[|j]], i as [|[|i]]; simpl in Hj, Hi; simplify_eq; simpl; lia.
  - intros h Hh. repeat (apply elem_of_cons in Hh as [->|Hh]); simpl; try lia.
    inversion Hh.
  - reflexivity.
  - reflexivity.
Qed.

End Geometry.

(** * The snapshot parser *)

Module Parsing.
Import Dom DomSpec.

(** ** The derivation of [isEnabled] *)

(** What the assignment computes, in terms of the closure [getAttr]. *)
Lemma isEnabledOf_true (doc : SnapshotDocument) (i : nat) :
  isEnabledOf doc i = true <->
  getAttr doc i "disabled" = ""%string /\ getAttr doc i "aria-disabled" <> "true"%string.
Proof.
  unfold isEnabledOf. rewrite andb_true_iff, negb_true_iff.
  rewrite String.eqb_eq, String.eqb_neq. reflexivity.
Qed.

(** An attribute whose value is the empty string reads like an absent
    one. *)
Lemma scanAttrs_empty_value (stringsArr : list string) (nameIdx valueIdx : Z)
    (attrName : string) :
  stringsArr !! Z.to_nat valueIdx = Some ""%string ->
  scanAttrs stringsArr [nameIdx; valueIdx] attrName = ""%string.
Proof.
  intros Hval. simpl.
  destruct (_ && String.eqb _ attrName); [| reflexivity].
  rewrite Hval. simpl.
  destruct (_ && _); reflexivity.
Qed.

(** C4, at the input on which the code departs from it: the node
    [<button disabled>] carries the attribute [disabled], with the empty
    string as its value, and carries no [aria-disabled]; the closure
    [getAttr] returns the empty string for [disabled], the parser derives
    [isEnabled = true], and the element it builds is enabled. *)
Theorem isEnabled_with_empty_disabled_value :
  carriesAttr exDisabledDoc 0 "disabled"
  /\ ~ carriesAttr exDisabledDoc 0 "aria-disabled"
  /\ getAttr exDisabledDoc 0 "disabled" = ""%string
  /\ isEnabledOf exDisabledDoc 0 = true
  /\ exists el,
       parseSnapshotResponse (Some (mkSnapshotResponse [exDisabledDoc])) ∅ = Some [el]
       /\ TagName (base el) = "button"%string
       /\ IsEnabled (base el) = true.
Proof.
  split; [| split; [| split; [| split]]].
  - exists [1; 2], 0%nat, 1. simpl. repeat split; try reflexivity; lia.
  - intros (attrs & k & nameIdx & Hattrs & Hname & Hlen & Hpos & Hstr).
    simpl in Hattrs. simplify_eq. simpl in Hlen.
    destruct k as [|k]; [| simpl in Hlen; lia].
    simpl in Hname. simplify_eq/=; try discriminate.
  - reflexivity.
  - reflexivity.
  - eexists. split; [vm_compute; reflexivity |]. split; reflexivity.
Qed.

(** ** Parsed elements are not yet marked new *)

Lemma mergeAXProperty_IsNew (el : EnhancedElement) (prop : AXProperty) :
  IsNew (mergeAXProperty el prop) = IsNew el.
Proof. unfold mergeAXProperty. repeat case_match; reflexivity. Qed.

Lemma mergeAXInfo_IsNew (el : EnhancedElement) (axNode : CDPAXNode) :
  IsNew (mergeAXInfo el axNode) = IsNew el.
Proof.
  unfold mergeAXInfo.
  assert (Hfold : forall props e, IsNew (foldl mergeAXProperty e props) = IsNew e).
  { induction props as [|p props IH]; intros e; simpl; [reflexivity |].
    rewrite IH. apply mergeAXProperty_IsNew. }
  rewrite Hfold. repeat case_match; reflexivity.
Qed.

Section WithEnv.
Context `{GoEnv}.

Lemma parseNode_IsNew (doc : SnapshotDocument) (layoutLookup : gmap Z nat)
    (axLookup : gmap Z CDPAXNode) (i : nat) (el : EnhancedElement) :
  parseNode doc layoutLookup axLookup i = Some el -> IsNew el = false.
Proof.
  unfold parseNode. cbv zeta.
  destruct (n_NodeType (Nodes doc) !! i) as [nodeType|]; [| discriminate].
  destruct (negb (nodeType =? 1)); [discriminate |].
  destruct (negb (shouldProcessTag _)); [discriminate |].
  intros [= <-].
  repeat first
    [ match goal with
      | |- IsNew (with_base _ ?e) = _ => change (IsNew e = false)
      | |- IsNew (match ?x with _ => _ end) = _ => destruct x
      end
    | rewrite mergeAXInfo_IsNew ];
    reflexivity.
Qed.

Lemma parseNodes_IsNew (doc : SnapshotDocument) (axLookup : gmap Z CDPAXNode) :
  Forall (fun e => IsNew e = false) (parseNodes doc axLookup).
Proof.
  apply Forall_forall. intros el Hel. unfold parseNodes in Hel.
  apply list_elem_of_omap in Hel as (i & _ & Hi).
  exact (parseNode_IsNew _ _ _ _ _ Hi).
Qed.

(** The elements the parser returns when [sort.Slice] rearranges its
    slice: none is marked new. *)
Lemma parseSnapshotResponse_IsNew (decoded : option SnapshotResponse)
    (axLookup : gmap Z CDPAXNode) (elements : list EnhancedElement) :
  (forall less l, sort_Slice less l ≡ₚ l) ->
  parseSnapshotResponse decoded axLookup = Some elements ->
  Forall (fun e => IsNew e = false) elements.
Proof.
  intros Hperm. unfold parseSnapshotResponse.
  destruct decoded as [response|]; [| discriminate].
  destruct (Documents response) as [|doc rest]; [discriminate |].
  intros [= <-].
  assert (Hsorted : Forall (fun e => IsNew e = false)
                      (sort_Slice paintOrderLess (parseNodes doc axLookup))).
  { rewrite Hperm. apply parseNodes_IsNew. }
  revert Hsorted. generalize (sort_Slice paintOrderLess (parseNodes doc axLookup)).
  intros l Hl.
  assert (Hocc : Forall (fun e => IsNew e = false) (markOccludedElements l)).
  { apply Forall_lookup. intros i e' He'.
    rewrite Geometry.markOccluded_imap, list_lookup_imap in He'.
    destruct (l !! i) as [e|] eqn:Hi; simplify_eq/=.
    rewrite Forall_lookup in Hl. specialize (Hl i e Hi).
    unfold occludeOne. repeat case_match; exact Hl. }
  revert Hocc. generalize (markOccludedElements l). clear l Hl. intros l Hl.
  apply Forall_lookup. intros i e' He'.
  rewrite Geometry.markContained_imap, list_lookup_imap in He'.
  destruct (l !! i) as [e|] eqn:Hi; simplify_eq/=.
  rewrite Forall_lookup in Hl. specialize (Hl i e Hi).
  unfold containedAfter. case_match; exact Hl.
Qed.

End WithEnv.

(** The reference sort rearranges its input. *)
Lemma insertSorted_perm less x l : insertSorted less x l ≡ₚ x :: l.
Proof.
  induction l as [|y l IH]; simpl; [reflexivity |].
  destruct (less x y); [reflexivity |].
  rewrite IH. apply Permutation_swap.
Qed.

Lemma insertionSort_perm less l : insertionSort less l ≡ₚ l.
Proof.
  unfold insertionSort.
  assert (Hgen : forall acc, foldl (fun acc x => insertSorted less x acc) acc l ≡ₚ acc ++ l).
  { induction l as [|x l IH]; intros acc; simpl.
    - rewrite app_nil_r. reflexivity.
    - rewrite IH, insertSorted_perm. simpl. apply Permutation_middle. }
  apply (Hgen []).
Qed.

End Parsing.

(** * Filtering, indexing and the element map *)

Module Extraction.
Import Dom DomSpec.

(** ** One step of the filter loop *)

Lemma filterStep_keeps (hp : bool) (m : EnhancedElementMap) (idx : Z) (el : EnhancedElement) :
  keeps el = true ->
  filterStep hp (m, idx) el
  = (AddEnhanced m (finalize (PreviousNodeIDs m) hp idx el), idx + 1).
Proof.
  unfold keeps, filterStep. intros Hk.
  apply andb_true_iff in Hk as [Hk Hc]. apply andb_true_iff in Hk as [Hk Ho].
  apply andb_true_iff in Hk as [Hi Hv].
  apply negb_true_iff in Hc, Ho. rewrite Hi, Hv, Ho, Hc. reflexivity.
Qed.

Lemma filterStep_drops (hp : bool) (m : EnhancedElementMap) (idx : Z) (el : EnhancedElement) :
  keeps el = false ->
  exists m',
    filterStep hp (m, idx) el = (m', idx)
    /\ Elements m' = Elements m
    /\ BackendNodeMap m' = BackendNodeMap m
    /\ PreviousNodeIDs m' = PreviousNodeIDs m
    /\ accounted m' = accounted m + 1.
Proof.
  unfold keeps, filterStep, accounted. intros Hk.
  destruct (IsInteractive (base el)), (IsVisible (base el)); simpl in *;
    try (eexists; repeat split; simpl; lia).
  destruct (IsOccluded el); simpl in *; [eexists; repeat split; simpl; lia |].
  destruct (IsContained el); simpl in *; [eexists; repeat split; simpl; lia |].
  discriminate.
Qed.

(** ** The loop as a whole *)

Lemma filter_fold (hp : bool) (els : list EnhancedElement) (m0 : EnhancedElementMap)
    (idx0 : Z) :
  exists m,
    foldl (filterStep hp) (m0, idx0) els
    = (m, idx0 + Z.of_nat (length (filter (fun e => keeps e = true) els)))
    /\ Elements m
       = Elements m0
         ++ imap (fun k el => finalize (PreviousNodeIDs m0) hp (idx0 + Z.of_nat k) el)
                 (filter (fun e => keeps e = true) els)
    /\ PreviousNodeIDs m = PreviousNodeIDs m0
    /\ accounted m = accounted m0 + Z.of_nat (length els).
Proof.
  revert m0 idx0. induction els as [|el els IH]; intros m0 idx0.
  - exists m0. simpl. rewrite app_nil_r, !Z.add_0_r. auto.
  - cbn [foldl]. destruct (keeps el) eqn:Hk.
    + rewrite (filterStep_keeps hp m0 idx0 el Hk).
      destruct (IH (AddEnhanced m0 (finalize (PreviousNodeIDs m0) hp idx0 el)) (idx0 + 1))
        as (m & Hfold & Hels & Hprev & Hacc).
      exists m. rewrite filter_cons_True by exact Hk.
      split; [| split; [| split]].
      * rewrite Hfold. f_equal. simpl length. lia.
      * rewrite Hels. simpl. rewrite <- app_assoc. simpl. rewrite Z.add_0_r.
        f_equal. f_equal. apply imap_ext. intros k x _. simpl. f_equal. lia.
      * exact Hprev.
      * rewrite Hacc. unfold accounted. simpl. rewrite length_app. simpl. lia.
    + destruct (filterStep_drops hp m0 idx0 el Hk) as (m' & Hstep & He & Hb & Hp & Ha).
      rewrite Hstep. destruct (IH m' idx0) as (m & Hfold & Hels & Hprev & Hacc).
      exists m. rewrite filter_cons_False by (rewrite Hk; discriminate).
      split; [| split; [| split]].
      * exact Hfold.
      * rewrite Hels, He, Hp. reflexivity.
      * congruence.
      * rewrite Hacc, Ha. simpl length. lia.
Qed.

(** ** The lookup table by backend id *)

Lemma tracks_AddEnhanced (m : EnhancedElementMap) (el : EnhancedElement) :
  tracks m -> tracks (AddEnhanced m el).
Proof.
  intros Hm id. unfold AddEnhanced, lastWithID. simpl.
  rewrite filter_app. specialize (Hm id). unfold lastWithID in Hm.
  destruct (decide (BackendNodeID el = id)) as [Heq|Hne].
  - rewrite filter_cons_True by exact Heq. rewrite filter_nil, last_snoc.
    subst id. destruct (0 <? BackendNodeID el) eqn:Hpos.
    + apply lookup_insert_eq.
    + try rewrite Hpos in Hm. exact Hm.
  - rewrite filter_cons_False by exact Hne. rewrite filter_nil, app_nil_r.
    destruct (0 <? BackendNodeID el); [rewrite lookup_insert_ne by exact Hne |]; exact Hm.
Qed.

Lemma tracks_same (m m' : EnhancedElementMap) :
  Elements m' = Elements m -> BackendNodeMap m' = BackendNodeMap m ->
  tracks m -> tracks m'.
Proof. intros He Hb Hm id. rewrite He, Hb. apply Hm. Qed.

Lemma tracks_filterStep (hp : bool) (m : EnhancedElementMap) (idx : Z) (el : EnhancedElement) :
  tracks m -> tracks (filterStep hp (m, idx) el).1.
Proof.
  intros Hm. destruct (keeps el) eqn:Hk.
  - rewrite (filterStep_keeps hp m idx el Hk). simpl. apply tracks_AddEnhanced, Hm.
  - destruct (filterStep_drops hp m idx el Hk) as (m' & -> & He & Hb & _).
    simpl. exact (tracks_same m m' He Hb Hm).
Qed.

Lemma tracks_filter_fold (hp : bool) (els : list EnhancedElement)
    (st : EnhancedElementMap * Z) :
  tracks st.1 -> tracks (foldl (filterStep hp) st els).1.
Proof.
  revert st. induction els as [|el els IH]; intros [m idx] Hm; simpl; [exact Hm |].
  apply IH. apply tracks_filterStep, Hm.
Qed.

Lemma tracks_wrap_fold (els : list Element) (m : EnhancedElementMap) :
  tracks m -> tracks (foldl (fun m el => AddEnhanced m (wrapElement el)) m els).
Proof.
  revert m. induction els as [|el els IH]; intros m Hm; simpl; [exact Hm |].
  apply IH. apply tracks_AddEnhanced, Hm.
Qed.

Lemma wrap_fold_Elements (els : list Element) (m : EnhancedElementMap) :
  Elements (foldl (fun m el => AddEnhanced m (wrapElement el)) m els)
  = Elements m ++ (wrapElement <$> els).
Proof.
  revert m. induction els as [|el els IH]; intros m; simpl.
  - rewrite app_nil_r. reflexivity.
  - rewrite IH. simpl. rewrite <- app_assoc. reflexivity.
Qed.

Lemma wrap_fold_stats (els : list Element) (m : EnhancedElementMap) :
  let m' := foldl (fun m el => AddEnhanced m (wrapElement el)) m els in
  TotalElements m' = TotalElements m /\ FilteredByHidden m' = FilteredByHidden m
  /\ FilteredByPaint m' = FilteredByPaint m /\ FilteredByContain m' = FilteredByContain m.
Proof.
  revert m. induction els as [|el els IH]; intros m; simpl; [auto |].
  destruct (IH (AddEnhanced m (wrapElement el))) as (H1 & H2 & H3 & H4). auto.
Qed.

(** ** The start map *)

Lemma startMap_Elements page prev : Elements (startMap page prev) = [].
Proof. unfold startMap. destruct (page_Info page) as [[? ?]|], prev; reflexivity. Qed.

Lemma startMap_BackendNodeMap page prev : BackendNodeMap (startMap page prev) = ∅.
Proof. unfold startMap. destruct (page_Info page) as [[? ?]|], prev; reflexivity. Qed.

Lemma startMap_accounted page prev : accounted (startMap page prev) = 0.
Proof. unfold startMap. destruct (page_Info page) as [[? ?]|], prev; reflexivity. Qed.

Lemma startMap_PreviousNodeIDs page prev :
  PreviousNodeIDs (startMap page prev)
  = match prev with
    | Some M1 => (fun _ => true) <$> BackendNodeMap M1
    | None => ∅
    end.
Proof. unfold startMap. destruct (page_Info page) as [[? ?]|], prev; reflexivity. Qed.

Lemma startMap_tracks page prev : tracks (startMap page prev).
Proof.
  intros id. rewrite startMap_BackendNodeMap, startMap_Elements, lookup_empty.
  destruct (0 <? id); reflexivity.
Qed.

(** ** The two paths of the extraction *)

Section WithEnv.
Context `{GoEnv}.

Lemma extract_snapshot_path (page : Page) (prev : option EnhancedElementMap)
    (doc : SnapshotDocument) :
  snapshotParsed page doc ->
  ExtractEnhancedElementMap page prev
  = Some (filterAndIndex (bool_decide (is_Some prev)) (startMap page prev)
            (parsedElements doc (axLookupOf page))).
Proof.
  intros (response & rest & Hsnap & Hdocs).
  unfold ExtractEnhancedElementMap, parseSnapshotResponse. rewrite Hsnap, Hdocs.
  reflexivity.
Qed.

Lemma extract_fallback_path (page : Page) (prev : option EnhancedElementMap) :
  (~ exists doc, snapshotParsed page doc) ->
  ExtractEnhancedElementMap page prev
  = extractEnhancedElementMapJS page (axLookupOf page) (startMap page prev).
Proof.
  intros Hno. unfold ExtractEnhancedElementMap, parseSnapshotResponse.
  destruct (page_Snapshot page) as [|[response|]] eqn:Hsnap; try reflexivity.
  destruct (Documents response) as [|doc rest] eqn:Hdocs; [reflexivity |].
  exfalso. apply Hno. exists doc, response, rest. auto.
Qed.

Lemma snapshotParsed_dec (page : Page) :
  (exists doc, snapshotParsed page doc) \/ (~ exists doc, snapshotParsed page doc).
Proof.
  unfold snapshotParsed.
  destruct (page_Snapshot page) as [|[response|]] eqn:Hsnap.
  - right. intros (doc & r & rest & Hr & _). discriminate.
  - destruct (Documents response) as [|doc rest] eqn:Hdocs.
    + right. intros (doc & r & rest & Hr & Hd). simplify_eq. congruence.
    + left. exists doc, response, rest. auto.
  - right. intros (doc & r & rest & Hr & _). discriminate.
Qed.

(** The map returned on the snapshot path. *)
Lemma filterAndIndex_spec (hp : bool) (m0 : EnhancedElementMap)
    (els : list EnhancedElement) :
  Elements m0 = [] ->
  let m := filterAndIndex hp m0 els in
  Elements m
  = imap (fun k el => finalize (PreviousNodeIDs m0) hp (Z.of_nat k) el)
         (filter (fun e => keeps e = true) els)
  /\ TotalElements m = Z.of_nat (length els)
  /\ accounted m = accounted m0 + Z.of_nat (length els)
  /\ (tracks m0 -> tracks m).
Proof.
  intros Hempty. unfold filterAndIndex.
  destruct (filter_fold hp els m0 0) as (m & Hfold & Hels & Hprev & Hacc).
  pose proof (tracks_filter_fold hp els (m0, 0)) as Htr.
  rewrite Hfold in *. simpl in *.
  split; [| split; [| split]].
  - rewrite Hels, Hempty. reflexivity.
  - reflexivity.
  - exact Hacc.
  - intros Hm0. exact (tracks_same m _ eq_refl eq_refl (Htr Hm0)).
Qed.

(** ** Facts about the element the loop adds *)

Lemma finalize_Index p hp idx el : Index (base (finalize p hp idx el)) = idx.
Proof. unfold finalize. cbv zeta. case_match; reflexivity. Qed.

Lemma finalize_flags p hp idx el :
  IsOccluded (finalize p hp idx el) = IsOccluded el
  /\ IsContained (finalize p hp idx el) = IsContained el
  /\ IsInteractive (base (finalize p hp idx el)) = IsInteractive (base el)
  /\ IsVisible (base (finalize p hp idx el)) = IsVisible (base el)
  /\ BackendNodeID (finalize p hp idx el) = BackendNodeID el.
Proof. unfold finalize. cbv zeta. case_match; repeat split; reflexivity. Qed.

Lemma finalize_IsNew p hp idx el :
  IsNew el = false ->
  (IsNew (finalize p hp idx el) = true <-> hp = true /\ p !! BackendNodeID el = None).
Proof.
  intros Hfresh. unfold finalize. cbv zeta.
  change (BackendNodeID (with_base (set_Index idx) el)) with (BackendNodeID el).
  destruct (p !! BackendNodeID el) as [b|]; destruct hp; simpl;
    rewrite ?Hfresh; split; try discriminate; try tauto;
    intros [? ?]; discriminate.
Qed.

Lemma keeps_true el :
  keeps el = true ->
  IsOccluded el = false /\ IsContained el = false
  /\ IsInteractive (base el) = true /\ IsVisible (base el) = true.
Proof.
  unfold keeps. intros Hk.
  apply andb_true_iff in Hk as [Hk Hc]. apply andb_true_iff in Hk as [Hk Ho].
  apply andb_true_iff in Hk as [Hi Hv]. apply negb_true_iff in Hc, Ho. auto.
Qed.

Lemma filter_none {A : Type} (P : A -> Prop) `{forall x, Decision (P x)} (l : list A) :
  (forall x, x ∈ l -> ~ P x) -> filter P l = [].
Proof.
  induction l as [|x l IH]; intros Hl; [reflexivity |].
  rewrite filter_cons_False by (apply Hl; left).
  apply IH. intros y Hy. apply Hl. right. exact Hy.
Qed.

Lemma lastWithID_last_occurrence (l : list EnhancedElement) (k : nat) (e : EnhancedElement) :
  l !! k = Some e ->
  (forall k' e', (k < k')%nat -> l !! k' = Some e' -> BackendNodeID e' <> BackendNodeID e) ->
  lastWithID (BackendNodeID e) l = Some e.
Proof.
  intros Hk Hlater. unfold lastWithID.
  rewrite <- (take_drop_middle l k e Hk), filter_app.
  rewrite filter_cons_True by reflexivity.
  rewrite (filter_none _ (drop (S k) l)).
  - apply last_snoc.
  - intros x Hx. apply list_elem_of_lookup in Hx as [j Hj].
    rewrite lookup_drop in Hj. apply (Hlater (S k + j)%nat x); [lia | exact Hj].
Qed.

Lemma fallback_map (page : Page) (prev : option EnhancedElementMap) (m : EnhancedElementMap) :
  extractEnhancedElementMapJS page (axLookupOf page) (startMap page prev) = Some m ->
  (exists basicMap, Elements m = wrapElement <$> em_Elements basicMap)
  /\ tracks m
  /\ TotalElements m = 0 /\ FilteredByHidden m = 0
  /\ FilteredByPaint m = 0 /\ FilteredByContain m = 0.
Proof.
  unfold extractEnhancedElementMapJS.
  destruct (page_ExtractElementMap page) as [basicMap|]; [| discriminate].
  intros [= <-].
  pose proof (wrap_fold_stats (em_Elements basicMap)
                (set_Page (em_PageURL basicMap) (em_PageTitle basicMap) (startMap page prev)))
    as (Ht & Hh & Hp & Hc).
  simpl in Ht, Hh, Hp, Hc.
  assert (Hstart : TotalElements (startMap page prev) = 0
                   /\ FilteredByHidden (startMap page prev) = 0
                   /\ FilteredByPaint (startMap page prev) = 0
                   /\ FilteredByContain (startMap page prev) = 0).
  { unfold startMap. destruct (page_Info page) as [[? ?]|], prev; auto. }
  destruct Hstart as (Ht0 & Hh0 & Hp0 & Hc0).
  split; [| split; [| repeat split; congruence]].
  - exists basicMap. rewrite wrap_fold_Elements. simpl.
    rewrite startMap_Elements. reflexivity.
  - apply tracks_wrap_fold.
    apply (tracks_same (startMap page prev)); [reflexivity | reflexivity |].
    apply startMap_tracks.
Qed.

(** C1: a map extracted from a successfully parsed snapshot lists its
    elements with [Index] equal to the position, so the indices are
    0, 1, 2, ... without a gap, and holds no element that is occluded,
    contained, not interactive or not visible. *)
Theorem snapshot_map_indexed_and_filtered (page : Page)
    (prev : option EnhancedElementMap) (doc : SnapshotDocument) :
  snapshotParsed page doc ->
  exists m,
    ExtractEnhancedElementMap page prev = Some m
    /\ (forall (k : nat) (e : EnhancedElement),
          Elements m !! k = Some e ->
          Index (base e) = Z.of_nat k
          /\ IsOccluded e = false /\ IsContained e = false
          /\ IsInteractive (base e) = true /\ IsVisible (base e) = true)
    /\ (fun e => Index (base e)) <$> Elements m
       = Z.of_nat <$> seq 0 (length (Elements m)).
Proof.
  intros Hsnap. rewrite (extract_snapshot_path page prev doc Hsnap).
  eexists. split; [reflexivity |].
  destruct (filterAndIndex_spec (bool_decide (is_Some prev)) (startMap page prev)
              (parsedElements doc (axLookupOf page)) (startMap_Elements page prev))
    as (Hels & _).
  set (m := filterAndIndex _ _ _) in *.
  assert (Hall : forall (k : nat) (e : EnhancedElement),
            Elements m !! k = Some e ->
            Index (base e) = Z.of_nat k
            /\ IsOccluded e = false /\ IsContained e = false
            /\ IsInteractive (base e) = true /\ IsVisible (base e) = true).
  { intros k e Hk. rewrite Hels, list_lookup_imap in Hk.
    destruct (filter _ _ !! k) as [x|] eqn:Hx; simplify_eq/=.
    apply list_elem_of_lookup_2, list_elem_of_filter in Hx as [Hkeep _].
    destruct (keeps_true x Hkeep) as (Ho & Hc & Hi & Hv).
    destruct (finalize_flags (PreviousNodeIDs (startMap page prev))
                (bool_decide (is_Some prev)) (Z.of_nat k) x) as (Fo & Fc & Fi & Fv & _).
    rewrite finalize_Index, Fo, Fc, Fi, Fv. auto. }
  split; [exact Hall |].
  apply list_eq. intros i. rewrite !list_lookup_fmap.
  destruct (Elements m !! i) as [e|] eqn:Hi; simpl.
  - rewrite lookup_seq_lt by (eapply lookup_lt_Some; eauto). simpl.
    f_equal. apply (Hall i e Hi).
  - rewrite lookup_seq_ge by (apply lookup_ge_None; exact Hi). reflexivity.
Qed.

(** C5, amended: for an element of a map extracted from a successfully
    parsed snapshot, [IsNew] holds exactly when a previous map was given
    and its lookup table has no entry for the backend id of the element;
    on the fallback path no element is marked new; on either path no
    element is marked new when no previous map was given. *)
Theorem isNew_iff_on_snapshot_path (page : Page) (prev : option EnhancedElementMap)
    (m : EnhancedElementMap) (e : EnhancedElement) :
  (forall less l, sort_Slice less l ≡ₚ l) ->
  ExtractEnhancedElementMap page prev = Some m ->
  e ∈ Elements m ->
  ((exists doc, snapshotParsed page doc) ->
     (IsNew e = true <->
      exists M1, prev = Some M1 /\ BackendNodeMap M1 !! BackendNodeID e = None))
  /\ ((~ exists doc, snapshotParsed page doc) -> IsNew e = false)
  /\ (prev = None -> IsNew e = false).
Proof.
  intros Hperm Hex He.
  assert (Hsnap : forall doc, snapshotParsed page doc ->
            IsNew e = true <->
            exists M1, prev = Some M1 /\ BackendNodeMap M1 !! BackendNodeID e = None).
  { intros doc Hdoc. rewrite (extract_snapshot_path page prev doc Hdoc) in Hex.
    injection Hex as <-.
    destruct (filterAndIndex_spec (bool_decide (is_Some prev)) (startMap page prev)
                (parsedElements doc (axLookupOf page)) (startMap_Elements page prev))
      as (Hels & _).
    rewrite Hels in He. apply list_elem_of_lookup in He as [k Hk].
    rewrite list_lookup_imap in Hk.
    destruct (filter _ _ !! k) as [x|] eqn:Hx; simplify_eq/=.
    apply list_elem_of_lookup_2, list_elem_of_filter in Hx as [_ Hin].
    assert (Hfresh : IsNew x = false).
    { assert (Hp : parseSnapshotResponse (Some (mkSnapshotResponse [doc])) (axLookupOf page)
                   = Some (parsedElements doc (axLookupOf page))) by reflexivity.
      pose proof (Parsing.parseSnapshotResponse_IsNew _ _ _ Hperm Hp) as Hall.
      rewrite Forall_forall in Hall. exact (Hall x Hin). }
    rewrite (finalize_IsNew _ _ _ x Hfresh).
    destruct (finalize_flags (PreviousNodeIDs (startMap page prev))
                (bool_decide (is_Some prev)) (Z.of_nat k) x) as (_ & _ & _ & _ & ->).
    rewrite startMap_PreviousNodeIDs.
    destruct prev as [M1|].
    - rewrite lookup_fmap, fmap_None. split.
      + intros [_ Hnone]. eauto.
      + intros (M & [= <-] & Hnone). split; [| exact Hnone].
        apply bool_decide_eq_true_2. eauto.
    - split.
      + intros [Hhp _]. apply bool_decide_eq_true_1 in Hhp as [? ?]. discriminate.
      + intros (M & ? & _). discriminate. }
  assert (Hfall : (~ exists doc, snapshotParsed page doc) -> IsNew e = false).
  { intros Hno. rewrite (extract_fallback_path page prev Hno) in Hex.
    apply fallback_map in Hex as ((basicMap & Hels) & _).
    rewrite Hels in He. apply list_elem_of_fmap in He as (x & -> & _). reflexivity. }
  split; [| split].
  - intros [doc Hdoc]. exact (Hsnap doc Hdoc).
  - exact Hfall.
  - intros ->. destruct (snapshotParsed_dec page) as [[doc Hdoc]|Hno].
    + destruct (IsNew e) eqn:Hnew; [| reflexivity].
      destruct (proj1 (Hsnap doc Hdoc) eq_refl) as (M & ? & _). discriminate.
    + exact (Hfall Hno).
Qed.

(** C6, amended: for a map extracted from a successfully parsed snapshot
    the number of its elements plus the three counters equals
    [TotalElements], which is the number of candidates the parser
    produced. *)
Theorem counters_sum_on_snapshot_path (page : Page) (prev : option EnhancedElementMap)
    (doc : SnapshotDocument) (m : EnhancedElementMap) :
  snapshotParsed page doc ->
  ExtractEnhancedElementMap page prev = Some m ->
  Z.of_nat (length (Elements m)) + FilteredByHidden m + FilteredByPaint m
  + FilteredByContain m = TotalElements m
  /\ TotalElements m = Z.of_nat (length (parsedElements doc (axLookupOf page))).
Proof.
  intros Hsnap Hex. rewrite (extract_snapshot_path page prev doc Hsnap) in Hex.
  injection Hex as <-.
  destruct (filterAndIndex_spec (bool_decide (is_Some prev)) (startMap page prev)
              (parsedElements doc (axLookupOf page)) (startMap_Elements page prev))
    as (_ & Htotal & Hacc & _).
  rewrite startMap_accounted in Hacc. unfold accounted in Hacc.
  split; [| exact Htotal]. rewrite Htotal. lia.
Qed.

(** C7, amended: in every map an extraction returns, for an element [e]
    with a positive backend id the lookup table maps that id to the last
    element of the list that carries it; that is [e] itself when no later
    element of the list carries the same id. *)
Theorem backend_lookup_is_last_with_id (page : Page) (prev : option EnhancedElementMap)
    (m : EnhancedElementMap) (k : nat) (e : EnhancedElement) :
  ExtractEnhancedElementMap page prev = Some m ->
  Elements m !! k = Some e ->
  0 < BackendNodeID e ->
  BackendNodeMap m !! BackendNodeID e = lastWithID (BackendNodeID e) (Elements m)
  /\ ((forall (k' : nat) (e' : EnhancedElement),
         (k < k')%nat -> Elements m !! k' = Some e' ->
         BackendNodeID e' <> BackendNodeID e) ->
      BackendNodeMap m !! BackendNodeID e = Some e).
Proof.
  intros Hex Hk Hpos.
  assert (Htracks : tracks m).
  { destruct (snapshotParsed_dec page) as [[doc Hdoc]|Hno].
    - rewrite (extract_snapshot_path page prev doc Hdoc) in Hex. injection Hex as <-.
      apply filterAndIndex_spec; [apply startMap_Elements | apply startMap_tracks].
    - rewrite (extract_fallback_path page prev Hno) in Hex.
      apply fallback_map in Hex. tauto. }
  pose proof (Htracks (BackendNodeID e)) as Hlook.
  apply Z.ltb_lt in Hpos. rewrite Hpos in Hlook.
  split; [exact Hlook |].
  intros Hlater. rewrite Hlook. apply (lastWithID_last_occurrence _ k); assumption.
Qed.

End WithEnv.

(** ** The theorems at sample pages *)

Lemma exTwinPage_parsed : snapshotParsed exTwinPage exTwinDoc.
Proof. exists (mkSnapshotResponse [exTwinDoc]), []. split; reflexivity. Qed.

Lemma exTwinMap_extracted :
  ExtractEnhancedElementMap exTwinPage (Some NewEnhancedElementMap) = Some exTwinMap.
Proof. reflexivity. Qed.

Lemma snapshot_map_indexed_and_filtered_witness :
  snapshotParsed exTwinPage exTwinDoc
  /\ exists m,
       ExtractEnhancedElementMap exTwinPage None = Some m
       /\ (forall (k : nat) (e : EnhancedElement),
             Elements m !! k = Some e ->
             Index (base e) = Z.of_nat k
             /\ IsOccluded e = false /\ IsContained e = false
             /\ IsInteractive (base e) = true /\ IsVisible (base e) = true)
       /\ (fun e => Index (base e)) <$> Elements m
          = Z.of_nat <$> seq 0 (length (Elements m)).
Proof.
  split; [exact exTwinPage_parsed |].
  apply (snapshot_map_indexed_and_filtered exTwinPage None exTwinDoc).
  exact exTwinPage_parsed.
Defined.

Lemma refEnv_sort_perm (less : EnhancedElement -> EnhancedElement -> bool)
    (l : list EnhancedElement) :
  sort_Slice less l ≡ₚ l.
Proof. apply Parsing.insertionSort_perm. Qed.

Lemma isNew_iff_on_snapshot_path_witness :
  (forall less l, sort_Slice less l ≡ₚ l)
  /\ ExtractEnhancedElementMap exTwinPage (Some NewEnhancedElementMap) = Some exTwinMap
  /\ exTwinFirst ∈ Elements exTwinMap
  /\ ((exists doc, snapshotParsed exTwinPage doc) ->
        (IsNew exTwinFirst = true <->
         exists M1, Some NewEnhancedElementMap = Some M1
                    /\ BackendNodeMap M1 !! BackendNodeID exTwinFirst = None))
  /\ ((~ exists doc, snapshotParsed exTwinPage doc) -> IsNew exTwinFirst = false)
  /\ (Some NewEnhancedElementMap = None -> IsNew exTwinFirst = false).
Proof.
  assert (Hin : exTwinFirst ∈ Elements exTwinMap).
  { apply list_elem_of_lookup. exists 0%nat. vm_compute. reflexivity. }
  split; [exact refEnv_sort_perm |].
  split; [exact exTwinMap_extracted |].
  split; [exact Hin |].
  apply (isNew_iff_on_snapshot_path exTwinPage (Some NewEnhancedElementMap)
           exTwinMap exTwinFirst refEnv_sort_perm exTwinMap_extracted Hin).
Defined.

(** C5, as stated, fails on the fallback path: a previous map is given and
    does not know the backend id of the link, and the link is not marked
    new. *)
Lemma isNew_not_set_on_fallback :
  exists m e,
    ExtractEnhancedElementMap exFallbackPage (Some NewEnhancedElementMap) = Some m
    /\ e ∈ Elements m
    /\ ~ (IsNew e = true <->
          exists M1, Some NewEnhancedElementMap = Some M1
                     /\ BackendNodeMap M1 !! BackendNodeID e = None).
Proof.
  eexists. exists (wrapElement exLink).
  split; [reflexivity |]. split; [vm_compute; left |].
  intros [_ Hback].
  assert (Hnew : IsNew (wrapElement exLink) = true); [| discriminate].
  apply Hback. exists NewEnhancedElementMap. split; reflexivity.
Qed.

Lemma counters_sum_on_snapshot_path_witness :
  snapshotParsed exTwinPage exTwinDoc
  /\ ExtractEnhancedElementMap exTwinPage (Some NewEnhancedElementMap) = Some exTwinMap
  /\ Z.of_nat (length (Elements exTwinMap)) + FilteredByHidden exTwinMap
     + FilteredByPaint exTwinMap + FilteredByContain exTwinMap
     = TotalElements exTwinMap
  /\ TotalElements exTwinMap
     = Z.of_nat (length (parsedElements exTwinDoc (axLookupOf exTwinPage))).
Proof.
  split; [exact exTwinPage_parsed |].
  split; [exact exTwinMap_extracted |].
  apply (counters_sum_on_snapshot_path exTwinPage (Some NewEnhancedElementMap)
           exTwinDoc exTwinMap exTwinPage_parsed exTwinMap_extracted).
Defined.

(** C6, as stated, fails on the fallback path: the map holds the link, the
    counters and [TotalElements] are all zero. *)
Lemma counters_off_on_fallback :
  exists m,
    ExtractEnhancedElementMap exFallbackPage None = Some m
    /\ Z.of_nat (length (Elements m)) + FilteredByHidden m + FilteredByPaint m
       + FilteredByContain m <> TotalElements m.
Proof.
  eexists. split; [reflexivity |]. vm_compute. discriminate.
Qed.

Lemma backend_lookup_is_last_with_id_witness :
  ExtractEnhancedElementMap exTwinPage (Some NewEnhancedElementMap) = Some exTwinMap
  /\ Elements exTwinMap !! 1%nat = Some exTwinSecond
  /\ 0 < BackendNodeID exTwinSecond
  /\ BackendNodeMap exTwinMap !! BackendNodeID exTwinSecond
     = lastWithID (BackendNodeID exTwinSecond) (Elements exTwinMap)
  /\ ((forall (k' : nat) (e' : EnhancedElement),
         (1 < k')%nat -> Elements exTwinMap !! k' = Some e' ->
         BackendNodeID e' <> BackendNodeID exTwinSecond) ->
      BackendNodeMap exTwinMap !! BackendNodeID exTwinSecond = Some exTwinSecond).
Proof.
  assert (Hk : Elements exTwinMap !! 1%nat = Some exTwinSecond) by (vm_compute; reflexivity).
  assert (Hpos : 0 < BackendNodeID exTwinSecond) by (vm_compute; reflexivity).
  split; [exact exTwinMap_extracted |].
  split; [exact Hk |]. split; [exact Hpos |].
  apply (backend_lookup_is_last_with_id exTwinPage (Some NewEnhancedElementMap)
           exTwinMap 1%nat exTwinSecond exTwinMap_extracted Hk Hpos).
Defined.

(** C7, as stated, fails when two elements carry the same backend id: both
    links of the sample page are in the map with backend id 5, and the
    lookup table maps 5 to the second, not to the first. *)
Lemma backend_lookup_not_self_for_twins :
  exists m e,
    ExtractEnhancedElementMap exTwinPage (Some NewEnhancedElementMap) = Some m
    /\ e ∈ Elements m
    /\ 0 < BackendNodeID e
    /\ BackendNodeMap m !! BackendNodeID e <> Some e.
Proof.
  exists exTwinMap, exTwinFirst.
  split; [exact exTwinMap_extracted |].
  split; [apply list_elem_of_lookup; exists 0%nat; vm_compute; reflexivity |].
  split; [vm_compute; reflexivity |].
  vm_compute. intros [=].
Qed.

End Extraction.

(** * The token serializer *)

Module Serializer.
Import Dom DomSpec.

(** The counting loop counts the visible elements. *)
Lemma visibleCount_length (m : EnhancedElementMap) :
  visibleCount m = Z.of_nat (length (visibleElements m)).
Proof.
  unfold visibleCount, visibleElements.
  assert (Hgen : forall els count,
            foldl (fun count e => if IsVisible (base e) then count + 1 else count) count els
            = count + Z.of_nat (length (filter (fun e => IsVisible (base e) = true) els))).
  { induction els as [|e els IH]; intros count; simpl; [lia |].
    rewrite IH. destruct (IsVisible (base e)) eqn:Hv.
    - rewrite filter_cons_True by exact Hv. simpl length. lia.
    - rewrite filter_cons_False by (rewrite Hv; discriminate). reflexivity. }
  apply (Hgen (Elements m) 0).
Qed.

Section WithEnv.
Context `{GoEnv}.

(** The loop writes the lines of the visible elements, in order, until
    [maxElements] lines are written. *)
Lemma tokenLoop_limited (m : EnhancedElementMap) (maxElements : Z)
    (els : list EnhancedElement) (count : Z) :
  0 < maxElements ->
  tokenLoop m maxElements els count
  = concatLines
      ((fun e => tokenLine m (base e))
         <$> take (Z.to_nat (maxElements - count))
                  (filter (fun e => IsVisible (base e) = true) els)).
Proof.
  intros Hmax. revert count. induction els as [|e els IH]; intros count; simpl.
  - rewrite filter_nil, take_nil. reflexivity.
  - destruct (IsVisible (base e)) eqn:Hv; simpl.
    + rewrite filter_cons_True by exact Hv.
      replace (0 <? maxElements) with true by (symmetry; apply Z.ltb_lt; exact Hmax).
      simpl. destruct (maxElements <=? count) eqn:Hfull.
      * apply Z.leb_le in Hfull.
        replace (Z.to_nat (maxElements - count)) with 0%nat by lia. reflexivity.
      * apply Z.leb_gt in Hfull.
        replace (Z.to_nat (maxElements - count))
          with (S (Z.to_nat (maxElements - (count + 1)))) by lia.
        simpl. rewrite IH. reflexivity.
    + rewrite filter_cons_False by (rewrite Hv; discriminate). apply IH.
Qed.

(** Without a limit the loop writes the lines of all visible elements. *)
Lemma tokenLoop_unlimited (m : EnhancedElementMap) (maxElements : Z)
    (els : list EnhancedElement) (count : Z) :
  maxElements <= 0 ->
  tokenLoop m maxElements els count
  = concatLines
      ((fun e => tokenLine m (base e))
         <$> filter (fun e => IsVisible (base e) = true) els).
Proof.
  intros Hmax. revert count. induction els as [|e els IH]; intros count; simpl.
  - reflexivity.
  - destruct (IsVisible (base e)) eqn:Hv; simpl.
    + rewrite filter_cons_True by exact Hv.
      replace (0 <? maxElements) with false by (symmetry; apply Z.ltb_ge; exact Hmax).
      simpl. rewrite IH. reflexivity.
    + rewrite filter_cons_False by (rewrite Hv; discriminate). apply IH.
Qed.

(** C8, amended: for [maxElements > 0] the serialization consists of the
    two page lines, the header, and the lines of the first [maxElements]
    visible elements, so at most [maxElements] of them; the header counts
    the lines shown against the visible elements exactly when there are
    more visible elements than [maxElements], and otherwise gives the
    number of visible elements only. *)
Theorem token_output_limited (m : EnhancedElementMap) (maxElements : Z) :
  0 < maxElements ->
  let shown := take (Z.to_nat maxElements) (visibleElements m) in
  ToTokenStringEnhanced m maxElements
  = ("Page: " +:+ PageTitle m +:+ nl)
    +:+ ("URL: " +:+ PageURL m +:+ nl)
    +:+ tokenHeader m maxElements
    +:+ concatLines ((fun e => tokenLine m (base e)) <$> shown)
  /\ Z.of_nat (length shown) <= maxElements
  /\ visibleCount m = Z.of_nat (length (visibleElements m))
  /\ (maxElements < visibleCount m ->
      tokenHeader m maxElements = shownHeader maxElements (visibleCount m))
  /\ (visibleCount m <= maxElements ->
      tokenHeader m maxElements = plainHeader (visibleCount m)).
Proof.
  intros Hmax shown. split; [| split; [| split; [| split]]].
  - unfold ToTokenStringEnhanced. rewrite (tokenLoop_limited m maxElements _ 0 Hmax).
    rewrite Z.sub_0_r. reflexivity.
  - unfold shown. rewrite length_take. lia.
  - apply visibleCount_length.
  - intros Hmore. unfold tokenHeader, shownHeader.
    apply Z.ltb_lt in Hmax, Hmore. rewrite Hmax, Hmore. reflexivity.
  - intros Hfew. unfold tokenHeader, plainHeader.
    apply Z.ltb_ge in Hfew. rewrite Hfew, andb_false_r. reflexivity.
Qed.

End WithEnv.

Lemma token_output_limited_witness :
  0 < 1
  /\ ToTokenStringEnhanced exTwinMap 1
     = ("Page: " +:+ PageTitle exTwinMap +:+ nl)
       +:+ ("URL: " +:+ PageURL exTwinMap +:+ nl)
       +:+ tokenHeader exTwinMap 1
       +:+ concatLines ((fun e => tokenLine exTwinMap (base e))
                          <$> take (Z.to_nat 1) (visibleElements exTwinMap))
  /\ Z.of_nat (length (take (Z.to_nat 1) (visibleElements exTwinMap))) <= 1
  /\ visibleCount exTwinMap = Z.of_nat (length (visibleElements exTwinMap))
  /\ (1 < visibleCount exTwinMap ->
      tokenHeader exTwinMap 1 = shownHeader 1 (visibleCount exTwinMap))
  /\ (visibleCount exTwinMap <= 1 ->
      tokenHeader exTwinMap 1 = plainHeader (visibleCount exTwinMap)).
Proof.
  split; [lia |].
  apply (token_output_limited exTwinMap 1). lia.
Defined.

(** C8, as stated, fails when the limit is not exceeded: with
    [maxElements = 2] and two visible elements both lines are written and
    the header reads "Elements (2):", not "2 of 2 shown". *)
Lemma header_plain_within_limit :
  0 < 2
  /\ ToTokenStringEnhanced exTwinMap 2
     = ("Page: " +:+ nl) +:+ ("URL: " +:+ nl) +:+ ("Elements (2):" +:+ nl)
       +:+ ("[0] a" +:+ nl) +:+ ("[1] a" +:+ nl)
  /\ tokenHeader exTwinMap 2 <> shownHeader 2 (visibleCount exTwinMap)
  /\ contains (ToTokenStringEnhanced exTwinMap 2) "shown" = false.
Proof.
  split; [lia |]. split; [vm_compute; reflexivity |].
  split; [vm_compute; discriminate | vm_compute; reflexivity].
Qed.

End Serializer.

(** * Screenshot annotation *)

Module Annotation.
Import Screenshot ScreenshotSpec.

(** ** The empty map *)

(** C9: when the element map handed to [Annotate] is nil or reports zero
    elements, the result is the input bytes, unchanged, and no error,
    whatever the bytes are. *)
Theorem annotate_empty_map_returns_input `{ImageCodec} (imgData : list Byte.byte)
    (elementMap : option ElementMapInterface) (cfg : AnnotationConfig) :
  (elementMap = None \/ exists em, elementMap = Some em /\ Len em = 0) ->
  Annotate imgData elementMap cfg = Ok imgData.
Proof.
  intros [-> | (em & -> & Hlen)]; simpl; [reflexivity |].
  rewrite Hlen. reflexivity.
Qed.

Lemma annotate_empty_map_returns_input_witness :
  (Some exEmptyMap = None \/ exists em, Some exEmptyMap = Some em /\ Len em = 0)
  /\ Annotate [Byte.x89; Byte.x50] (Some exEmptyMap) DefaultAnnotationConfig
     = Ok [Byte.x89; Byte.x50].
Proof.
  assert (Hempty : Some exEmptyMap = None \/ exists em, Some exEmptyMap = Some em /\ Len em = 0).
  { right. exists exEmptyMap. split; reflexivity. }
  split; [exact Hempty |].
  apply (annotate_empty_map_returns_input [Byte.x89; Byte.x50] (Some exEmptyMap)
           DefaultAnnotationConfig Hempty).
Defined.

(** ** Loops *)

Lemma forUp_Forall {A : Type} (P : A -> Prop) (fuel : nat) (cond : Z -> bool) (i : Z)
    (body : Z -> list A) :
  (forall k, i <= k -> cond k = true -> Forall P (body k)) ->
  Forall P (forUp fuel cond i body).
Proof.
  revert i. induction fuel as [|fuel IH]; intros i Hbody; simpl; [constructor |].
  destruct (cond i) eqn:Hc; [| constructor].
  apply Forall_app. split.
  - apply Hbody; [lia | exact Hc].
  - apply IH. intros k Hk. apply Hbody. lia.
Qed.

Lemma forDown_Forall {A : Type} (P : A -> Prop) (fuel : nat) (cond : Z -> bool) (i : Z)
    (body : Z -> list A) :
  (forall k, k <= i -> cond k = true -> Forall P (body k)) ->
  Forall P (forDown fuel cond i body).
Proof.
  revert i. induction fuel as [|fuel IH]; intros i Hbody; simpl; [constructor |].
  destruct (cond i) eqn:Hc; [| constructor].
  apply Forall_app. split.
  - apply Hbody; [lia | exact Hc].
  - apply IH. intros k Hk. apply Hbody. lia.
Qed.

Lemma rangeCalls_Forall {A B : Type} (P : B -> Prop) (l : list A) (i : Z)
    (body : Z -> A -> list B) :
  (forall k v, Forall P (body k v)) -> Forall P (rangeCalls l i body).
Proof.
  intros Hbody. revert i. induction l as [|v l IH]; intros i; simpl; [constructor |].
  apply Forall_app. split; [apply Hbody | apply IH].
Qed.

(** A loop whose condition bounds the counter from above is not cut short
    by its fuel: more fuel changes nothing. *)
Lemma forUp_fuel_enough {A : Type} (cond : Z -> bool) (hi : Z) (body : Z -> list A)
    (fuel : nat) (i : Z) :
  (forall k, cond k = true -> k < hi) ->
  (Z.to_nat (hi - i) <= fuel)%nat ->
  forUp fuel cond i body = forUp (Z.to_nat (hi - i)) cond i body.
Proof.
  intros Hbound. revert i. induction fuel as [|fuel IH]; intros i Hfuel.
  - replace (Z.to_nat (hi - i)) with 0%nat by lia. reflexivity.
  - simpl. destruct (cond i) eqn:Hc.
    + pose proof (Hbound i Hc) as Hlt.
      replace (Z.to_nat (hi - i)) with (S (Z.to_nat (hi - (i + 1)))) by lia.
      simpl. rewrite Hc. f_equal. apply IH. lia.
    + destruct (Z.to_nat (hi - i)); simpl; [reflexivity |]. rewrite Hc. reflexivity.
Qed.

Lemma forDown_fuel_enough {A : Type} (cond : Z -> bool) (lo : Z) (body : Z -> list A)
    (fuel : nat) (i : Z) :
  (forall k, cond k = true -> lo < k) ->
  (Z.to_nat (i - lo) <= fuel)%nat ->
  forDown fuel cond i body = forDown (Z.to_nat (i - lo)) cond i body.
Proof.
  intros Hbound. revert i. induction fuel as [|fuel IH]; intros i Hfuel.
  - replace (Z.to_nat (i - lo)) with 0%nat by lia. reflexivity.
  - simpl. destruct (cond i) eqn:Hc.
    + pose proof (Hbound i Hc) as Hlt.
      replace (Z.to_nat (i - lo)) with (S (Z.to_nat (i - 1 - lo))) by lia.
      simpl. rewrite Hc. f_equal. apply IH. lia.
    + destruct (Z.to_nat (i - lo)); simpl; [reflexivity |]. rewrite Hc. reflexivity.
Qed.

Lemma forUp_more_fuel {A : Type} (cond : Z -> bool) (hi : Z) (body : Z -> list A)
    (fuel fuel' : nat) (i : Z) :
  (forall k, cond k = true -> k < hi) ->
  (Z.to_nat (hi - i) <= fuel)%nat -> (Z.to_nat (hi - i) <= fuel')%nat ->
  forUp fuel cond i body = forUp fuel' cond i body.
Proof.
  intros Hbound Hf Hf'.
  rewrite (forUp_fuel_enough cond hi body fuel i Hbound Hf).
  rewrite (forUp_fuel_enough cond hi body fuel' i Hbound Hf'). reflexivity.
Qed.

Lemma forDown_more_fuel {A : Type} (cond : Z -> bool) (lo : Z) (body : Z -> list A)
    (fuel fuel' : nat) (i : Z) :
  (forall k, cond k = true -> lo < k) ->
  (Z.to_nat (i - lo) <= fuel)%nat -> (Z.to_nat (i - lo) <= fuel')%nat ->
  forDown fuel cond i body = forDown fuel' cond i body.
Proof.
  intros Hbound Hf Hf'.
  rewrite (forDown_fuel_enough cond lo body fuel i Hbound Hf).
  rewrite (forDown_fuel_enough cond lo body fuel' i Hbound Hf'). reflexivity.
Qed.

(** The loops of the drawing functions end by their conditions: with any
    larger number of iterations allowed they make the same calls. *)
Lemma rowCalls_complete (x0 x1 y : Z) (c : Color) (fuel : nat) :
  (Z.to_nat (x1 - x0 + 1) <= fuel)%nat ->
  forUp fuel (fun x => x <=? x1) x0 (fun x => [mkSetCall x y c]) = rowCalls x0 x1 y c.
Proof.
  intros Hfuel. unfold rowCalls.
  apply (forUp_more_fuel _ (x1 + 1)); [intros k Hk; apply Z.leb_le in Hk; lia | lia | lia].
Qed.

Lemma columnCalls_complete (y0 y1 x : Z) (c : Color) (fuel : nat) :
  (Z.to_nat (y1 - y0 + 1) <= fuel)%nat ->
  forUp fuel (fun y => y <=? y1) y0 (fun y => [mkSetCall x y c]) = columnCalls y0 y1 x c.
Proof.
  intros Hfuel. unfold columnCalls.
  apply (forUp_more_fuel _ (y1 + 1)); [intros k Hk; apply Z.leb_le in Hk; lia | lia | lia].
Qed.

Lemma border_up_complete {A : Type} (lo hi limit : Z) (body : Z -> list A) (fuel : nat) :
  (Z.to_nat (hi - lo + 1) <= fuel)%nat ->
  forUp fuel (fun k => (k <? limit) && (k <=? hi)) lo body
  = forUp (Z.to_nat (hi - lo + 1)) (fun k => (k <? limit) && (k <=? hi)) lo body.
Proof.
  intros Hfuel. apply (forUp_more_fuel _ (hi + 1)); [| lia | lia].
  intros k Hk. apply andb_true_iff in Hk as [_ Hk]. apply Z.leb_le in Hk. lia.
Qed.

Lemma border_down_complete {A : Type} (lo hi limit : Z) (body : Z -> list A) (fuel : nat) :
  (Z.to_nat (hi - lo + 1) <= fuel)%nat ->
  forDown fuel (fun k => (limit <? k) && (lo <=? k)) hi body
  = forDown (Z.to_nat (hi - lo + 1)) (fun k => (limit <? k) && (lo <=? k)) hi body.
Proof.
  intros Hfuel. apply (forDown_more_fuel _ (lo - 1)); [| lia | lia].
  intros k Hk. apply andb_true_iff in Hk as [_ Hk]. apply Z.leb_le in Hk. lia.
Qed.

Lemma label_loop_complete {A : Type} (start limit max : Z) (body : Z -> list A)
    (fuel : nat) :
  (Z.to_nat (max - start) <= fuel)%nat ->
  forUp fuel (fun k => (k <? limit) && (k <? max)) start body
  = forUp (Z.to_nat (max - start)) (fun k => (k <? limit) && (k <? max)) start body.
Proof.
  intros Hfuel. apply (forUp_more_fuel _ max); [| lia | lia].
  intros k Hk. apply andb_true_iff in Hk as [_ Hk]. apply Z.ltb_lt in Hk. lia.
Qed.

Lemma cell_loop_complete {A : Type} (n : Z) (body : Z -> list A) (fuel : nat) :
  (Z.to_nat n <= fuel)%nat ->
  forUp fuel (fun k => k <? n) 0 body = forUp (Z.to_nat n) (fun k => k <? n) 0 body.
Proof.
  intros Hfuel. apply (forUp_more_fuel _ n); [| lia | lia].
  intros k Hk. apply Z.ltb_lt in Hk. lia.
Qed.

(** ** Arithmetic *)

Lemma wrap_small (z : Z) : Float64.minInt <= z < 2 ^ 63 -> Int.wrap z = z.
Proof.
  unfold Float64.minInt, Int.wrap. intros Hz.
  rewrite Z.mod_small by lia. lia.
Qed.

Lemma clamp_between (val lo hi : Z) : lo <= hi -> lo <= clamp val lo hi <= hi.
Proof.
  intros Hle. unfold clamp.
  destruct (val <? lo) eqn:H1; [lia |]. apply Z.ltb_ge in H1.
  destruct (hi <? val) eqn:H2; [lia |]. apply Z.ltb_ge in H2. lia.
Qed.

(** ** The border *)

Lemma boxCorners_inside (bounds : Rectangle) (bbox : BoundingBoxInfo) (x0 y0 x1 y1 : Z) :
  properRect bounds ->
  boxCorners bounds bbox = (x0, y0, x1, y1) ->
  MinX bounds <= x0 < MaxX bounds /\ MinX bounds <= x1 < MaxX bounds
  /\ MinY bounds <= y0 < MaxY bounds /\ MinY bounds <= y1 < MaxY bounds.
Proof.
  intros (Hx0 & Hx & Hx1 & Hy0 & Hy & Hy1). unfold boxCorners, Int.sub.
  rewrite !wrap_small by (unfold Float64.minInt in *; lia).
  intros [= <- <- <- <-].
  repeat match goal with
         | |- context [clamp ?v ?lo ?hi] =>
             let Hc := fresh "Hc" in
             pose proof (clamp_between v lo hi ltac:(lia)) as Hc;
             generalize dependent (clamp v lo hi); intros
         end.
  lia.
Qed.

Lemma rowCalls_Forall (x0 x1 y : Z) (c : Color) :
  Forall (fun call => x0 <= sx call <= x1 /\ sy call = y) (rowCalls x0 x1 y c).
Proof.
  unfold rowCalls. apply forUp_Forall. intros k Hk Hc.
  apply Z.leb_le in Hc. repeat constructor; simpl; lia.
Qed.

Lemma columnCalls_Forall (y0 y1 x : Z) (c : Color) :
  Forall (fun call => y0 <= sy call <= y1 /\ sx call = x) (columnCalls y0 y1 x c).
Proof.
  unfold columnCalls. apply forUp_Forall. intros k Hk Hc.
  apply Z.leb_le in Hc. repeat constructor; simpl; lia.
Qed.

Lemma drawBoundingBox_inside (bounds : Rectangle) (bbox : BoundingBoxInfo) (c : Color)
    (borderWidth : Z) :
  properRect bounds ->
  Forall (inside bounds) (drawBoundingBoxFromInfo bounds bbox c borderWidth).
Proof.
  intros Hrect. unfold drawBoundingBoxFromInfo.
  destruct (boxCorners bounds bbox) as [[[x0 y0] x1] y1] eqn:Hcorners.
  destruct (boxCorners_inside bounds bbox x0 y0 x1 y1 Hrect Hcorners)
    as (Hx0 & Hx1 & Hy0 & Hy1).
  repeat (apply Forall_app; split).
  - apply forUp_Forall. intros y Hy Hc. apply andb_true_iff in Hc as [_ Hc].
    apply Z.leb_le in Hc.
    eapply Forall_impl; [apply rowCalls_Forall |]. intros call [Hsx Hsy].
    unfold inside. lia.
  - apply forDown_Forall. intros y Hy Hc. apply andb_true_iff in Hc as [_ Hc].
    apply Z.leb_le in Hc.
    eapply Forall_impl; [apply rowCalls_Forall |]. intros call [Hsx Hsy].
    unfold inside. lia.
  - apply forUp_Forall. intros x Hx Hc. apply andb_true_iff in Hc as [_ Hc].
    apply Z.leb_le in Hc.
    eapply Forall_impl; [apply columnCalls_Forall |]. intros call [Hsy Hsx].
    unfold inside. lia.
  - apply forDown_Forall. intros x Hx Hc. apply andb_true_iff in Hc as [_ Hc].
    apply Z.leb_le in Hc.
    eapply Forall_impl; [apply columnCalls_Forall |]. intros call [Hsy Hsx].
    unfold inside. lia.
Qed.

(** ** The label and the digits *)

Lemma labelBackground_inside (bounds : Rectangle) (labelX labelY labelWidth labelHeight : Z)
    (c : Color) :
  Forall (inside bounds) (labelBackground bounds labelX labelY labelWidth labelHeight c).
Proof.
  unfold labelBackground. apply forUp_Forall. intros y _ Hy.
  apply andb_true_iff in Hy as [_ Hy]. apply Z.ltb_lt in Hy.
  apply forUp_Forall. intros x _ Hx.
  apply andb_true_iff in Hx as [_ Hx]. apply Z.ltb_lt in Hx.
  destruct ((MinX bounds <=? x) && (MinY bounds <=? y)) eqn:Hmin; [| constructor].
  apply andb_true_iff in Hmin as [Hmx Hmy]. apply Z.leb_le in Hmx, Hmy.
  repeat constructor; simpl; lia.
Qed.

Lemma cellCalls_inside (bounds : Rectangle) (px py : Z) (scaleX scaleY : float) (c : Color) :
  Forall (inside bounds) (cellCalls bounds px py scaleX scaleY c).
Proof.
  unfold cellCalls. apply forUp_Forall. intros dy _ _.
  apply forUp_Forall. intros dx _ _.
  match goal with |- Forall _ (if ?g then _ else _) => destruct g eqn:Hg end;
    [| constructor].
  repeat (apply andb_true_iff in Hg as [Hg ?]).
  repeat match goal with
         | Hle : (_ <=? _) = true |- _ => apply Z.leb_le in Hle
         | Hlt : (_ <? _) = true |- _ => apply Z.ltb_lt in Hlt
         end.
  repeat constructor; simpl; lia.
Qed.

Lemma drawDigit_inside (bounds : Rectangle) (digit x y width height : Z) (c : Color) :
  Forall (inside bounds) (drawDigit bounds digit x y width height c).
Proof.
  unfold drawDigit. destruct ((digit <? 0) || (9 <? digit)); [constructor |].
  apply rangeCalls_Forall. intros row line.
  apply rangeCalls_Forall. intros col ch.
  destruct (Ascii.eqb ch "1"); [apply cellCalls_inside | constructor].
Qed.

Lemma labelChars_inside (bounds : Rectangle) (chars : list ascii)
    (textX textY charWidth charHeight : Z) (c : Color) :
  Forall (inside bounds) (labelChars bounds chars textX textY charWidth charHeight c).
Proof.
  revert textX. induction chars as [|char chars IH]; intros textX; simpl; [constructor |].
  apply Forall_app. split; [| apply IH].
  destruct (_ && _); [apply drawDigit_inside | constructor].
Qed.

Lemma drawIndexLabel_inside (bounds : Rectangle) (index : Z) (bbox : BoundingBoxInfo)
    (cfg : AnnotationConfig) :
  Forall (inside bounds) (drawIndexLabelFromInfo bounds index bbox cfg).
Proof.
  unfold drawIndexLabelFromInfo.
  destruct (labelBox bounds index bbox cfg) as [[[labelX labelY] labelWidth] labelHeight].
  apply Forall_app. split; [apply labelBackground_inside | apply labelChars_inside].
Qed.

(** C10: on an image that has a pixel, every call of [Set] made while
    annotating - by the border, the label background and the digits -
    addresses a pixel of the image, for all elements, boxes, indices and
    configurations. *)
Theorem annotation_writes_inside (bounds : Rectangle) (cfg : AnnotationConfig)
    (els : list ElementInfo) :
  properRect bounds ->
  Forall (inside bounds) (annotationCalls bounds cfg els).
Proof.
  intros Hrect. unfold annotationCalls.
  induction els as [|el els IH]; simpl; [constructor |].
  apply Forall_app. split; [| exact IH].
  unfold annotateElement.
  destruct (negb (GetIsVisible el) || GetIsEmpty (GetBoundingBox el)); [constructor |].
  apply Forall_app. split; [apply drawBoundingBox_inside; exact Hrect |].
  destruct (ShowLabels cfg); [| constructor].
  destruct (_ && _); [constructor | apply drawIndexLabel_inside].
Qed.

Lemma exRect_proper : properRect exRect.
Proof. unfold properRect, exRect, Float64.minInt. simpl. lia. Qed.

Lemma annotation_writes_inside_witness :
  properRect exRect
  /\ Forall (inside exRect) (annotationCalls exRect DefaultAnnotationConfig [exWide]).
Proof.
  split; [exact exRect_proper |].
  apply (annotation_writes_inside exRect DefaultAnnotationConfig [exWide] exRect_proper).
Defined.

(** The sample element makes the annotation write: its border is clamped
    to the right edge and the top edge of the image. *)
Lemma exWide_border_reaches_edges :
  boxCorners exRect (GetBoundingBox exWide) = (150, 0, 199, 35)
  /\ length (annotationCalls exRect DefaultAnnotationConfig [exWide]) <> 0%nat.
Proof. split; [vm_compute; reflexivity | vm_compute; discriminate]. Qed.

End Annotation.

(** * Further properties of package [dom] *)

Module Classifier.
Import Dom DomSpec MoreSpec.

Lemma inSet_true (key : string) (set : list string) :
  inSet key set = true <-> key ∈ set.
Proof.
  unfold inSet. rewrite existsb_exists. split.
  - intros (x & Hin & Heq). apply String.eqb_eq in Heq as ->.
    apply list_elem_of_In. exact Hin.
  - intros Hin. exists key. split; [apply list_elem_of_In; exact Hin |].
    apply String.eqb_refl.
Qed.

Lemma axAssertsInteractive_true (axNode : CDPAXNode) :
  axAssertsInteractive axNode = true <->
  axHoldsTrue axNode "focusable" \/ axHoldsTrue axNode "editable".
Proof.
  unfold axAssertsInteractive, axHoldsTrue. rewrite existsb_exists. split.
  - intros (prop & Hin & Hp). apply list_elem_of_In in Hin.
    destruct (prop_Value prop) as [v|] eqn:Hv; [| discriminate].
    destruct (String.eqb (prop_Name prop) "focusable") eqn:Hf; simpl in Hp.
    + apply String.eqb_eq in Hf. destruct (Value v) as [[|]| |] eqn:Hval; try discriminate.
      left. exists prop, v. auto.
    + destruct (String.eqb (prop_Name prop) "editable") eqn:He; [| discriminate].
      apply String.eqb_eq in He. destruct (Value v) as [[|]| |] eqn:Hval; try discriminate.
      right. exists prop, v. auto.
  - intros [(prop & v & Hin & Hn & Hv & Hval) | (prop & v & Hin & Hn & Hv & Hval)];
      exists prop; (split; [apply list_elem_of_In; exact Hin |]);
      rewrite Hv, Hn, Hval; reflexivity.
Qed.

(** X1: an element is classified interactive exactly when one of the
    tiers fires: the tag is an interactive tag, the role is an
    interactive role, there is a click handler, the tabindex is present
    and not -1, the accessibility node holds focusable or editable as the
    boolean true, or the cursor is the pointer. *)
Theorem interactive_iff_some_tier (tagName role : string) (hasOnclick : bool)
    (tabindex cursor : string) (axNode : option CDPAXNode) :
  isElementInteractiveWithCursor tagName role hasOnclick tabindex cursor axNode = true <->
  tagName ∈ interactiveTags
  \/ role ∈ interactiveRoles
  \/ hasOnclick = true
  \/ (tabindex <> ""%string /\ tabindex <> "-1"%string)
  \/ (exists n, axNode = Some n
                /\ (axHoldsTrue n "focusable" \/ axHoldsTrue n "editable"))
  \/ cursor = "pointer"%string.
Proof.
  unfold isElementInteractiveWithCursor, isElementInteractive.
  rewrite <- !inSet_true.
  destruct (inSet tagName interactiveTags); [tauto |].
  destruct (inSet role interactiveRoles); [tauto |].
  destruct hasOnclick; [tauto |].
  assert (Htab : negb (String.eqb tabindex "") && negb (String.eqb tabindex "-1") = true
                 <-> tabindex <> ""%string /\ tabindex <> "-1"%string).
  { rewrite andb_true_iff, !negb_true_iff, !String.eqb_neq. reflexivity. }
  destruct (negb (String.eqb tabindex "") && negb (String.eqb tabindex "-1"));
    [tauto |].
  assert (Hax : match axNode with Some n => axAssertsInteractive n | None => false end = true
                <-> exists n, axNode = Some n
                      /\ (axHoldsTrue n "focusable" \/ axHoldsTrue n "editable")).
  { destruct axNode as [axn|].
    - rewrite axAssertsInteractive_true. split; [eauto |].
      intros (n' & [= <-] & Hn). exact Hn.
    - split; [discriminate | intros (n' & Hn & _); discriminate]. }
  destruct (match axNode with Some n => axAssertsInteractive n | None => false end);
    [tauto |].
  destruct (String.eqb_spec cursor "pointer"); intuition congruence.
Qed.

End Classifier.

Module AXMerge.
Import Dom DomSpec MoreSpec.

Lemma sameOutsideAX_refl e : sameOutsideAX e e.
Proof. unfold sameOutsideAX. repeat split. Qed.

Lemma sameOutsideAX_trans a b c :
  sameOutsideAX a b -> sameOutsideAX b c -> sameOutsideAX a c.
Proof. unfold sameOutsideAX. intros Hab Hbc. intuition congruence. Qed.

Lemma mergeAXProperty_same (el : EnhancedElement) (prop : AXProperty) :
  sameOutsideAX (mergeAXProperty el prop) el
  /\ Name (base (mergeAXProperty el prop)) = Name (base el)
  /\ Role (base (mergeAXProperty el prop)) = Role (base el).
Proof.
  unfold mergeAXProperty, sameOutsideAX. repeat case_match; repeat split; reflexivity.
Qed.

Lemma mergeAXProperty_IsEnabled (el : EnhancedElement) (prop : AXProperty) :
  IsEnabled (base (mergeAXProperty el prop))
  = IsEnabled (base el) && negb (disablesBy prop).
Proof.
  unfold mergeAXProperty, disablesBy.
  destruct (prop_Value prop) as [v|]; [| rewrite andb_true_r; reflexivity].
  destruct (asBool (Value v)) as [val|]; [| rewrite andb_false_r, andb_true_r; reflexivity].
  destruct (String.eqb_spec (prop_Name prop) "focusable") as [->|_];
    [simpl; rewrite andb_true_r; reflexivity |].
  destruct (String.eqb_spec (prop_Name prop) "editable") as [->|_];
    [simpl; rewrite andb_true_r; reflexivity |].
  destruct (String.eqb_spec (prop_Name prop) "expanded") as [->|_];
    [simpl; rewrite andb_true_r; reflexivity |].
  destruct (String.eqb_spec (prop_Name prop) "checked") as [->|_];
    [simpl; rewrite andb_true_r; reflexivity |].
  destruct (String.eqb_spec (prop_Name prop) "selected") as [->|_];
    [simpl; rewrite andb_true_r; reflexivity |].
  destruct (String.eqb_spec (prop_Name prop) "required") as [->|_];
    [simpl; rewrite andb_true_r; reflexivity |].
  destruct (String.eqb_spec (prop_Name prop) "disabled") as [_|_].
  - destruct val; simpl; [rewrite andb_false_r | rewrite andb_true_r]; reflexivity.
  - simpl. rewrite andb_true_r. reflexivity.
Qed.

Lemma merge_fold_same (props : list AXProperty) (el : EnhancedElement) :
  sameOutsideAX (foldl mergeAXProperty el props) el
  /\ Name (base (foldl mergeAXProperty el props)) = Name (base el)
  /\ Role (base (foldl mergeAXProperty el props)) = Role (base el).
Proof.
  revert el. induction props as [|p props IH]; intros el; simpl.
  - split; [apply sameOutsideAX_refl | auto].
  - destruct (IH (mergeAXProperty el p)) as (Hs & Hn & Hr).
    destruct (mergeAXProperty_same el p) as (Hs' & Hn' & Hr').
    split; [eapply sameOutsideAX_trans; eauto | split; congruence].
Qed.

Lemma merge_fold_IsEnabled (props : list AXProperty) (el : EnhancedElement) :
  IsEnabled (base (foldl mergeAXProperty el props))
  = IsEnabled (base el) && negb (existsb disablesBy props).
Proof.
  revert el. induction props as [|p props IH]; intros el; simpl.
  - rewrite andb_true_r. reflexivity.
  - rewrite IH, mergeAXProperty_IsEnabled, negb_orb, andb_assoc. reflexivity.
Qed.

Lemma existsb_disablesBy (axNode : CDPAXNode) :
  existsb disablesBy (Properties axNode) = true <-> axHoldsTrue axNode "disabled".
Proof.
  unfold axHoldsTrue. rewrite existsb_exists. split.
  - intros (prop & Hin & Hd). apply list_elem_of_In in Hin. unfold disablesBy in Hd.
    destruct (prop_Value prop) as [v|] eqn:Hv; [| discriminate].
    apply andb_true_iff in Hd as [Hn Hb]. apply String.eqb_eq in Hn.
    destruct (Value v) as [[|]| |] eqn:Hval; try discriminate.
    exists prop, v. auto.
  - intros (prop & v & Hin & Hn & Hv & Hval). exists prop.
    split; [apply list_elem_of_In; exact Hin |].
    unfold disablesBy. rewrite Hv, Hn, Hval. reflexivity.
Qed.

(** The three assignments before the loop touch the name, the role and
    the description only. *)
Lemma mergeAXInfo_unfold (el : EnhancedElement) (axNode : CDPAXNode) :
  exists el0,
    mergeAXInfo el axNode = foldl mergeAXProperty el0 (Properties axNode)
    /\ sameOutsideAX el0 el
    /\ IsEnabled (base el0) = IsEnabled (base el)
    /\ (Name (base el) <> ""%string -> Name (base el0) = Name (base el))
    /\ (Role (base el) <> ""%string -> Role (base el0) = Role (base el)).
Proof.
  unfold mergeAXInfo. eexists. split; [reflexivity |].
  repeat case_match; simpl in *;
    repeat match goal with
           | Heq : String.eqb _ _ = true |- _ => apply String.eqb_eq in Heq
           end;
    unfold sameOutsideAX; simpl; repeat split; try reflexivity; intros; congruence.
Qed.

(** X2: merging accessibility data changes neither the tag, the text
    fields, the visibility, the interactivity, the box, the selector, the
    index, the backend ids, the paint order nor the filter flags of an
    element, and it keeps a name and a role that are not empty. *)
Theorem mergeAXInfo_keeps_fields (el : EnhancedElement) (axNode : CDPAXNode) :
  sameOutsideAX (mergeAXInfo el axNode) el
  /\ (Name (base el) <> ""%string ->
      Name (base (mergeAXInfo el axNode)) = Name (base el))
  /\ (Role (base el) <> ""%string ->
      Role (base (mergeAXInfo el axNode)) = Role (base el)).
Proof.
  destruct (mergeAXInfo_unfold el axNode) as (el0 & -> & Hs & _ & Hn & Hr).
  destruct (merge_fold_same (Properties axNode) el0) as (Hs' & Hn' & Hr').
  split; [eapply sameOutsideAX_trans; eauto |].
  split; intros Hne; [rewrite Hn' | rewrite Hr']; auto.
Qed.

(** X3: after the merge an element is enabled exactly when it was enabled
    before and the accessibility node holds no property [disabled] with
    the boolean true; the merge never enables an element. *)
Theorem mergeAXInfo_enabled_iff (el : EnhancedElement) (axNode : CDPAXNode) :
  IsEnabled (base (mergeAXInfo el axNode)) = true <->
  IsEnabled (base el) = true /\ ~ axHoldsTrue axNode "disabled".
Proof.
  destruct (mergeAXInfo_unfold el axNode) as (el0 & -> & _ & He & _).
  rewrite merge_fold_IsEnabled, He, andb_true_iff, negb_true_iff.
  rewrite <- existsb_disablesBy.
  destruct (existsb disablesBy (Properties axNode)); intuition congruence.
Qed.

End AXMerge.

Module Attributes.
Import Dom DomSpec MoreSpec.

(** Induction over a list two elements at a time. *)
Lemma pair_ind {A : Type} (P : list A -> Prop) :
  P [] -> (forall a, P [a]) -> (forall a b l, P l -> P (a :: b :: l)) ->
  forall l, P l.
Proof.
  intros Hnil Hone Hstep l.
  assert (Hboth : P l /\ forall a, P (a :: l)); [| tauto].
  induction l as [|x l [IH1 IH2]]; split; auto.
Qed.

Lemma getString_valid (stringsArr : list string) (idx : Z) :
  0 <= idx < Z.of_nat (length stringsArr) ->
  getString stringsArr idx = default ""%string (stringsArr !! Z.to_nat idx).
Proof.
  intros [Hlo Hhi]. unfold getString.
  apply Z.leb_le in Hlo. apply Z.ltb_lt in Hhi. rewrite Hlo, Hhi. reflexivity.
Qed.

Lemma scanAttrs_firstValue (stringsArr : list string) (attrs : list Z) (attrName : string) :
  validIndices stringsArr attrs ->
  scanAttrs stringsArr attrs attrName = firstValue (decodePairs stringsArr attrs) attrName.
Proof.
  unfold validIndices. induction attrs as [| a | nameIdx valueIdx rest IH] using pair_ind;
    intros Hvalid; [reflexivity | reflexivity |].
  apply Forall_cons in Hvalid as [Hn Hvalid]. apply Forall_cons in Hvalid as [Hv Hvalid].
  simpl. rewrite !getString_valid by assumption.
  destruct Hn as [Hn0 Hn1], Hv as [Hv0 Hv1].
  apply Z.leb_le in Hn0, Hv0. apply Z.ltb_lt in Hn1, Hv1.
  rewrite Hn0, Hn1, Hv0, Hv1. simpl.
  destruct (String.eqb _ attrName); [reflexivity | apply IH; exact Hvalid].
Qed.

(** X4: when every index of a node's attribute list points into the
    string table, [getAttr] returns the value of the first attribute of
    the given name, and the empty string when the node has no attribute
    of that name; a later attribute of the same name is never read. *)
Theorem getAttr_first_value (doc : SnapshotDocument) (nodeIdx : nat) (attrs : list Z)
    (attrName : string) :
  n_Attributes (Nodes doc) !! nodeIdx = Some attrs ->
  validIndices (Strings doc) attrs ->
  getAttr doc nodeIdx attrName = firstValue (decodePairs (Strings doc) attrs) attrName.
Proof.
  intros Hattrs Hvalid. unfold getAttr. rewrite Hattrs.
  apply scanAttrs_firstValue. exact Hvalid.
Qed.

Lemma getAttr_first_value_witness :
  n_Attributes (Nodes exDisabledDoc) !! 0%nat = Some [1; 2]
  /\ validIndices (Strings exDisabledDoc) [1; 2]
  /\ getAttr exDisabledDoc 0 "disabled"
     = firstValue (decodePairs (Strings exDisabledDoc) [1; 2]) "disabled".
Proof.
  assert (Hvalid : validIndices (Strings exDisabledDoc) [1; 2]).
  { unfold validIndices. repeat constructor; simpl; lia. }
  split; [reflexivity |]. split; [exact Hvalid |].
  apply (getAttr_first_value exDisabledDoc 0 [1; 2] "disabled" eq_refl Hvalid).
Defined.

End Attributes.

Module Parsed.
Import Dom DomSpec MoreSpec.

Lemma readLayout_visible (doc : SnapshotDocument) (layoutIdx : nat) :
  li_isVisible (readLayout doc layoutIdx) = true ->
  exists b, li_bbox (readLayout doc layoutIdx) = Some b
            /\ Float64.gt (Width b) PrimFloat.zero = true
            /\ Float64.gt (Height b) PrimFloat.zero = true.
Proof.
  unfold readLayout.
  destruct (l_Bounds (Layout doc) !! layoutIdx) as [[|x [|y [|w [|h rest]]]]|];
    destruct (l_ScrollRects (Layout doc) !! layoutIdx) as [[|? [|? [|? [|? ?]]]]|];
    destruct (l_ClientRects (Layout doc) !! layoutIdx) as [[|? [|? [|? [|? ?]]]]|];
    simpl; repeat case_match; try discriminate;
    intros Hv; apply andb_true_iff in Hv as [Hw Hh]; eexists; eauto.
Qed.

Lemma mergeAXInfo_same (el : EnhancedElement) (axNode : CDPAXNode) :
  sameOutsideAX (mergeAXInfo el axNode) el.
Proof.
  destruct (AXMerge.mergeAXInfo_unfold el axNode) as (el0 & -> & Hs & _).
  destruct (AXMerge.merge_fold_same (Properties axNode) el0) as (Hs' & _).
  eapply AXMerge.sameOutsideAX_trans; eauto.
Qed.

Section WithEnv.
Context `{GoEnv}.

Lemma parseNode_facts (doc : SnapshotDocument) (layoutLookup : gmap Z nat)
    (axLookup : gmap Z CDPAXNode) (i : nat) (el : EnhancedElement) :
  parseNode doc layoutLookup axLookup i = Some el -> candidateFacts el.
Proof.
  unfold parseNode. cbv zeta.
  destruct (n_NodeType (Nodes doc) !! i) as [nodeType|]; [| discriminate].
  destruct (negb (nodeType =? 1)); [discriminate |].
  destruct (shouldProcessTag _) eqn:Htag; simpl; [| discriminate].
  intros [= <-].
  set (li := match layoutLookup !! Z.of_nat i with
             | Some layoutIdx => readLayout doc layoutIdx
             | None => noLayout
             end).
  assert (Hli : li_isVisible li = true ->
                exists b, li_bbox li = Some b
                          /\ Float64.gt (Width b) PrimFloat.zero = true
                          /\ Float64.gt (Height b) PrimFloat.zero = true).
  { unfold li. destruct (layoutLookup !! Z.of_nat i); [apply readLayout_visible |].
    simpl. discriminate. }
  clearbody li.
  match goal with
  | |- candidateFacts
         (match _ with Some b => with_base (set_Bounds b) ?e2 | None => ?e2 end) =>
      set (E2 := e2)
  end.
  assert (He2 : shouldProcessTag (TagName (base E2)) = true
                /\ Elem_BackendNodeID (base E2) = 0
                /\ IsVisible (base E2) = li_isVisible li);
    [unfold E2; clear E2 | clearbody E2; destruct He2 as (Ht & Hid & Hvis)].
  - match goal with
    | |- context [if _ then with_base _ ?e1 else if _ then with_base _ ?e1 else ?e1] =>
        set (E1 := e1)
    end.
    assert (He1 : shouldProcessTag (TagName (base E1)) = true
                  /\ Elem_BackendNodeID (base E1) = 0
                  /\ IsVisible (base E1) = li_isVisible li);
      [unfold E1; clear E1 | clearbody E1; repeat case_match; exact He1].
    destruct (axLookup !! _) as [axNode|]; [| repeat split; exact Htag].
    match goal with
    | |- context [mergeAXInfo ?e0 axNode] =>
        destruct (mergeAXInfo_same e0 axNode)
          as (-> & _ & _ & _ & _ & _ & -> & _ & _ & _ & _ & -> & _)
    end.
    repeat split; exact Htag.
  - unfold candidateFacts, bbox.
    destruct (li_bbox li) as [b|] eqn:Hb; simpl.
    + split; [exact Ht |]. split; [exact Hid |].
      intros Hv. rewrite Hvis in Hv.
      destruct (Hli Hv) as (b' & [= <-] & Hw & Hh). split; assumption.
    + split; [exact Ht |]. split; [exact Hid |].
      intros Hv. rewrite Hvis in Hv.
      destruct (Hli Hv) as (b' & Hb' & _). discriminate.
Qed.

Lemma candidateFacts_flags (e : EnhancedElement) :
  candidateFacts e ->
  candidateFacts (set_IsOccluded true e) /\ candidateFacts (set_IsContained true e).
Proof. intros He. split; exact He. Qed.

(** A property of the candidates that the two marking passes cannot
    break holds of everything the parser returns. *)
Lemma parsedElements_Forall (P : EnhancedElement -> Prop) (doc : SnapshotDocument)
    (axLookup : gmap Z CDPAXNode) :
  (forall less l, sort_Slice less l ≡ₚ l) ->
  (forall e, P e -> P (set_IsOccluded true e)) ->
  (forall e, P e -> P (set_IsContained true e)) ->
  (forall layoutLookup i el, parseNode doc layoutLookup axLookup i = Some el -> P el) ->
  Forall P (parsedElements doc axLookup).
Proof.
  intros Hperm Hocc Hcon Hnode. unfold parsedElements.
  assert (Hnodes : Forall P (sort_Slice paintOrderLess (parseNodes doc axLookup))).
  { rewrite Hperm. apply Forall_forall. intros el Hel. unfold parseNodes in Hel.
    apply list_elem_of_omap in Hel as (i & _ & Hi). exact (Hnode _ _ _ Hi). }
  revert Hnodes. generalize (sort_Slice paintOrderLess (parseNodes doc axLookup)).
  intros l Hl.
  assert (Hmarked : Forall P (markOccludedElements l)).
  { apply Forall_lookup. intros i e' He'.
    rewrite Geometry.markOccluded_imap, list_lookup_imap in He'.
    destruct (l !! i) as [e|] eqn:Hi; simplify_eq/=.
    rewrite Forall_lookup in Hl. specialize (Hl i e Hi).
    unfold occludeOne. repeat case_match; auto. }
  revert Hmarked. generalize (markOccludedElements l). clear l Hl. intros l Hl.
  apply Forall_lookup. intros i e' He'.
  rewrite Geometry.markContained_imap, list_lookup_imap in He'.
  destruct (l !! i) as [e|] eqn:Hi; simplify_eq/=.
  rewrite Forall_lookup in Hl. specialize (Hl i e Hi).
  unfold containedAfter. case_match; auto.
Qed.

(** Where an element of a map extracted from a parsed snapshot comes
    from. *)
Lemma snapshot_element_origin (page : Page) (prev : option EnhancedElementMap)
    (doc : SnapshotDocument) (m : EnhancedElementMap) (e : EnhancedElement) :
  snapshotParsed page doc ->
  ExtractEnhancedElementMap page prev = Some m ->
  e ∈ Elements m ->
  exists (x : EnhancedElement) (k : nat),
    x ∈ parsedElements doc (axLookupOf page)
    /\ keeps x = true
    /\ Elements m !! k = Some e
    /\ e = finalize (PreviousNodeIDs (startMap page prev)) (bool_decide (is_Some prev))
             (Z.of_nat k) x.
Proof.
  intros Hsnap Hex He.
  rewrite (Extraction.extract_snapshot_path page prev doc Hsnap) in Hex.
  injection Hex as <-.
  destruct (Extraction.filterAndIndex_spec (bool_decide (is_Some prev)) (startMap page prev)
              (parsedElements doc (axLookupOf page))
              (Extraction.startMap_Elements page prev)) as (Hels & _).
  apply list_elem_of_lookup in He as [k Hk]. pose proof Hk as Hk'.
  rewrite Hels, list_lookup_imap in Hk.
  destruct (filter _ _ !! k) as [x|] eqn:Hx; simplify_eq/=.
  apply list_elem_of_lookup_2, list_elem_of_filter in Hx as [Hkeep Hin].
  exists x, k. auto.
Qed.

Lemma finalize_base p hp idx el :
  base (finalize p hp idx el) = set_Index idx (base el).
Proof. unfold finalize. cbv zeta. case_match; reflexivity. Qed.

(** X5: every element of a map extracted from a parsed snapshot has one
    of the tags the parser processes - an interactive tag or one of the
    thirteen container tags; an element with any other tag is never
    listed, whatever its role or handlers. *)
Theorem snapshot_elements_have_processed_tag (page : Page)
    (prev : option EnhancedElementMap) (doc : SnapshotDocument)
    (m : EnhancedElementMap) (e : EnhancedElement) :
  (forall less l, sort_Slice less l ≡ₚ l) ->
  snapshotParsed page doc ->
  ExtractEnhancedElementMap page prev = Some m ->
  e ∈ Elements m ->
  shouldProcessTag (TagName (base e)) = true.
Proof.
  intros Hperm Hsnap Hex He.
  destruct (snapshot_element_origin page prev doc m e Hsnap Hex He)
    as (x & k & Hx & _ & _ & ->).
  rewrite finalize_base. simpl.
  pose proof (parsedElements_Forall candidateFacts doc (axLookupOf page) Hperm
                (fun e He => proj1 (candidateFacts_flags e He))
                (fun e He => proj2 (candidateFacts_flags e He))
                (fun ll i el => parseNode_facts doc ll (axLookupOf page) i el)) as Hall.
  rewrite Forall_forall in Hall. apply (Hall x Hx).
Qed.

(** X6: every element of a map extracted from a parsed snapshot is
    visible and has a box of positive width and positive height. *)
Theorem snapshot_elements_have_box (page : Page)
    (prev : option EnhancedElementMap) (doc : SnapshotDocument)
    (m : EnhancedElementMap) (e : EnhancedElement) :
  (forall less l, sort_Slice less l ≡ₚ l) ->
  snapshotParsed page doc ->
  ExtractEnhancedElementMap page prev = Some m ->
  e ∈ Elements m ->
  IsVisible (base e) = true
  /\ Float64.gt (Width (bbox e)) PrimFloat.zero = true
  /\ Float64.gt (Height (bbox e)) PrimFloat.zero = true.
Proof.
  intros Hperm Hsnap Hex He.
  destruct (snapshot_element_origin page prev doc m e Hsnap Hex He)
    as (x & k & Hx & Hkeep & _ & ->).
  unfold bbox. rewrite finalize_base. simpl.
  pose proof (parsedElements_Forall candidateFacts doc (axLookupOf page) Hperm
                (fun e He => proj1 (candidateFacts_flags e He))
                (fun e He => proj2 (candidateFacts_flags e He))
                (fun ll i el => parseNode_facts doc ll (axLookupOf page) i el)) as Hall.
  rewrite Forall_forall in Hall. destruct (Hall x Hx) as (_ & _ & Hbox).
  destruct (Extraction.keeps_true x Hkeep) as (_ & _ & _ & Hv).
  split; [exact Hv | exact (Hbox Hv)].
Qed.

(** X7: in a map extracted from a parsed snapshot the serializer never
    finds the enhanced element of a line: the lookup goes by the backend
    id of the embedded [Element], which the parser leaves unset, so the
    line of an element is written without the marker of a new element
    and without the scroll marker, as for a map with an empty table. *)
Theorem snapshot_lines_without_markers (page : Page)
    (prev : option EnhancedElementMap) (doc : SnapshotDocument)
    (m : EnhancedElementMap) (e : EnhancedElement) :
  (forall less l, sort_Slice less l ≡ₚ l) ->
  snapshotParsed page doc ->
  ExtractEnhancedElementMap page prev = Some m ->
  e ∈ Elements m ->
  BackendNodeMap m !! Elem_BackendNodeID (base e) = None
  /\ tokenLine m (base e) = tokenLine NewEnhancedElementMap (base e).
Proof.
  intros Hperm Hsnap Hex He.
  assert (Hid : Elem_BackendNodeID (base e) = 0).
  { destruct (snapshot_element_origin page prev doc m e Hsnap Hex He)
      as (x & k & Hx & _ & _ & ->).
    rewrite finalize_base. simpl.
    pose proof (parsedElements_Forall candidateFacts doc (axLookupOf page) Hperm
                  (fun e He => proj1 (candidateFacts_flags e He))
                  (fun e He => proj2 (candidateFacts_flags e He))
                  (fun ll i el => parseNode_facts doc ll (axLookupOf page) i el)) as Hall.
    rewrite Forall_forall in Hall. apply (Hall x Hx). }
  assert (Hnone : BackendNodeMap m !! Elem_BackendNodeID (base e) = None).
  { rewrite (Extraction.extract_snapshot_path page prev doc Hsnap) in Hex.
    injection Hex as <-.
    destruct (Extraction.filterAndIndex_spec (bool_decide (is_Some prev))
                (startMap page prev) (parsedElements doc (axLookupOf page))
                (Extraction.startMap_Elements page prev)) as (_ & _ & _ & Htr).
    rewrite (Htr (Extraction.startMap_tracks page prev) (Elem_BackendNodeID (base e))).
    rewrite Hid. reflexivity. }
  split; [exact Hnone |].
  unfold tokenLine. cbv zeta. rewrite Hnone. simpl. rewrite lookup_empty. reflexivity.
Qed.

End WithEnv.

Lemma exTwinFirst_listed : exTwinFirst ∈ Elements exTwinMap.
Proof. apply list_elem_of_lookup. exists 0%nat. vm_compute. reflexivity. Qed.

Lemma snapshot_elements_have_processed_tag_witness :
  (forall less l, sort_Slice less l ≡ₚ l)
  /\ snapshotParsed exTwinPage exTwinDoc
  /\ ExtractEnhancedElementMap exTwinPage (Some NewEnhancedElementMap) = Some exTwinMap
  /\ exTwinFirst ∈ Elements exTwinMap
  /\ shouldProcessTag (TagName (base exTwinFirst)) = true.
Proof.
  split; [exact Extraction.refEnv_sort_perm |].
  split; [exact Extraction.exTwinPage_parsed |].
  split; [exact Extraction.exTwinMap_extracted |].
  split; [exact exTwinFirst_listed |].
  apply (snapshot_elements_have_processed_tag exTwinPage (Some NewEnhancedElementMap)
           exTwinDoc exTwinMap exTwinFirst Extraction.refEnv_sort_perm
           Extraction.exTwinPage_parsed Extraction.exTwinMap_extracted exTwinFirst_listed).
Defined.

Lemma snapshot_elements_have_box_witness :
  (forall less l, sort_Slice less l ≡ₚ l)
  /\ snapshotParsed exTwinPage exTwinDoc
  /\ ExtractEnhancedElementMap exTwinPage (Some NewEnhancedElementMap) = Some exTwinMap
  /\ exTwinFirst ∈ Elements exTwinMap
  /\ IsVisible (base exTwinFirst) = true
  /\ Float64.gt (Width (bbox exTwinFirst)) PrimFloat.zero = true
  /\ Float64.gt (Height (bbox exTwinFirst)) PrimFloat.zero = true.
Proof.
  split; [exact Extraction.refEnv_sort_perm |].
  split; [exact Extraction.exTwinPage_parsed |].
  split; [exact Extraction.exTwinMap_extracted |].
  split; [exact exTwinFirst_listed |].
  apply (snapshot_elements_have_box exTwinPage (Some NewEnhancedElementMap)
           exTwinDoc exTwinMap exTwinFirst Extraction.refEnv_sort_perm
           Extraction.exTwinPage_parsed Extraction.exTwinMap_extracted exTwinFirst_listed).
Defined.

Lemma snapshot_lines_without_markers_witness :
  (forall less l, sort_Slice less l ≡ₚ l)
  /\ snapshotParsed exTwinPage exTwinDoc
  /\ ExtractEnhancedElementMap exTwinPage (Some NewEnhancedElementMap) = Some exTwinMap
  /\ exTwinFirst ∈ Elements exTwinMap
  /\ BackendNodeMap exTwinMap !! Elem_BackendNodeID (base exTwinFirst) = None
  /\ tokenLine exTwinMap (base exTwinFirst)
     = tokenLine NewEnhancedElementMap (base exTwinFirst).
Proof.
  split; [exact Extraction.refEnv_sort_perm |].
  split; [exact Extraction.exTwinPage_parsed |].
  split; [exact Extraction.exTwinMap_extracted |].
  split; [exact exTwinFirst_listed |].
  apply (snapshot_lines_without_markers exTwinPage (Some NewEnhancedElementMap)
           exTwinDoc exTwinMap exTwinFirst Extraction.refEnv_sort_perm
           Extraction.exTwinPage_parsed Extraction.exTwinMap_extracted exTwinFirst_listed).
Defined.

End Parsed.

(** * Further properties of the element map *)

Module MapTables.
Import Dom DomSpec MoreSpec.

(** ** Order *)

Lemma descending_filter (P : EnhancedElement -> Prop) `{forall e, Decision (P e)}
    (l : list EnhancedElement) :
  descending l -> descending (filter P l).
Proof.
  unfold descending. induction 1 as [|a l Hl IH Ha]; [constructor |].
  destruct (decide (P a)) as [Hp|Hp].
  - rewrite filter_cons_True by exact Hp. constructor; [exact IH |].
    apply Forall_forall. intros b Hb. apply list_elem_of_filter in Hb as [_ Hb].
    rewrite Forall_forall in Ha. exact (Ha b Hb).
  - rewrite filter_cons_False by exact Hp. exact IH.
Qed.

Lemma descending_imap (f : nat -> EnhancedElement -> EnhancedElement)
    (l : list EnhancedElement) :
  (forall k e, PaintOrder (f k e) = PaintOrder e) ->
  descending l -> descending (imap f l).
Proof.
  unfold descending. intros Hf Hl. revert f Hf.
  induction Hl as [|a l Hl IH Ha]; intros f Hf; [constructor |].
  simpl. constructor; [apply IH; intros k e; apply Hf |].
  apply Forall_lookup. intros i b Hb. rewrite list_lookup_imap in Hb.
  destruct (l !! i) as [x|] eqn:Hx; simplify_eq/=.
  rewrite !Hf. rewrite Forall_lookup in Ha. exact (Ha i x Hx).
Qed.

Lemma finalize_PaintOrder p hp idx el : PaintOrder (finalize p hp idx el) = PaintOrder el.
Proof. unfold finalize. cbv zeta. case_match; reflexivity. Qed.

Lemma insertSorted_descending (x : EnhancedElement) (l : list EnhancedElement) :
  descending l -> descending (insertSorted paintOrderLess x l).
Proof.
  unfold descending. induction 1 as [|y l Hl IH Hy]; simpl.
  - repeat constructor.
  - unfold paintOrderLess at 1. destruct (PaintOrder y <? PaintOrder x) eqn:Hlt.
    + apply Z.ltb_lt in Hlt. constructor; [constructor; assumption |].
      constructor; [lia |]. eapply Forall_impl; [exact Hy |]. simpl. intros; lia.
    + apply Z.ltb_ge in Hlt. constructor; [exact IH |].
      rewrite Parsing.insertSorted_perm. constructor; [exact Hlt | exact Hy].
Qed.

Lemma insertionSort_descending (l : list EnhancedElement) :
  descending (insertionSort paintOrderLess l).
Proof.
  unfold insertionSort.
  assert (Hgen : forall acc, descending acc ->
            descending (foldl (fun acc x => insertSorted paintOrderLess x acc) acc l)).
  { induction l as [|x l IH]; intros acc Hacc; simpl; [exact Hacc |].
    apply IH. apply insertSorted_descending. exact Hacc. }
  apply Hgen. constructor.
Qed.

Section WithEnv.
Context `{GoEnv}.

(** X8: when [sort.Slice] leaves its slice in descending paint order, the
    elements of a map extracted from a parsed snapshot stand in descending
    paint order: the marking passes, the filter loop and the indexing keep
    the order of the sort. *)
Theorem snapshot_map_in_paint_order (page : Page) (prev : option EnhancedElementMap)
    (doc : SnapshotDocument) (m : EnhancedElementMap) :
  (forall l, descending (sort_Slice paintOrderLess l)) ->
  snapshotParsed page doc ->
  ExtractEnhancedElementMap page prev = Some m ->
  descending (Elements m).
Proof.
  intros Hsorted Hsnap Hex.
  rewrite (Extraction.extract_snapshot_path page prev doc Hsnap) in Hex.
  injection Hex as <-.
  destruct (Extraction.filterAndIndex_spec (bool_decide (is_Some prev)) (startMap page prev)
              (parsedElements doc (axLookupOf page))
              (Extraction.startMap_Elements page prev)) as (-> & _).
  apply descending_imap; [intros k e; apply finalize_PaintOrder |].
  apply descending_filter. unfold parsedElements.
  rewrite Geometry.markContained_imap.
  apply descending_imap; [intros k e; unfold containedAfter; case_match; reflexivity |].
  rewrite Geometry.markOccluded_imap.
  apply descending_imap; [intros k e; unfold occludeOne; repeat case_match; reflexivity |].
  apply Hsorted.
Qed.

(** ** The lookup table by index *)

Lemma filterStep_drops_tables (hp : bool) (m : EnhancedElementMap) (idx : Z)
    (el : EnhancedElement) :
  keeps el = false ->
  (filterStep hp (m, idx) el).2 = idx
  /\ Elements (filterStep hp (m, idx) el).1 = Elements m
  /\ indexMap (filterStep hp (m, idx) el).1 = indexMap m.
Proof.
  unfold keeps, filterStep. intros Hk.
  destruct (IsInteractive (base el)), (IsVisible (base el)); simpl in *; auto.
  destruct (IsOccluded el); simpl in *; auto.
  destruct (IsContained el); simpl in *; auto. discriminate.
Qed.

Lemma indexed_step (hp : bool) (m : EnhancedElementMap) (idx : Z) (el : EnhancedElement) :
  indexed m idx ->
  indexed (filterStep hp (m, idx) el).1 (filterStep hp (m, idx) el).2.
Proof.
  intros [Hidx Hmap]. destruct (keeps el) eqn:Hk.
  - rewrite (Extraction.filterStep_keeps hp m idx el Hk).
    unfold indexed, AddEnhanced. cbn [fst snd Elements indexMap].
    split; [rewrite length_app; simpl; lia |].
    intros z. rewrite Extraction.finalize_Index.
    destruct (decide (z = idx)) as [->|Hne].
    + rewrite lookup_insert_eq.
      replace ((0 <=? idx) && (idx <? idx + 1)) with true
        by (symmetry; apply andb_true_iff; split; [apply Z.leb_le | apply Z.ltb_lt]; lia).
      rewrite lookup_app_r by lia.
      replace (Z.to_nat idx - length (Elements m))%nat with 0%nat by lia. reflexivity.
    + rewrite lookup_insert_ne by congruence. rewrite Hmap.
      destruct ((0 <=? z) && (z <? idx)) eqn:Hin.
      * apply andb_true_iff in Hin as [Hlo Hhi].
        apply Z.leb_le in Hlo. apply Z.ltb_lt in Hhi.
        replace ((0 <=? z) && (z <? idx + 1)) with true
          by (symmetry; apply andb_true_iff; split; [apply Z.leb_le | apply Z.ltb_lt]; lia).
        rewrite lookup_app_l by lia. reflexivity.
      * replace ((0 <=? z) && (z <? idx + 1)) with false; [reflexivity |].
        symmetry. apply andb_false_iff. apply andb_false_iff in Hin as [Hlo|Hhi].
        -- left. exact Hlo.
        -- right. apply Z.ltb_ge in Hhi. apply Z.ltb_ge. lia.
  - destruct (filterStep_drops_tables hp m idx el Hk) as (-> & He & Hi).
    split; [rewrite He; exact Hidx |]. intros z. rewrite He, Hi. apply Hmap.
Qed.

Lemma indexed_fold (hp : bool) (els : list EnhancedElement)
    (st : EnhancedElementMap * Z) :
  indexed st.1 st.2 ->
  indexed (foldl (filterStep hp) st els).1 (foldl (filterStep hp) st els).2.
Proof.
  revert st. induction els as [|el els IH]; intros [m idx] Hst; simpl; [exact Hst |].
  apply IH. apply indexed_step. exact Hst.
Qed.

Lemma startMap_indexed page prev : indexed (startMap page prev) 0.
Proof.
  unfold indexed, startMap.
  destruct (page_Info page) as [[? ?]|], prev; simpl; split; try reflexivity;
    intros z; rewrite lookup_empty; destruct ((0 <=? z) && (z <? 0)) eqn:Hz;
    try reflexivity; apply andb_true_iff in Hz as [Hlo Hhi];
    apply Z.leb_le in Hlo; apply Z.ltb_lt in Hhi; lia.
Qed.

(** X9: in a map extracted from a parsed snapshot the lookup table by
    index returns, for the index k, the element at position k of the
    list, and it has no entry for any other number. *)
Theorem snapshot_index_lookup (page : Page) (prev : option EnhancedElementMap)
    (doc : SnapshotDocument) (m : EnhancedElementMap) :
  snapshotParsed page doc ->
  ExtractEnhancedElementMap page prev = Some m ->
  (forall (k : nat) (e : EnhancedElement),
     Elements m !! k = Some e -> indexMap m !! Z.of_nat k = Some e)
  /\ (forall (z : Z) (e : EnhancedElement),
        indexMap m !! z = Some e -> 0 <= z /\ Elements m !! Z.to_nat z = Some e).
Proof.
  intros Hsnap Hex.
  rewrite (Extraction.extract_snapshot_path page prev doc Hsnap) in Hex.
  injection Hex as <-. unfold filterAndIndex.
  pose proof (indexed_fold (bool_decide (is_Some prev))
                (parsedElements doc (axLookupOf page)) (startMap page prev, 0)
                (startMap_indexed page prev)) as Hind.
  destruct (foldl _ _ _) as [m idx]. simpl in *. destruct Hind as [Hidx Hmap].
  split.
  - intros k e Hk. rewrite Hmap.
    assert (Hlt : (k < length (Elements m))%nat) by (eapply lookup_lt_Some; eauto).
    replace ((0 <=? Z.of_nat k) && (Z.of_nat k <? idx)) with true
      by (symmetry; apply andb_true_iff; split; [apply Z.leb_le | apply Z.ltb_lt]; lia).
    rewrite Nat2Z.id. exact Hk.
  - intros z e Hz. rewrite Hmap in Hz.
    destruct ((0 <=? z) && (z <? idx)) eqn:Hin; [| discriminate].
    apply andb_true_iff in Hin as [Hlo _]. apply Z.leb_le in Hlo. auto.
Qed.

(** ** The lookup table by backend id *)

Lemma extracted_tracks (page : Page) (prev : option EnhancedElementMap)
    (m : EnhancedElementMap) :
  ExtractEnhancedElementMap page prev = Some m -> tracks m.
Proof.
  intros Hex. destruct (Extraction.snapshotParsed_dec page) as [[doc Hdoc]|Hno].
  - rewrite (Extraction.extract_snapshot_path page prev doc Hdoc) in Hex.
    injection Hex as <-.
    apply Extraction.filterAndIndex_spec;
      [apply Extraction.startMap_Elements | apply Extraction.startMap_tracks].
  - rewrite (Extraction.extract_fallback_path page prev Hno) in Hex.
    apply Extraction.fallback_map in Hex. tauto.
Qed.

(** X10: in every map an extraction returns, [ByBackendNodeID] answers
    only with an element of the list that carries the asked id, and only
    for a positive id; and it does answer for the id of every listed
    element whose backend id is positive. *)
Theorem backend_lookup_sound_and_complete (page : Page)
    (prev : option EnhancedElementMap) (m : EnhancedElementMap) :
  ExtractEnhancedElementMap page prev = Some m ->
  (forall (id : Z) (e : EnhancedElement),
     ByBackendNodeID m id = Some e ->
     0 < id /\ e ∈ Elements m /\ BackendNodeID e = id)
  /\ (forall e : EnhancedElement,
        e ∈ Elements m -> 0 < BackendNodeID e ->
        exists e', ByBackendNodeID m (BackendNodeID e) = Some e'
                   /\ e' ∈ Elements m /\ BackendNodeID e' = BackendNodeID e).
Proof.
  intros Hex. pose proof (extracted_tracks page prev m Hex) as Htr.
  assert (Hsound : forall (id : Z) (e : EnhancedElement),
            ByBackendNodeID m id = Some e ->
            0 < id /\ e ∈ Elements m /\ BackendNodeID e = id).
  { intros id e Hlook. unfold ByBackendNodeID in Hlook. rewrite (Htr id) in Hlook.
    destruct (0 <? id) eqn:Hpos; [| discriminate]. apply Z.ltb_lt in Hpos.
    unfold lastWithID in Hlook. apply last_Some_elem_of in Hlook.
    apply list_elem_of_filter in Hlook as [Hid Hin]. auto. }
  split; [exact Hsound |].
  intros e Hin Hpos. unfold ByBackendNodeID.
  destruct (BackendNodeMap m !! BackendNodeID e) as [e'|] eqn:Hlook.
  - exists e'. destruct (Hsound _ _ Hlook) as (_ & Hin' & Hid'). auto.
  - exfalso. rewrite (Htr (BackendNodeID e)) in Hlook.
    apply Z.ltb_lt in Hpos. rewrite Hpos in Hlook.
    unfold lastWithID in Hlook. apply last_None in Hlook.
    assert (Hmem : e ∈ filter (fun x => BackendNodeID x = BackendNodeID e) (Elements m))
      by (apply list_elem_of_filter; auto).
    rewrite Hlook in Hmem. inversion Hmem.
Qed.

End WithEnv.

Lemma refEnv_sort_descending (l : list EnhancedElement) :
  descending (sort_Slice paintOrderLess l).
Proof. apply insertionSort_descending. Qed.

Lemma snapshot_map_in_paint_order_witness :
  (forall l, descending (sort_Slice paintOrderLess l))
  /\ snapshotParsed exTwinPage exTwinDoc
  /\ ExtractEnhancedElementMap exTwinPage (Some NewEnhancedElementMap) = Some exTwinMap
  /\ descending (Elements exTwinMap).
Proof.
  split; [exact refEnv_sort_descending |].
  split; [exact Extraction.exTwinPage_parsed |].
  split; [exact Extraction.exTwinMap_extracted |].
  apply (snapshot_map_in_paint_order exTwinPage (Some NewEnhancedElementMap) exTwinDoc
           exTwinMap refEnv_sort_descending Extraction.exTwinPage_parsed
           Extraction.exTwinMap_extracted).
Defined.

Lemma snapshot_index_lookup_witness :
  snapshotParsed exTwinPage exTwinDoc
  /\ ExtractEnhancedElementMap exTwinPage (Some NewEnhancedElementMap) = Some exTwinMap
  /\ (forall (k : nat) (e : EnhancedElement),
        Elements exTwinMap !! k = Some e -> indexMap exTwinMap !! Z.of_nat k = Some e)
  /\ (forall (z : Z) (e : EnhancedElement),
        indexMap exTwinMap !! z = Some e ->
        0 <= z /\ Elements exTwinMap !! Z.to_nat z = Some e).
Proof.
  split; [exact Extraction.exTwinPage_parsed |].
  split; [exact Extraction.exTwinMap_extracted |].
  apply (snapshot_index_lookup exTwinPage (Some NewEnhancedElementMap) exTwinDoc
           exTwinMap Extraction.exTwinPage_parsed Extraction.exTwinMap_extracted).
Defined.

Lemma backend_lookup_sound_and_complete_witness :
  ExtractEnhancedElementMap exTwinPage (Some NewEnhancedElementMap) = Some exTwinMap
  /\ (forall (id : Z) (e : EnhancedElement),
        ByBackendNodeID exTwinMap id = Some e ->
        0 < id /\ e ∈ Elements exTwinMap /\ BackendNodeID e = id)
  /\ (forall e : EnhancedElement,
        e ∈ Elements exTwinMap -> 0 < BackendNodeID e ->
        exists e', ByBackendNodeID exTwinMap (BackendNodeID e) = Some e'
                   /\ e' ∈ Elements exTwinMap /\ BackendNodeID e' = BackendNodeID e).
Proof.
  split; [exact Extraction.exTwinMap_extracted |].
  apply (backend_lookup_sound_and_complete exTwinPage (Some NewEnhancedElementMap)
           exTwinMap Extraction.exTwinMap_extracted).
Defined.

End MapTables.

(** * The two paths of the extraction, and the serializer, continued *)

Module Reextraction.
Import Dom DomSpec MoreSpec.

Section WithEnv.
Context `{GoEnv}.

(** X11: when a page with a parsed snapshot is extracted, and extracted
    again with the first result as the previous map, the second result
    marks as new exactly the elements without a positive backend id: an
    element with a positive id is never new, and an element whose id is
    zero or negative always is, because such ids are never recorded. *)
Theorem reextraction_new_iff_no_backend_id (page : Page)
    (prev0 : option EnhancedElementMap) (doc : SnapshotDocument)
    (m1 m2 : EnhancedElementMap) (e : EnhancedElement) :
  (forall less l, sort_Slice less l ≡ₚ l) ->
  snapshotParsed page doc ->
  ExtractEnhancedElementMap page prev0 = Some m1 ->
  ExtractEnhancedElementMap page (Some m1) = Some m2 ->
  e ∈ Elements m2 ->
  (IsNew e = true <-> BackendNodeID e <= 0).
Proof.
  intros Hperm Hsnap H1 H2 He.
  pose proof (MapTables.extracted_tracks page prev0 m1 H1) as Htr.
  destruct (Parsed.snapshot_element_origin page (Some m1) doc m2 e Hsnap H2 He)
    as (x & k & Hx & Hkeep & _ & ->).
  assert (Hfresh : IsNew x = false).
  { assert (Hp : parseSnapshotResponse (Some (mkSnapshotResponse [doc])) (axLookupOf page)
                 = Some (parsedElements doc (axLookupOf page))) by reflexivity.
    pose proof (Parsing.parseSnapshotResponse_IsNew _ _ _ Hperm Hp) as Hall.
    rewrite Forall_forall in Hall. exact (Hall x Hx). }
  assert (Hin1 : exists e1, e1 ∈ Elements m1 /\ BackendNodeID e1 = BackendNodeID x).
  { rewrite (Extraction.extract_snapshot_path page prev0 doc Hsnap) in H1.
    injection H1 as H1.
    destruct (Extraction.filterAndIndex_spec (bool_decide (is_Some prev0))
                (startMap page prev0) (parsedElements doc (axLookupOf page))
                (Extraction.startMap_Elements page prev0)) as (Hels & _).
    rewrite H1 in Hels.
    assert (Hxf : x ∈ filter (fun e => keeps e = true) (parsedElements doc (axLookupOf page)))
      by (apply list_elem_of_filter; auto).
    apply list_elem_of_lookup in Hxf as [j Hj].
    exists (finalize (PreviousNodeIDs (startMap page prev0)) (bool_decide (is_Some prev0))
              (Z.of_nat j) x).
    split; [| apply Extraction.finalize_flags].
    apply list_elem_of_lookup. exists j. rewrite Hels, list_lookup_imap, Hj. reflexivity. }
  rewrite (Extraction.finalize_IsNew _ _ _ x Hfresh).
  destruct (Extraction.finalize_flags (PreviousNodeIDs (startMap page (Some m1)))
              (bool_decide (is_Some (Some m1))) (Z.of_nat k) x) as (_ & _ & _ & _ & ->).
  rewrite Extraction.startMap_PreviousNodeIDs, lookup_fmap, fmap_None, (Htr (BackendNodeID x)).
  split.
  - intros [_ Hnone]. destruct (0 <? BackendNodeID x) eqn:Hpos;
      [| apply Z.ltb_ge in Hpos; exact Hpos].
    exfalso. unfold lastWithID in Hnone. apply last_None in Hnone.
    destruct Hin1 as (e1 & Hin & Hid).
    assert (Hmem : e1 ∈ filter (fun y => BackendNodeID y = BackendNodeID x) (Elements m1))
      by (apply list_elem_of_filter; auto).
    rewrite Hnone in Hmem. inversion Hmem.
  - intros Hle. split; [apply bool_decide_eq_true_2; eauto |].
    replace (0 <? BackendNodeID x) with false by (symmetry; apply Z.ltb_ge; exact Hle).
    reflexivity.
Qed.

End WithEnv.

Lemma exTwinAgain_extracted :
  ExtractEnhancedElementMap exTwinPage (Some exTwinMap) = Some exTwinAgain.
Proof. reflexivity. Qed.

Lemma exTwinAgainFirst_listed : exTwinAgainFirst ∈ Elements exTwinAgain.
Proof. apply list_elem_of_lookup. exists 0%nat. vm_compute. reflexivity. Qed.

Lemma reextraction_new_iff_no_backend_id_witness :
  (forall less l, sort_Slice less l ≡ₚ l)
  /\ snapshotParsed exTwinPage exTwinDoc
  /\ ExtractEnhancedElementMap exTwinPage (Some NewEnhancedElementMap) = Some exTwinMap
  /\ ExtractEnhancedElementMap exTwinPage (Some exTwinMap) = Some exTwinAgain
  /\ exTwinAgainFirst ∈ Elements exTwinAgain
  /\ (IsNew exTwinAgainFirst = true <-> BackendNodeID exTwinAgainFirst <= 0).
Proof.
  split; [exact Extraction.refEnv_sort_perm |].
  split; [exact Extraction.exTwinPage_parsed |].
  split; [exact Extraction.exTwinMap_extracted |].
  split; [exact exTwinAgain_extracted |].
  split; [exact exTwinAgainFirst_listed |].
  apply (reextraction_new_iff_no_backend_id exTwinPage (Some NewEnhancedElementMap)
           exTwinDoc exTwinMap exTwinAgain exTwinAgainFirst Extraction.refEnv_sort_perm
           Extraction.exTwinPage_parsed Extraction.exTwinMap_extracted
           exTwinAgain_extracted exTwinAgainFirst_listed).
Defined.

End Reextraction.

Module Fallback.
Import Dom DomSpec MoreSpec.

Lemma wrap_fold_page (els : list Element) (m : EnhancedElementMap) :
  let m' := foldl (fun m el => AddEnhanced m (wrapElement el)) m els in
  PageURL m' = PageURL m /\ PageTitle m' = PageTitle m.
Proof.
  revert m. induction els as [|el els IH]; intros m; simpl; [auto |].
  destruct (IH (AddEnhanced m (wrapElement el))) as (H1 & H2). auto.
Qed.

Lemma wrapElement_bare (el : Element) : bareWrapper (wrapElement el).
Proof. repeat split. Qed.

(** A line does not depend on the lookup table when no element of the
    table is new or scrollable. *)
Lemma tokenLine_plain `{GoEnv} (m : EnhancedElementMap) (b : Element) :
  (forall e, BackendNodeMap m !! Elem_BackendNodeID b = Some e ->
             IsNew e = false /\ IsScrollable e = false) ->
  tokenLine m b = tokenLine NewEnhancedElementMap b.
Proof.
  intros Hplain. unfold tokenLine. cbv zeta.
  change (BackendNodeMap NewEnhancedElementMap) with (∅ : gmap Z EnhancedElement).
  rewrite lookup_empty.
  destruct (BackendNodeMap m !! Elem_BackendNodeID b) as [e|]; [| reflexivity].
  destruct (Hplain e eq_refl) as [-> ->]. reflexivity.
Qed.

Section WithEnv.
Context `{GoEnv}.

(** X12: the extraction returns an error exactly when no snapshot
    document could be parsed and the script-based extraction fails as
    well; neither a failing [page.Info] nor a failing accessibility call
    makes it fail. *)
Theorem extraction_fails_iff (page : Page) (prev : option EnhancedElementMap) :
  ExtractEnhancedElementMap page prev = None
  <-> (~ exists doc, snapshotParsed page doc) /\ page_ExtractElementMap page = None.
Proof.
  destruct (Extraction.snapshotParsed_dec page) as [[doc Hdoc]|Hno].
  - rewrite (Extraction.extract_snapshot_path page prev doc Hdoc). split; [discriminate |].
    intros [Hn _]. exfalso. apply Hn. eauto.
  - rewrite (Extraction.extract_fallback_path page prev Hno).
    unfold extractEnhancedElementMapJS.
    destruct (page_ExtractElementMap page) as [basicMap|].
    + split; [discriminate | intros [_ ?]; discriminate].
    + split; [auto | reflexivity].
Qed.

(** X13: when no snapshot document could be parsed and the script-based
    extraction succeeds, the extraction returns a map that lists every
    element of the script's map, in its order and unfiltered (invisible
    and non-interactive ones too), under the script's URL and title, each
    wrapped with its backend id copied and with no flag, paint order or
    cursor set. *)
Theorem fallback_lists_script_elements (page : Page) (prev : option EnhancedElementMap)
    (basicMap : ElementMap) :
  (~ exists doc, snapshotParsed page doc) ->
  page_ExtractElementMap page = Some basicMap ->
  exists m : EnhancedElementMap,
    ExtractEnhancedElementMap page prev = Some m
    /\ base <$> Elements m = em_Elements basicMap
    /\ PageURL m = em_PageURL basicMap
    /\ PageTitle m = em_PageTitle basicMap
    /\ Forall bareWrapper (Elements m).
Proof.
  intros Hno Hjs. rewrite (Extraction.extract_fallback_path page prev Hno).
  unfold extractEnhancedElementMapJS. rewrite Hjs. eexists. split; [reflexivity |].
  pose proof (wrap_fold_page (em_Elements basicMap)
                (set_Page (em_PageURL basicMap) (em_PageTitle basicMap) (startMap page prev)))
    as (Hu & Ht).
  rewrite Extraction.wrap_fold_Elements. simpl in Hu, Ht |- *.
  rewrite Extraction.startMap_Elements. simpl.
  split; [| split; [exact Hu | split; [exact Ht |]]].
  - clear Hu Ht Hjs. generalize (em_Elements basicMap).
    intros els. induction els as [|el els IH]; simpl; [reflexivity |].
    f_equal. exact IH.
  - apply Forall_fmap, Forall_true. intros el. apply wrapElement_bare.
Qed.

(** X14: a map returned on the script path is serialized without any new
    marker or scroll marker: every line is the line the plain fields of
    the element give. *)
Theorem fallback_lines_without_markers (page : Page) (prev : option EnhancedElementMap)
    (m : EnhancedElementMap) (b : Element) :
  (~ exists doc, snapshotParsed page doc) ->
  ExtractEnhancedElementMap page prev = Some m ->
  tokenLine m b = tokenLine NewEnhancedElementMap b.
Proof.
  intros Hno Hex. rewrite (Extraction.extract_fallback_path page prev Hno) in Hex.
  apply Extraction.fallback_map in Hex as ((basicMap & Hels) & Htr & _).
  apply tokenLine_plain. intros e Hlook. rewrite (Htr (Elem_BackendNodeID b)) in Hlook.
  destruct (0 <? Elem_BackendNodeID b); [| discriminate].
  unfold lastWithID in Hlook. apply last_Some_elem_of in Hlook.
  apply list_elem_of_filter in Hlook as [_ Hin].
  rewrite Hels in Hin. apply list_elem_of_fmap in Hin as (x & -> & _). auto.
Qed.

End WithEnv.

Lemma exFallbackPage_unparsed : ~ exists doc, snapshotParsed exFallbackPage doc.
Proof. intros (doc & r & rest & Hr & _). discriminate. Qed.

Lemma fallback_lists_script_elements_witness :
  (~ exists doc, snapshotParsed exFallbackPage doc)
  /\ page_ExtractElementMap exFallbackPage = Some (mkElementMap "" "" [exLink])
  /\ exists m : EnhancedElementMap,
       ExtractEnhancedElementMap exFallbackPage None = Some m
       /\ base <$> Elements m = [exLink]
       /\ PageURL m = ""%string
       /\ PageTitle m = ""%string
       /\ Forall bareWrapper (Elements m).
Proof.
  split; [exact exFallbackPage_unparsed |].
  split; [reflexivity |].
  apply (fallback_lists_script_elements exFallbackPage None (mkElementMap "" "" [exLink])
           exFallbackPage_unparsed eq_refl).
Defined.

Lemma fallback_lines_without_markers_witness :
  (~ exists doc, snapshotParsed exFallbackPage doc)
  /\ ExtractEnhancedElementMap exFallbackPage None
     = Some (default NewEnhancedElementMap (ExtractEnhancedElementMap exFallbackPage None))
  /\ tokenLine (default NewEnhancedElementMap (ExtractEnhancedElementMap exFallbackPage None))
       exLink
     = tokenLine NewEnhancedElementMap exLink.
Proof.
  split; [exact exFallbackPage_unparsed |].
  split; [reflexivity |].
  apply (fallback_lines_without_markers exFallbackPage None _ exLink
           exFallbackPage_unparsed eq_refl).
Defined.

End Fallback.

Module SerializerAll.
Import Dom DomSpec MoreSpec.

Section WithEnv.
Context `{GoEnv}.

(** X15: with a limit of zero or below the serializer writes the line
    of every visible element, in the order of the map, under the header
    that gives their number; nothing is cut and no element that is not
    visible gets a line. *)
Theorem token_output_unlimited (m : EnhancedElementMap) (maxElements : Z) :
  maxElements <= 0 ->
  ToTokenStringEnhanced m maxElements
  = ("Page: " +:+ PageTitle m +:+ nl)
    +:+ ("URL: " +:+ PageURL m +:+ nl)
    +:+ plainHeader (Z.of_nat (length (visibleElements m)))
    +:+ concatLines ((fun e => tokenLine m (base e)) <$> visibleElements m).
Proof.
  intros Hmax. unfold ToTokenStringEnhanced.
  rewrite (Serializer.tokenLoop_unlimited m maxElements _ 0 Hmax).
  unfold tokenHeader, plainHeader.
  replace (0 <? maxElements) with false by (symmetry; apply Z.ltb_ge; exact Hmax).
  rewrite Serializer.visibleCount_length. reflexivity.
Qed.

End WithEnv.

Lemma token_output_unlimited_witness :
  0 <= 0
  /\ ToTokenStringEnhanced exTwinMap 0
     = ("Page: " +:+ PageTitle exTwinMap +:+ nl)
       +:+ ("URL: " +:+ PageURL exTwinMap +:+ nl)
       +:+ plainHeader (Z.of_nat (length (visibleElements exTwinMap)))
       +:+ concatLines ((fun e => tokenLine exTwinMap (base e)) <$> visibleElements exTwinMap).
Proof.
  split; [lia |].
  apply (token_output_unlimited exTwinMap 0). lia.
Defined.

End SerializerAll.

(** * The two marking passes, continued *)

Module Passes.
Import Dom DomSpec MoreSpec.

Lemma SFltb_asym (a b : spec_float) : SFltb a b = true -> SFltb b a = false.
Proof.
  unfold SFltb, SFcompare.
  destruct a as [sa|sa| |sa ma ea], b as [sb|sb| |sb mb eb];
    try destruct sa; try destruct sb; try discriminate; try reflexivity.
  - change (Pos.compare_cont Eq mb ma) with (Pos.compare mb ma).
    change (Pos.compare_cont Eq ma mb) with (Pos.compare ma mb).
    rewrite (Z.compare_antisym ea eb), (Pos.compare_antisym ma mb).
    destruct (ea ?= eb)%Z, (ma ?= mb)%positive; cbn; try discriminate; reflexivity.
  - change (Pos.compare_cont Eq mb ma) with (Pos.compare mb ma).
    change (Pos.compare_cont Eq ma mb) with (Pos.compare ma mb).
    rewrite (Z.compare_antisym ea eb), (Pos.compare_antisym ma mb).
    destruct (ea ?= eb)%Z, (ma ?= mb)%positive; cbn; try discriminate; reflexivity.
Qed.

Lemma float_lt_asym (a b : float) : Float64.lt a b = true -> Float64.lt b a = false.
Proof. unfold Float64.lt. rewrite !FloatAxioms.ltb_spec. apply SFltb_asym. Qed.

(** X16: the occlusion pass keeps the length and the order of its list
    and changes nothing of an element but the mark: every position holds
    the element it held, marked occluded or not.  It never removes a
    mark, and it never marks the first element or an element without
    bounds. *)
Theorem occlusion_pass_only_marks (l : list EnhancedElement) :
  length (markOccludedElements l) = length l
  /\ forall (i : nat) (e : EnhancedElement),
       l !! i = Some e ->
       exists e', markOccludedElements l !! i = Some e'
                  /\ (e' = e \/ e' = set_IsOccluded true e)
                  /\ (IsOccluded e = true -> IsOccluded e' = true)
                  /\ (i = 0%nat -> e' = e)
                  /\ (emptyBounds (bbox e) = true -> e' = e).
Proof.
  split; [rewrite Geometry.markOccluded_imap; apply length_imap |].
  intros i e Hi. rewrite (Geometry.markOccluded_lookup l i e Hi).
  eexists. split; [reflexivity |]. unfold occludeOne.
  destruct (emptyBounds (bbox e)) eqn:Hb.
  - repeat split; auto.
  - split; [destruct (occluderScan e (take i l) 0); auto |].
    split; [destruct (occluderScan e (take i l) 0); auto |].
    split; [| discriminate].
    intros ->. rewrite take_0. reflexivity.
Qed.

(** X17: the containment pass keeps the length and the order of its list
    and changes nothing of an element but the mark.  It never removes a
    mark, never marks an element without bounds, and leaves alone every
    element for which no other element of the list is interactive and
    larger in area. *)
Theorem containment_pass_only_marks (l : list EnhancedElement) :
  length (markContainedElements l) = length l
  /\ forall (i : nat) (e : EnhancedElement),
       l !! i = Some e ->
       exists e', markContainedElements l !! i = Some e'
                  /\ (e' = e \/ e' = set_IsContained true e)
                  /\ (IsContained e = true -> IsContained e' = true)
                  /\ (emptyBounds (bbox e) = true -> e' = e)
                  /\ ((forall (j : nat) (p : EnhancedElement),
                         l !! j = Some p -> j <> i ->
                         IsInteractive (base p) = false
                         \/ Float64.lt (area (bbox e)) (area (bbox p)) = false) ->
                      e' = e).
Proof.
  split; [rewrite Geometry.markContained_imap; apply length_imap |].
  intros i e Hi. rewrite (Geometry.markContained_lookup l i e Hi).
  eexists. split; [reflexivity |].
  destruct (emptyBounds (bbox e)) eqn:Hb; simpl.
  - repeat split; auto.
  - destruct (parentScan i e l 0) eqn:Hscan.
    + split; [auto |]. split; [reflexivity |]. split; [discriminate |].
      intros Hnone. exfalso.
      apply Geometry.parentScan_true in Hscan as (j & p & Hj & Hc).
      apply Geometry.containedBy_true in Hc as (Hne & Hint & _ & _ & Hlt).
      destruct (Hnone j p Hj Hne) as [Hf|Hf]; congruence.
    + repeat split; auto.
Qed.

(** X18: the test of the containment pass is never met in both
    directions: when an element counts as contained in another, that
    other does not count as contained in it, whatever their boxes. *)
Theorem containment_never_mutual (i j : nat) (e p : EnhancedElement) :
  containedBy i e j p = true -> containedBy j p i e = false.
Proof.
  intros Hc. apply Geometry.containedBy_true in Hc as (_ & _ & _ & _ & Hlt).
  destruct (containedBy j p i e) eqn:Hback; [| reflexivity].
  apply Geometry.containedBy_true in Hback as (_ & _ & _ & _ & Hgt).
  rewrite (float_lt_asym _ _ Hlt) in Hgt. discriminate.
Qed.

Lemma containment_never_mutual_witness :
  containedBy 1 exSvg 0 exButton = true
  /\ containedBy 0 exButton 1 exSvg = false.
Proof.
  split; [vm_compute; reflexivity |].
  apply (containment_never_mutual 1 0 exSvg exButton). vm_compute. reflexivity.
Defined.

End Passes.

(** * The annotation, continued *)

Module AnnotationMore.
Import Screenshot ScreenshotSpec MoreScreenshotSpec.

(** ** Errors and the elements that are skipped *)

Lemma annotationCalls_hidden (bounds : Rectangle) (cfg : AnnotationConfig)
    (els : list ElementInfo) :
  Forall hidden els -> annotationCalls bounds cfg els = [].
Proof.
  unfold annotationCalls. induction 1 as [|el els Hel _ IH]; simpl; [reflexivity |].
  rewrite IH, app_nil_r. unfold annotateElement.
  destruct Hel as [-> | ->]; [reflexivity |].
  rewrite orb_true_r. reflexivity.
Qed.

Section WithCodec.
Context `{ImageCodec}.

(** X19: [Annotate] reports that it could not decode exactly when the map
    is not nil, does not report zero elements, and the bytes are not an
    image the decoder knows; with a nil or empty map undecodable bytes
    pass through. *)
Theorem annotate_decode_error_iff (imgData : list Byte.byte)
    (elementMap : option ElementMapInterface) (cfg : AnnotationConfig) :
  Annotate imgData elementMap cfg = DecodeError
  <-> (exists em, elementMap = Some em /\ Len em <> 0) /\ image_Decode imgData = None.
Proof.
  unfold Annotate. destruct elementMap as [em|].
  - destruct (Z.eqb_spec (Len em) 0) as [Hz|Hnz].
    + split; [discriminate |]. intros [(em' & [= <-] & Hne) _]. contradiction.
    + destruct (image_Decode imgData) as [[img format]|].
      * split; [| intros [_ ?]; discriminate].
        destruct (if String.eqb format "png" then _ else _); discriminate.
      * split; [| reflexivity]. intros _. split; [eauto | reflexivity].
  - split; [discriminate |]. intros [(em' & ? & _) _]. discriminate.
Qed.

(** X20: when the map reports elements but every element it lists is
    invisible or has an empty box, no pixel is written, yet the bytes are
    not handed back as they came: the decoded image is encoded again, as
    PNG when it was decoded as png and as JPEG of quality 85 otherwise. *)
Theorem annotate_hidden_elements_reencodes (imgData : list Byte.byte)
    (em : ElementMapInterface) (cfg : AnnotationConfig) (img : Image) (format : string) :
  Len em <> 0 ->
  Forall hidden (GetElements em) ->
  image_Decode imgData = Some (img, format) ->
  Annotate imgData (Some em) cfg = encodeAs format img.
Proof.
  intros Hlen Hhid Hdec. unfold Annotate, encodeAs.
  destruct (Z.eqb_spec (Len em) 0) as [Hz|_]; [contradiction |].
  rewrite Hdec, (annotationCalls_hidden _ _ _ Hhid). reflexivity.
Qed.

(** X21: on a map none of whose elements has text the two presets give
    the same result: the browser-use style leaves out a label only where
    there is text. *)
Theorem presets_agree_without_text (imgData : list Byte.byte)
    (elementMap : option ElementMapInterface) :
  (forall em el, elementMap = Some em -> el ∈ GetElements em -> GetText el = ""%string) ->
  AnnotateBrowserUseStyle imgData elementMap = AnnotateForLLM imgData elementMap.
Proof.
  intros Hbare. unfold AnnotateBrowserUseStyle, AnnotateForLLM, Annotate. cbv zeta.
  destruct elementMap as [em|]; [| reflexivity].
  destruct (Len em =? 0); [reflexivity |].
  destruct (image_Decode imgData) as [[img format]|]; [| reflexivity].
  assert (Hcalls : forall els,
            (forall el, el ∈ els -> GetText el = ""%string) ->
            annotationCalls (Rect img)
              (set_ShowLabelsOnlyForUnlabeled true DefaultAnnotationConfig) els
            = annotationCalls (Rect img)
                (set_ShowLabelsOnlyForUnlabeled false DefaultAnnotationConfig) els).
  { unfold annotationCalls. induction els as [|el els IH]; intros Hels; simpl;
      [reflexivity |].
    rewrite IH by (intros x Hx; apply Hels; right; exact Hx).
    f_equal. unfold annotateElement. simpl.
    rewrite (Hels el) by left. reflexivity. }
  rewrite (Hcalls (GetElements em) (fun el Hel => Hbare em el eq_refl Hel)).
  reflexivity.
Qed.

End WithCodec.

(** ** The border *)

(** X22: the border is painted on the frame of the clamped box and
    nowhere else: every pixel it sets lies in the box less than
    [borderWidth] away from one of the four edges, so the interior is never
    painted, and with a border width of zero nothing is painted at all. *)
Theorem border_stays_on_frame (bounds : Rectangle) (bbox : BoundingBoxInfo) (c : Color)
    (borderWidth x0 y0 x1 y1 : Z) :
  roomFor bounds borderWidth ->
  boxCorners bounds bbox = (x0, y0, x1, y1) ->
  Forall (onFrame x0 y0 x1 y1 borderWidth)
    (drawBoundingBoxFromInfo bounds bbox c borderWidth)
  /\ (borderWidth = 0 -> drawBoundingBoxFromInfo bounds bbox c borderWidth = []).
Proof.
  intros (Hrect & Hbw & Hmx & Hmy & Hnx & Hny) Hcorners.
  destruct (Annotation.boxCorners_inside bounds bbox x0 y0 x1 y1 Hrect Hcorners)
    as (Hx0 & Hx1 & Hy0 & Hy1).
  assert (Hframe : Forall (onFrame x0 y0 x1 y1 borderWidth)
                     (drawBoundingBoxFromInfo bounds bbox c borderWidth)).
  { unfold drawBoundingBoxFromInfo. rewrite Hcorners. unfold Int.add, Int.sub.
    rewrite !Annotation.wrap_small by (unfold Float64.minInt in *; lia).
    repeat (apply Forall_app; split).
    - apply Annotation.forUp_Forall. intros y Hy Hc. apply andb_true_iff in Hc as [Hlt Hc].
      apply Z.leb_le in Hc. apply Z.ltb_lt in Hlt.
      eapply Forall_impl; [apply Annotation.rowCalls_Forall |]. intros call [Hsx Hsy].
      unfold onFrame. lia.
    - apply Annotation.forDown_Forall. intros y Hy Hc. apply andb_true_iff in Hc as [Hlt Hc].
      apply Z.leb_le in Hc. apply Z.ltb_lt in Hlt.
      eapply Forall_impl; [apply Annotation.rowCalls_Forall |]. intros call [Hsx Hsy].
      unfold onFrame. lia.
    - apply Annotation.forUp_Forall. intros x Hx Hc. apply andb_true_iff in Hc as [Hlt Hc].
      apply Z.leb_le in Hc. apply Z.ltb_lt in Hlt.
      eapply Forall_impl; [apply Annotation.columnCalls_Forall |]. intros call [Hsy Hsx].
      unfold onFrame. lia.
    - apply Annotation.forDown_Forall. intros x Hx Hc. apply andb_true_iff in Hc as [Hlt Hc].
      apply Z.leb_le in Hc. apply Z.ltb_lt in Hlt.
      eapply Forall_impl; [apply Annotation.columnCalls_Forall |]. intros call [Hsy Hsx].
      unfold onFrame. lia. }
  split; [exact Hframe |].
  intros ->. destruct (drawBoundingBoxFromInfo bounds bbox c 0) as [|call rest];
    [reflexivity |].
  apply Forall_cons in Hframe as [Hcall _]. unfold onFrame in Hcall. lia.
Qed.

(** ** The theorems at sample images *)

Lemma exHiddenMap_hidden : Forall hidden (GetElements exHiddenMap).
Proof. repeat constructor. Qed.

Lemma annotate_hidden_elements_reencodes_witness :
  Len exHiddenMap <> 0
  /\ Forall hidden (GetElements exHiddenMap)
  /\ @image_Decode pixelCodec [Byte.xff] = Some (exPixel exWhite, "png"%string)
  /\ @Annotate pixelCodec [Byte.xff] (Some exHiddenMap) DefaultAnnotationConfig
     = @encodeAs pixelCodec "png" (exPixel exWhite).
Proof.
  assert (Hlen : Len exHiddenMap <> 0) by discriminate.
  split; [exact Hlen |].
  split; [exact exHiddenMap_hidden |].
  split; [reflexivity |].
  apply (@annotate_hidden_elements_reencodes pixelCodec [Byte.xff] exHiddenMap
           DefaultAnnotationConfig (exPixel exWhite) "png" Hlen exHiddenMap_hidden eq_refl).
Defined.

Lemma exBareMap_bare (em : ElementMapInterface) (el : ElementInfo) :
  Some exBareMap = Some em -> el ∈ GetElements em -> GetText el = ""%string.
Proof.
  intros [= <-] Hel. apply list_elem_of_singleton in Hel. subst el. reflexivity.
Qed.

Lemma presets_agree_without_text_witness :
  (forall em el, Some exBareMap = Some em -> el ∈ GetElements em -> GetText el = ""%string)
  /\ @AnnotateBrowserUseStyle pixelCodec [Byte.xff] (Some exBareMap)
     = @AnnotateForLLM pixelCodec [Byte.xff] (Some exBareMap).
Proof.
  split; [exact exBareMap_bare |].
  apply (@presets_agree_without_text pixelCodec [Byte.xff] (Some exBareMap) exBareMap_bare).
Defined.

Lemma exRect_room : roomFor exRect 2.
Proof.
  split; [exact Annotation.exRect_proper |].
  unfold exRect, Float64.minInt. simpl. lia.
Qed.

Lemma border_stays_on_frame_witness :
  roomFor exRect 2
  /\ boxCorners exRect (GetBoundingBox exWide) = (150, 0, 199, 35)
  /\ Forall (onFrame 150 0 199 35 2)
       (drawBoundingBoxFromInfo exRect (GetBoundingBox exWide) exWhite 2)
  /\ (2 = 0 -> drawBoundingBoxFromInfo exRect (GetBoundingBox exWide) exWhite 2 = []).
Proof.
  assert (Hc : boxCorners exRect (GetBoundingBox exWide) = (150, 0, 199, 35))
    by (vm_compute; reflexivity).
  split; [exact exRect_room |].
  split; [exact Hc |].
  apply (border_stays_on_frame exRect (GetBoundingBox exWide) exWhite 2 150 0 199 35
           exRect_room Hc).
Defined.

End AnnotationMore.

(** * The lookup tables of the parser and the size of the map *)

Module Lookups.
Import Dom DomSpec MoreSpec.

Lemma buildLayoutLookup_snoc (l : list Z) (x : Z) (k : nat) (m : gmap Z nat) :
  buildLayoutLookup (l ++ [x]) k m = <[x := (k + length l)%nat]> (buildLayoutLookup l k m).
Proof.
  revert k m. induction l as [|y l IH]; intros k m; simpl.
  - rewrite Nat.add_0_r. reflexivity.
  - rewrite IH. f_equal. lia.
Qed.

(** X23: the layout lookup maps a node index to the last position at
    which the layout lists it: a node that the layout lists twice is read
    from its later record, and a node the layout does not list has no
    entry. *)
Theorem layout_lookup_is_last_position (nodeIndex : list Z) (n : Z) (i : nat) :
  buildLayoutLookup nodeIndex 0 ∅ !! n = Some i
  <-> nodeIndex !! i = Some n
      /\ forall j : nat, (i < j)%nat -> nodeIndex !! j <> Some n.
Proof.
  revert i. induction nodeIndex as [|x l IH] using rev_ind; intros i.
  - simpl. rewrite lookup_empty. split; [discriminate | intros [? _]; discriminate].
  - rewrite buildLayoutLookup_snoc. simpl. destruct (decide (n = x)) as [->|Hne].
    + rewrite lookup_insert_eq. split.
      * intros [= <-]. split; [apply list_lookup_middle; reflexivity |].
        intros j Hj. rewrite lookup_ge_None_2; [discriminate |].
        rewrite length_app. simpl. lia.
      * intros [Hi Hlast].
        assert (Hlt : (i < length (l ++ [x]))%nat) by (eapply lookup_lt_Some; eauto).
        rewrite length_app in Hlt. simpl in Hlt.
        destruct (decide (i = length l)) as [->|Hi']; [reflexivity |].
        exfalso. apply (Hlast (length l)); [lia |].
        apply list_lookup_middle. reflexivity.
    + rewrite lookup_insert_ne by congruence. rewrite IH. split.
      * intros [Hi Hlast]. split; [apply lookup_app_l_Some; exact Hi |].
        intros j Hj. destruct (decide (j < length l)%nat) as [Hjl|Hjl].
        -- rewrite lookup_app_l by exact Hjl. apply Hlast. exact Hj.
        -- intros Hjx. apply lookup_app_Some in Hjx as [Hjx | [_ Hjx]].
           ++ apply lookup_lt_Some in Hjx. lia.
           ++ apply list_lookup_singleton_Some in Hjx as [_ Hx]. congruence.
      * intros [Hi Hlast]. apply lookup_app_Some in Hi as [Hi | [_ Hi]].
        -- split; [exact Hi |]. intros j Hj Hjn.
           apply (Hlast j Hj). apply lookup_app_l_Some. exact Hjn.
        -- apply list_lookup_singleton_Some in Hi as [_ Hx]. congruence.
Qed.

Lemma buildAXLookup_snoc (nodes : list CDPAXNode) (node : CDPAXNode) :
  buildAXLookup (nodes ++ [node])
  = if 0 <? BackendDOMNodeID node
    then <[BackendDOMNodeID node := node]> (buildAXLookup nodes)
    else buildAXLookup nodes.
Proof. unfold buildAXLookup. rewrite foldl_app. reflexivity. Qed.

(** X24: the accessibility lookup answers for a backend id with the last
    node of the tree that carries this id, and only for a positive id:
    nodes whose id is zero or negative are never attached to an
    element. *)
Theorem ax_lookup_is_last_node (nodes : list CDPAXNode) (id : Z) (node : CDPAXNode) :
  buildAXLookup nodes !! id = Some node
  <-> 0 < id
      /\ exists i : nat,
           nodes !! i = Some node /\ BackendDOMNodeID node = id
           /\ forall (j : nat) (other : CDPAXNode),
                (i < j)%nat -> nodes !! j = Some other -> BackendDOMNodeID other <> id.
Proof.
  revert node. induction nodes as [|x l IH] using rev_ind; intros node.
  - change (buildAXLookup []) with (∅ : gmap Z CDPAXNode). rewrite lookup_empty.
    split; [discriminate | intros (_ & i & ? & _); discriminate].
  - rewrite buildAXLookup_snoc.
    assert (Hkeep : buildAXLookup l !! id = Some node /\ BackendDOMNodeID x <> id
              <-> 0 < id
                  /\ exists i : nat,
                       (i < length l)%nat
                       /\ (l ++ [x]) !! i = Some node /\ BackendDOMNodeID node = id
                       /\ forall (j : nat) (other : CDPAXNode),
                            (i < j)%nat -> (l ++ [x]) !! j = Some other ->
                            BackendDOMNodeID other <> id).
    { rewrite IH. split.
      - intros [(Hpos & i & Hi & Hid & Hlast) Hx]. split; [exact Hpos |].
        exists i. split; [eapply lookup_lt_Some; eauto |].
        split; [apply lookup_app_l_Some; exact Hi |]. split; [exact Hid |].
        intros j other Hj Hjo. apply lookup_app_Some in Hjo as [Hjo | [_ Hjo]].
        + exact (Hlast j other Hj Hjo).
        + apply list_lookup_singleton_Some in Hjo as [_ <-]. exact Hx.
      - intros (Hpos & i & Hlt & Hi & Hid & Hlast).
        rewrite lookup_app_l in Hi by exact Hlt. split.
        + split; [exact Hpos |]. exists i. split; [exact Hi |]. split; [exact Hid |].
          intros j other Hj Hjo. apply (Hlast j other Hj).
          apply lookup_app_l_Some. exact Hjo.
        + apply (Hlast (length l) x Hlt). apply list_lookup_middle. reflexivity. }
    assert (Hsplit : forall i, (l ++ [x]) !! i = Some node ->
              (i < length l)%nat \/ (i = length l /\ node = x)).
    { intros i Hi. apply lookup_app_Some in Hi as [Hi | [Hge Hi]].
      - left. eapply lookup_lt_Some; eauto.
      - right. apply list_lookup_singleton_Some in Hi as [Hz <-]. split; [lia | reflexivity]. }
    destruct (0 <? BackendDOMNodeID x) eqn:Hposx.
    + apply Z.ltb_lt in Hposx. destruct (decide (BackendDOMNodeID x = id)) as [Hx|Hx].
      * subst id. rewrite lookup_insert_eq. split.
        -- intros [= <-]. split; [exact Hposx |]. exists (length l).
           split; [apply list_lookup_middle; reflexivity |]. split; [reflexivity |].
           intros j other Hj Hjo. apply lookup_lt_Some in Hjo.
           rewrite length_app in Hjo. simpl in Hjo. lia.
        -- intros (_ & i & Hi & Hid & Hlast).
           destruct (Hsplit i Hi) as [Hlt | [_ ->]]; [| reflexivity].
           exfalso. apply (Hlast (length l) x Hlt); [| reflexivity].
           apply list_lookup_middle. reflexivity.
      * rewrite lookup_insert_ne by exact Hx. split.
        -- intros Hl. destruct (proj1 Hkeep (conj Hl Hx)) as (Hpos & i & _ & Hrest).
           split; [exact Hpos |]. exists i. exact Hrest.
        -- intros (Hpos & i & Hi & Hid & Hlast).
           destruct (Hsplit i Hi) as [Hlt | [_ ->]]; [| congruence].
           apply Hkeep. split; [exact Hpos |]. exists i. auto.
    + apply Z.ltb_ge in Hposx. split.
      * intros Hl.
        assert (Hx : BackendDOMNodeID x <> id).
        { apply IH in Hl as (Hpos & _). lia. }
        destruct (proj1 Hkeep (conj Hl Hx)) as (Hpos & i & _ & Hrest).
        split; [exact Hpos |]. exists i. exact Hrest.
      * intros (Hpos & i & Hi & Hid & Hlast).
        destruct (Hsplit i Hi) as [Hlt | [_ ->]]; [| lia].
        apply Hkeep. split; [exact Hpos |]. exists i. auto.
Qed.

End Lookups.

Module Sizes.
Import Dom DomSpec MoreSpec.

Lemma length_omap_le {A B : Type} (f : A -> option B) (l : list A) :
  (length (omap f l) <= length l)%nat.
Proof.
  induction l as [|x l IH]; csimpl; [lia |].
  destruct (f x); simpl; lia.
Qed.

Lemma filterStep_page (hp : bool) (st : EnhancedElementMap * Z) (el : EnhancedElement) :
  PageURL (filterStep hp st el).1 = PageURL st.1
  /\ PageTitle (filterStep hp st el).1 = PageTitle st.1.
Proof.
  destruct st as [m idx]. unfold filterStep.
  destruct (negb (IsInteractive (base el)) || negb (IsVisible (base el))); [auto |].
  destruct (IsOccluded el); [auto |].
  destruct (IsContained el); auto.
Qed.

Lemma filter_fold_page (hp : bool) (els : list EnhancedElement)
    (st : EnhancedElementMap * Z) :
  PageURL (foldl (filterStep hp) st els).1 = PageURL st.1
  /\ PageTitle (foldl (filterStep hp) st els).1 = PageTitle st.1.
Proof.
  revert st. induction els as [|el els IH]; intros st; simpl; [auto |].
  destruct (IH (filterStep hp st el)) as [-> ->]. apply filterStep_page.
Qed.

Section WithEnv.
Context `{GoEnv}.

(** X25: when [sort.Slice] rearranges its slice, a map extracted from a
    parsed snapshot lists at most [TotalElements] elements, and
    [TotalElements] is at most the number of nodes of the first
    document. *)
Theorem snapshot_map_sizes (page : Page) (prev : option EnhancedElementMap)
    (doc : SnapshotDocument) (m : EnhancedElementMap) :
  (forall less l, sort_Slice less l ≡ₚ l) ->
  snapshotParsed page doc ->
  ExtractEnhancedElementMap page prev = Some m ->
  Z.of_nat (length (Elements m)) <= TotalElements m
  /\ TotalElements m <= Z.of_nat (length (n_NodeType (Nodes doc))).
Proof.
  intros Hperm Hsnap Hex.
  rewrite (Extraction.extract_snapshot_path page prev doc Hsnap) in Hex.
  injection Hex as <-.
  destruct (Extraction.filterAndIndex_spec (bool_decide (is_Some prev)) (startMap page prev)
              (parsedElements doc (axLookupOf page))
              (Extraction.startMap_Elements page prev)) as (-> & -> & _).
  split.
  - rewrite length_imap. apply inj_le. apply length_filter.
  - apply inj_le. unfold parsedElements.
    rewrite Geometry.markContained_imap, length_imap.
    rewrite Geometry.markOccluded_imap, length_imap.
    rewrite Hperm. unfold parseNodes.
    etransitivity; [apply length_omap_le |]. rewrite length_seq. reflexivity.
Qed.

(** X26: a map extracted from a parsed snapshot carries the URL and the
    title that [page.Info] gave, and two empty strings when [page.Info]
    failed; the extraction goes on without them. *)
Theorem snapshot_map_page_info (page : Page) (prev : option EnhancedElementMap)
    (doc : SnapshotDocument) (m : EnhancedElementMap) :
  snapshotParsed page doc ->
  ExtractEnhancedElementMap page prev = Some m ->
  (PageURL m, PageTitle m) = default (""%string, ""%string) (page_Info page).
Proof.
  intros Hsnap Hex.
  rewrite (Extraction.extract_snapshot_path page prev doc Hsnap) in Hex.
  injection Hex as <-. unfold filterAndIndex.
  pose proof (filter_fold_page (bool_decide (is_Some prev))
                (parsedElements doc (axLookupOf page)) (startMap page prev, 0)) as Hpage.
  destruct (foldl _ _ _) as [m idx]. simpl in *. destruct Hpage as [-> ->].
  unfold startMap. destruct (page_Info page) as [[url title]|], prev; reflexivity.
Qed.

End WithEnv.

Lemma exButtonPage_parsed : snapshotParsed exButtonPage exDisabledDoc.
Proof. exists (mkSnapshotResponse [exDisabledDoc]), []. split; reflexivity. Qed.

Lemma exButtonPage_extracted :
  ExtractEnhancedElementMap exButtonPage None
  = Some (default NewEnhancedElementMap (ExtractEnhancedElementMap exButtonPage None)).
Proof. reflexivity. Qed.

Lemma snapshot_map_sizes_witness :
  (forall less l, sort_Slice less l ≡ₚ l)
  /\ snapshotParsed exTwinPage exTwinDoc
  /\ ExtractEnhancedElementMap exTwinPage (Some NewEnhancedElementMap) = Some exTwinMap
  /\ Z.of_nat (length (Elements exTwinMap)) <= TotalElements exTwinMap
  /\ TotalElements exTwinMap <= Z.of_nat (length (n_NodeType (Nodes exTwinDoc))).
Proof.
  split; [exact Extraction.refEnv_sort_perm |].
  split; [exact Extraction.exTwinPage_parsed |].
  split; [exact Extraction.exTwinMap_extracted |].
  apply (snapshot_map_sizes exTwinPage (Some NewEnhancedElementMap) exTwinDoc exTwinMap
           Extraction.refEnv_sort_perm Extraction.exTwinPage_parsed
           Extraction.exTwinMap_extracted).
Defined.

Lemma snapshot_map_page_info_witness :
  snapshotParsed exButtonPage exDisabledDoc
  /\ ExtractEnhancedElementMap exButtonPage None
     = Some (default NewEnhancedElementMap (ExtractEnhancedElementMap exButtonPage None))
  /\ (PageURL (default NewEnhancedElementMap (ExtractEnhancedElementMap exButtonPage None)),
      PageTitle (default NewEnhancedElementMap (ExtractEnhancedElementMap exButtonPage None)))
     = default (""%string, ""%string) (page_Info exButtonPage).
Proof.
  split; [exact exButtonPage_parsed |].
  split; [exact exButtonPage_extracted |].
  apply (snapshot_map_page_info exButtonPage None exDisabledDoc _ exButtonPage_parsed
           exButtonPage_extracted).
Defined.

End Sizes.
